(** * Territorial Control: a shallow embedding of [src/main.cpp]

    The program is a turn-based territory game on a square grid.  All of
    its session state lives in global variables, which are gathered here
    in one record [State], threaded explicitly through every function.

    Modelling conventions.
    - C++ [int] values are [Z].  Signed overflow is undefined in C++; the
      counters of the program stay far below [2^31] (they move by at most
      three per frame), so no wrap-around is written out.
    - [std::vector::operator[]] out of range is undefined behaviour.  Every
      function that indexes [grid] lives in the [option] monad and yields
      [None] as soon as an access leaves the allocated storage.
    - The shared [std::mt19937 rng] together with the standard
      distributions and [std::shuffle] is an interface, [RandomSource]:
      each call consumes the generator and returns the next one.
    - [float] time ([aiTimer], [deltaTime], [AI_DELAY]) is IEEE 754
      binary32, [Float32]: the sum is rounded as the hardware rounds it
      and the comparison against [AI_DELAY] is made on the rounded sum.
    - Rendering and audio have no effect on the session state and are
      left out; the mouse position arrives already converted to the
      integer grid coordinates [gridX], [gridY] that [handleInput]
      computes. *)

From Stdlib Require Import ZArith SpecFloat Lia.
From stdpp Require Import base option list.

Open Scope Z_scope.

(** ** Single-precision time

    [aiTimer], [deltaTime] and [AI_DELAY] are C++ [float]s, IEEE 754
    binary32: 24 bits of precision, exponents up to 128.  [add] is the
    [+] of [aiTimer += deltaTime], the exact sum rounded to nearest, ties
    to even (the default rounding mode), as it is stored back into the
    [float]; [geb] is [>=], false as soon as an operand is NaN.  Frame
    times are any [float], as [GetFrameTime] may return them. *)

Module Float32.
Definition t := spec_float.
Definition prec : Z := 24.
Definition emax : Z := 128.
Definition add (a b : t) : t := SFadd prec emax a b.
Definition geb (a b : t) : bool := SFleb b a.
(** [0.0f] and [1.0f]. *)
Definition zero : t := S754_zero false.
Definition one : t := S754_finite false 8388608 (-23).
End Float32.

Arguments Float32.add : simpl never.
Arguments Float32.geb : simpl never.

Declare Scope float32_scope.
Delimit Scope float32_scope with f32.
Infix "+" := Float32.add : float32_scope.
Infix ">=?" := Float32.geb : float32_scope.

(** ** Constants *)

Definition DEFAULT_GRID_SIZE : Z := 10.
Definition IMPULSE_COST : Z := 3.
Definition AI_DELAY : Float32.t := Float32.one.
Definition WIN_PERCENTAGE : Z := 45.

(** ** Enumerations ([enum class] keeps its own name space) *)

Module CellState.
Inductive t := NEUTRAL | PLAYER | AI.
#[global] Instance eq_dec : EqDecision t.
Proof. solve_decision. Defined.
End CellState.

Module GameState.
Inductive t := MENU | PLAYING | GAME_OVER.
#[global] Instance eq_dec : EqDecision t.
Proof. solve_decision. Defined.
End GameState.

Module GameResult.
Inductive t := NONE | PLAYER_WIN | AI_WIN | DRAW.
#[global] Instance eq_dec : EqDecision t.
Proof. solve_decision. Defined.
End GameResult.

Module ImpulseMode.
Inductive t := NONE | ATTACK | SPEED.
#[global] Instance eq_dec : EqDecision t.
Proof. solve_decision. Defined.
End ImpulseMode.

(** ** The random source

    [coin] is the test [dis(rng) < 0.5] of [decideAIImpulseMode];
    [uniform_int a b] is [std::uniform_int_distribution<>(a, b)(rng)];
    [shuffle] is [std::shuffle(first, last, rng)].  The two laws are what
    the C++ standard promises of them. *)

Class RandomSource (R : Type) := {
  coin : R -> bool * R;
  uniform_int : Z -> Z -> R -> Z * R;
  shuffle : list (Z * Z) -> R -> list (Z * Z) * R;
  uniform_int_range : forall a b r, a <= b -> a <= (uniform_int a b r).1 <= b;
  shuffle_perm : forall l r, (shuffle l r).1 ≡ₚ l
}.

(** ** Vectors with undefined out-of-range access *)

Abbreviation Grid := (list (list CellState.t)).

Definition vec_at {A} (v : list A) (i : Z) : option A :=
  if decide (0 <= i) then v !! Z.to_nat i else None.

Definition grid_get (g : Grid) (x y : Z) : option CellState.t :=
  row ← vec_at g x; vec_at row y.

Definition grid_set (g : Grid) (x y : Z) (c : CellState.t) : option Grid :=
  row ← vec_at g x;
  _ ← vec_at row y;
  Some (<[Z.to_nat x := <[Z.to_nat y := c]> row]> g).

(** [v.resize(n, x)] *)
Definition vec_resize {A} (v : list A) (n : Z) (x : A) : list A :=
  take (Z.to_nat n) v ++ replicate (Z.to_nat n - length v) x.

(** The index pairs visited by
    [for (x = 0; x < n; x++) for (y = 0; y < n; y++)], in order. *)
Definition cells (n : Z) : list (Z * Z) :=
  x ← seqZ 0 n; y ← seqZ 0 n; [(x, y)].

(** ** Session state: the global variables of the program *)

Section Engine.
Context {R : Type} {RS : RandomSource R}.

Record State := mkState {
  currentState : GameState.t;
  gameResult : GameResult.t;
  gridSize : Z;
  impulseCost : Z;
  playerTurn : bool;
  impulseModeActive : bool;
  currentImpulseMode : ImpulseMode.t;
  selectedGridSize : Z;
  grid : Grid;
  playerCells : Z;
  aiCells : Z;
  playerCharges : Z;
  aiCharges : Z;
  aiTimer : Float32.t;
  rng : R;
  selectedCells : list (Z * Z)
}.

Definition set_currentState (v : GameState.t) (s : State) : State :=
  mkState v (gameResult s) (gridSize s) (impulseCost s) (playerTurn s)
    (impulseModeActive s) (currentImpulseMode s) (selectedGridSize s) (grid s)
    (playerCells s) (aiCells s) (playerCharges s) (aiCharges s) (aiTimer s)
    (rng s) (selectedCells s).
Definition set_gameResult (v : GameResult.t) (s : State) : State :=
  mkState (currentState s) v (gridSize s) (impulseCost s) (playerTurn s)
    (impulseModeActive s) (currentImpulseMode s) (selectedGridSize s) (grid s)
    (playerCells s) (aiCells s) (playerCharges s) (aiCharges s) (aiTimer s)
    (rng s) (selectedCells s).
Definition set_gridSize (v : Z) (s : State) : State :=
  mkState (currentState s) (gameResult s) v (impulseCost s) (playerTurn s)
    (impulseModeActive s) (currentImpulseMode s) (selectedGridSize s) (grid s)
    (playerCells s) (aiCells s) (playerCharges s) (aiCharges s) (aiTimer s)
    (rng s) (selectedCells s).
Definition set_playerTurn (v : bool) (s : State) : State :=
  mkState (currentState s) (gameResult s) (gridSize s) (impulseCost s) v
    (impulseModeActive s) (currentImpulseMode s) (selectedGridSize s) (grid s)
    (playerCells s) (aiCells s) (playerCharges s) (aiCharges s) (aiTimer s)
    (rng s) (selectedCells s).
Definition set_impulseModeActive (v : bool) (s : State) : State :=
  mkState (currentState s) (gameResult s) (gridSize s) (impulseCost s)
    (playerTurn s) v (currentImpulseMode s) (selectedGridSize s) (grid s)
    (playerCells s) (aiCells s) (playerCharges s) (aiCharges s) (aiTimer s)
    (rng s) (selectedCells s).
Definition set_currentImpulseMode (v : ImpulseMode.t) (s : State) : State :=
  mkState (currentState s) (gameResult s) (gridSize s) (impulseCost s)
    (playerTurn s) (impulseModeActive s) v (selectedGridSize s) (grid s)
    (playerCells s) (aiCells s) (playerCharges s) (aiCharges s) (aiTimer s)
    (rng s) (selectedCells s).
Definition set_selectedGridSize (v : Z) (s : State) : State :=
  mkState (currentState s) (gameResult s) (gridSize s) (impulseCost s)
    (playerTurn s) (impulseModeActive s) (currentImpulseMode s) v (grid s)
    (playerCells s) (aiCells s) (playerCharges s) (aiCharges s) (aiTimer s)
    (rng s) (selectedCells s).
Definition set_grid (v : Grid) (s : State) : State :=
  mkState (currentState s) (gameResult s) (gridSize s) (impulseCost s)
    (playerTurn s) (impulseModeActive s) (currentImpulseMode s)
    (selectedGridSize s) v (playerCells s) (aiCells s) (playerCharges s)
    (aiCharges s) (aiTimer s) (rng s) (selectedCells s).
Definition set_playerCells (v : Z) (s : State) : State :=
  mkState (currentState s) (gameResult s) (gridSize s) (impulseCost s)
    (playerTurn s) (impulseModeActive s) (currentImpulseMode s)
    (selectedGridSize s) (grid s) v (aiCells s) (playerCharges s)
    (aiCharges s) (aiTimer s) (rng s) (selectedCells s).
Definition set_aiCells (v : Z) (s : State) : State :=
  mkState (currentState s) (gameResult s) (gridSize s) (impulseCost s)
    (playerTurn s) (impulseModeActive s) (currentImpulseMode s)
    (selectedGridSize s) (grid s) (playerCells s) v (playerCharges s)
    (aiCharges s) (aiTimer s) (rng s) (selectedCells s).
Definition set_playerCharges (v : Z) (s : State) : State :=
  mkState (currentState s) (gameResult s) (gridSize s) (impulseCost s)
    (playerTurn s) (impulseModeActive s) (currentImpulseMode s)
    (selectedGridSize s) (grid s) (playerCells s) (aiCells s) v
    (aiCharges s) (aiTimer s) (rng s) (selectedCells s).
Definition set_aiCharges (v : Z) (s : State) : State :=
  mkState (currentState s) (gameResult s) (gridSize s) (impulseCost s)
    (playerTurn s) (impulseModeActive s) (currentImpulseMode s)
    (selectedGridSize s) (grid s) (playerCells s) (aiCells s)
    (playerCharges s) v (aiTimer s) (rng s) (selectedCells s).
Definition set_aiTimer (v : Float32.t) (s : State) : State :=
  mkState (currentState s) (gameResult s) (gridSize s) (impulseCost s)
    (playerTurn s) (impulseModeActive s) (currentImpulseMode s)
    (selectedGridSize s) (grid s) (playerCells s) (aiCells s)
    (playerCharges s) (aiCharges s) v (rng s) (selectedCells s).
Definition set_rng (v : R) (s : State) : State :=
  mkState (currentState s) (gameResult s) (gridSize s) (impulseCost s)
    (playerTurn s) (impulseModeActive s) (currentImpulseMode s)
    (selectedGridSize s) (grid s) (playerCells s) (aiCells s)
    (playerCharges s) (aiCharges s) (aiTimer s) v (selectedCells s).
Definition set_selectedCells (v : list (Z * Z)) (s : State) : State :=
  mkState (currentState s) (gameResult s) (gridSize s) (impulseCost s)
    (playerTurn s) (impulseModeActive s) (currentImpulseMode s)
    (selectedGridSize s) (grid s) (playerCells s) (aiCells s)
    (playerCharges s) (aiCharges s) (aiTimer s) (rng s) v.

(** [grid[x][y] = c;] as a statement on the state. *)
Definition writeCell (x y : Z) (c : CellState.t) (s : State) : option State :=
  g ← grid_set (grid s) x y c; Some (set_grid g s).

(** ** Session start *)

(** The globals as their initialisers leave them, before [main] runs. *)
Definition globals (r : R) : State :=
  mkState GameState.MENU GameResult.NONE DEFAULT_GRID_SIZE IMPULSE_COST true
    false ImpulseMode.NONE 1 [] 1 1 0 0 Float32.zero r [].

Definition initializeGame (s : State) : option State :=
  let n := gridSize s in
  let s := set_grid (vec_resize (grid s) n (replicate (Z.to_nat n) CellState.NEUTRAL)) s in
  s ← writeCell 0 0 CellState.PLAYER s;
  s ← writeCell (gridSize s - 1) (gridSize s - 1) CellState.AI s;
  Some (set_currentImpulseMode ImpulseMode.NONE
       (set_impulseModeActive false
       (set_playerTurn true
       (set_aiCharges 0
       (set_playerCharges 0
       (set_aiCells 1
       (set_playerCells 1 s))))))).

Fixpoint clearCells (cs : list (Z * Z)) (s : State) : option State :=
  match cs with
  | [] => Some s
  | (x, y) :: cs => s ← writeCell x y CellState.NEUTRAL s; clearCells cs s
  end.

Definition resetGame (s : State) : option State :=
  s ← clearCells (cells (gridSize s)) s;
  s ← writeCell 0 0 CellState.PLAYER s;
  s ← writeCell (gridSize s - 1) (gridSize s - 1) CellState.AI s;
  Some (set_currentState GameState.PLAYING
       (set_gameResult GameResult.NONE
       (set_selectedCells []
       (set_currentImpulseMode ImpulseMode.NONE
       (set_impulseModeActive false
       (set_playerTurn true
       (set_aiCharges 0
       (set_playerCharges 0
       (set_aiCells 1
       (set_playerCells 1 s)))))))))).

(** ** Adjacency and move legality *)

Definition inBounds (n x y : Z) : bool :=
  (0 <=? x) && (x <? n) && (0 <=? y) && (y <? n).

(** The offsets [dx[i]], [dy[i]] for [i = 0..3]. *)
Definition offsets : list (Z * Z) := [(-1, 0); (1, 0); (0, -1); (0, 1)].

Definition getAdjacentCells (n x y : Z) : list (Z * Z) :=
  List.filter (fun p => inBounds n p.1 p.2)
              (List.map (fun d => (x + d.1, y + d.2)) offsets).

(** The loop [for (auto& adj : adjacent) if (grid[adj] == owner) ...] that
    stops at the first hit: does some listed cell hold [owner]? *)
Fixpoint anyOwned (g : Grid) (owner : CellState.t) (adj : list (Z * Z))
  : option bool :=
  match adj with
  | [] => Some false
  | (ax, ay) :: rest =>
      c ← grid_get g ax ay;
      if decide (c = owner) then Some true else anyOwned g owner rest
  end.

Definition isValidMove (s : State) (x y : Z) (player : CellState.t)
  : option bool :=
  if (x <? 0) || (x >=? gridSize s) || (y <? 0) || (y >=? gridSize s)
  then Some false
  else
    c ← grid_get (grid s) x y;
    if decide (c ≠ CellState.NEUTRAL) then Some false
    else anyOwned (grid s) player (getAdjacentCells (gridSize s) x y).

(** The double loop shared by [getAvailableMoves] and [getAIAttackMove]:
    collect, in scan order, every cell in state [want] that has a
    neighbour in state [owner]. *)
Fixpoint scanCells (g : Grid) (n : Z) (want owner : CellState.t)
  (cs : list (Z * Z)) : option (list (Z * Z)) :=
  match cs with
  | [] => Some []
  | (x, y) :: rest =>
      c ← grid_get g x y;
      hit ← (if decide (c = want)
             then anyOwned g owner (getAdjacentCells n x y)
             else Some false);
      more ← scanCells g n want owner rest;
      Some (if hit : bool then (x, y) :: more else more)
  end.

Definition getAvailableMoves (s : State) (player : CellState.t)
  : option (list (Z * Z)) :=
  scanCells (grid s) (gridSize s) CellState.NEUTRAL player (cells (gridSize s)).

(** ** AI move selection *)

Definition decideAIImpulseMode (s : State) : ImpulseMode.t * State :=
  let '(b, r) := coin (rng s) in
  (if b then ImpulseMode.ATTACK else ImpulseMode.SPEED, set_rng r s).

Definition getAIMove (s : State) : option ((Z * Z) * State) :=
  availableMoves ← getAvailableMoves s CellState.AI;
  match availableMoves with
  | [] => Some ((-1, -1), s)
  | _ =>
      let '(k, r) := uniform_int 0 (Z.of_nat (length availableMoves) - 1) (rng s) in
      m ← vec_at availableMoves k;
      Some (m, set_rng r s)
  end.

Definition getAIAttackMove (s : State) : option (list (Z * Z) * State) :=
  attackableCells ← scanCells (grid s) (gridSize s) CellState.PLAYER
                       CellState.AI (cells (gridSize s));
  match attackableCells with
  | [] => Some ([], s)
  | _ =>
      let '(shuffled, r) := shuffle attackableCells (rng s) in
      Some (take 2 shuffled, set_rng r s)
  end.

Definition getAISpeedMove (s : State) : option (list (Z * Z) * State) :=
  availableMoves ← getAvailableMoves s CellState.AI;
  match availableMoves with
  | [] => Some ([], s)
  | _ =>
      let '(moves, r) := shuffle availableMoves (rng s) in
      Some (take 3 moves, set_rng r s)
  end.

(** ** Win condition *)

Definition targetCells (n : Z) : Z :=
  Z.quot (n * n * WIN_PERCENTAGE + 99) 100.

Definition checkWinCondition (s : State) : State :=
  let target := targetCells (gridSize s) in
  let playerWin := playerCells s >=? target in
  let aiWin := aiCells s >=? target in
  if playerWin && aiWin then set_gameResult GameResult.DRAW s
  else if playerWin then set_gameResult GameResult.PLAYER_WIN s
  else if aiWin then set_gameResult GameResult.AI_WIN s
  else s.

(** ** Impulse mode (player) *)

Definition startImpulseMode (mode : ImpulseMode.t) (s : State) : State :=
  if playerCharges s >=? impulseCost s
  then set_selectedCells []
         (set_currentImpulseMode mode (set_impulseModeActive true s))
  else s.

Definition finishImpulseMode (s : State) : State :=
  set_selectedCells []
    (set_currentImpulseMode ImpulseMode.NONE (set_impulseModeActive false s)).

Definition alreadySelected (x y : Z) (sel : list (Z * Z)) : bool :=
  existsb (fun cell => (cell.1 =? x) && (cell.2 =? y)) sel.

(** [for (auto& cell : selectedCells) { grid[cell] = PLAYER; aiCells--;
    playerCells++; }] *)
Fixpoint attackFlip (cs : list (Z * Z)) (s : State) : option State :=
  match cs with
  | [] => Some s
  | (x, y) :: cs =>
      s ← writeCell x y CellState.PLAYER s;
      attackFlip cs (set_playerCells (playerCells s + 1)
                      (set_aiCells (aiCells s - 1) s))
  end.

(** [for (auto& cell : selectedCells) { grid[cell] = PLAYER;
    playerCells++; }] *)
Fixpoint speedFlip (cs : list (Z * Z)) (s : State) : option State :=
  match cs with
  | [] => Some s
  | (x, y) :: cs =>
      s ← writeCell x y CellState.PLAYER s;
      speedFlip cs (set_playerCells (playerCells s + 1) s)
  end.

(** What both impulse kinds do once the selection is complete. *)
Definition impulseDone (s : State) : State :=
  set_aiTimer Float32.zero
    (set_playerTurn false
      (finishImpulseMode
        (set_playerCharges (playerCharges s - impulseCost s) s))).

Definition selectTarget (limit : Z) (x y : Z) (s : State) : State :=
  if negb (alreadySelected x y (selectedCells s))
     && (Z.of_nat (length (selectedCells s)) <? limit)
  then set_selectedCells (selectedCells s ++ [(x, y)]) s
  else s.

Definition handleImpulseCellSelection (x y : Z) (s : State) : option State :=
  match currentImpulseMode s with
  | ImpulseMode.ATTACK =>
      c ← grid_get (grid s) x y;
      if decide (c = CellState.AI) then
        found ← anyOwned (grid s) CellState.PLAYER
                  (getAdjacentCells (gridSize s) x y);
        if found : bool then
          let s := selectTarget 2 x y s in
          if Z.of_nat (length (selectedCells s)) >=? 2 then
            s ← attackFlip (selectedCells s) s;
            Some (impulseDone s)
          else Some s
        else Some s
      else Some s
  | ImpulseMode.SPEED =>
      c ← grid_get (grid s) x y;
      if decide (c = CellState.NEUTRAL) then
        valid ← isValidMove s x y CellState.PLAYER;
        if valid : bool then
          let s := selectTarget 3 x y s in
          if Z.of_nat (length (selectedCells s)) >=? 3 then
            s ← speedFlip (selectedCells s) s;
            Some (impulseDone s)
          else Some s
        else Some s
      else Some s
  | ImpulseMode.NONE => Some s
  end.

(** ** The AI turn *)

(** [aiCharges >= impulseCost && decideAIImpulseMode() == mode]: the coin
    is only flipped when the left operand holds. *)
Definition aiWants (mode : ImpulseMode.t) (s : State) : bool * State :=
  if aiCharges s >=? impulseCost s
  then let '(m, s) := decideAIImpulseMode s in (bool_decide (m = mode), s)
  else (false, s).

Fixpoint aiAttackFlip (cs : list (Z * Z)) (s : State) : option State :=
  match cs with
  | [] => Some s
  | (x, y) :: cs =>
      if decide (x ≠ -1) then
        s ← writeCell x y CellState.AI s;
        aiAttackFlip cs (set_aiCells (aiCells s + 1)
                          (set_playerCells (playerCells s - 1) s))
      else aiAttackFlip cs s
  end.

Fixpoint aiSpeedFlip (cs : list (Z * Z)) (s : State) : option State :=
  match cs with
  | [] => Some s
  | (x, y) :: cs =>
      if decide (x ≠ -1) then
        s ← writeCell x y CellState.AI s;
        aiSpeedFlip cs (set_aiCells (aiCells s + 1) s)
      else aiSpeedFlip cs s
  end.

Definition payImpulse (cs : list (Z * Z)) (s : State) : State :=
  match cs with
  | [] => s
  | _ => set_aiCharges (aiCharges s - impulseCost s) s
  end.

(** The final [else] branch of [processAITurn]. *)
Definition aiOrdinaryMove (s : State) : option State :=
  '(move, s) ← getAIMove s;
  if decide (move.1 ≠ -1) then
    s ← writeCell move.1 move.2 CellState.AI s;
    Some (set_aiCharges (aiCharges s + 1) (set_aiCells (aiCells s + 1) s))
  else Some s.

Definition processAITurn (deltaTime : Float32.t) (s : State) : option State :=
  let s := set_aiTimer (aiTimer s + deltaTime)%f32 s in
  if (aiTimer s >=? AI_DELAY)%f32 then
    s ← (let '(attack, s) := aiWants ImpulseMode.ATTACK s in
         if attack then
           '(attackCells, s) ← getAIAttackMove s;
           s ← aiAttackFlip attackCells s;
           Some (payImpulse attackCells s)
         else
           let '(speed, s) := aiWants ImpulseMode.SPEED s in
           if speed then
             '(cs, s) ← getAISpeedMove s;
             s ← aiSpeedFlip cs s;
             Some (payImpulse cs s)
           else aiOrdinaryMove s);
    Some (checkWinCondition (set_playerTurn true s))
  else Some s.

(** ** One frame of the main loop *)

Inductive MenuButton := Button7 | Button10 | Button12 | ButtonStart.

#[global] Instance MenuButton_eq_dec : EqDecision MenuButton.
Proof. solve_decision. Defined.

(** What the input layer reports in one frame: a left click, as the grid
    coordinates [handleInput] derives from it and as the menu button under
    it, and the keys that went down.  The exit button and the music toggle
    touch no session state and are not inputs here; Escape only matters on
    the game-over screen. *)
Record Input := mkInput {
  click : option (Z * Z);
  menuClick : option MenuButton;
  keyA : bool;
  keyS : bool;
  keySpace : bool;
  keyR : bool;
  keyEscape : bool;
  deltaTime : Float32.t
}.

Definition playerCapture (x y : Z) (s : State) : option State :=
  s ← writeCell x y CellState.PLAYER s;
  Some (set_aiTimer Float32.zero
       (set_playerTurn false
       (set_playerCharges (playerCharges s + 1)
       (set_playerCells (playerCells s + 1) s)))).

Definition handleInput (inp : Input) (s : State) : option State :=
  match currentState s with
  | GameState.PLAYING =>
      s ← (if playerTurn s && negb (impulseModeActive s) then
             s ← match click inp with
                 | Some (gridX, gridY) =>
                     if inBounds (gridSize s) gridX gridY then
                       c ← grid_get (grid s) gridX gridY;
                       if decide (c = CellState.NEUTRAL) then
                         valid ← isValidMove s gridX gridY CellState.PLAYER;
                         if valid : bool then playerCapture gridX gridY s
                         else Some s
                       else Some s
                     else Some s
                 | None => Some s
                 end;
             Some (if playerCharges s >=? impulseCost s then
                     if keyA inp then startImpulseMode ImpulseMode.ATTACK s
                     else if keyS inp then startImpulseMode ImpulseMode.SPEED s
                     else s
                   else s)
           else Some s);
      if impulseModeActive s then
        match click inp with
        | Some (gridX, gridY) =>
            if inBounds (gridSize s) gridX gridY
            then handleImpulseCellSelection gridX gridY s
            else Some s
        | None => Some s
        end
      else Some s
  | _ => Some s
  end.

Definition startFromMenu (s : State) : option State :=
  let s := if decide (selectedGridSize s = 0) then set_gridSize 7 s
           else if decide (selectedGridSize s = 1) then set_gridSize 10 s
           else if decide (selectedGridSize s = 2) then set_gridSize 12 s
           else s in
  s ← resetGame s;
  Some (set_currentState GameState.PLAYING s).

Definition updateMenu (inp : Input) (s : State) : option State :=
  let s := match menuClick inp with
           | Some Button7 => set_selectedGridSize 0 s
           | Some Button10 => set_selectedGridSize 1 s
           | Some Button12 => set_selectedGridSize 2 s
           | _ => s
           end in
  s ← (if decide (menuClick inp = Some ButtonStart) then startFromMenu s
       else Some s);
  if keySpace inp then startFromMenu s else Some s.

Definition updateGame (inp : Input) (s : State) : option State :=
  match currentState s with
  | GameState.MENU => updateMenu inp s
  | GameState.PLAYING =>
      if decide (gameResult s ≠ GameResult.NONE)
      then Some (set_currentState GameState.GAME_OVER s)
      else if playerTurn s then Some s
      else processAITurn (deltaTime inp) s
  | GameState.GAME_OVER =>
      if keyR inp || keyEscape inp
      then Some (set_currentState GameState.MENU s)
      else Some s
  end.

(** The body of the [while] loop in [main]. *)
Definition frame (inp : Input) (s : State) : option State :=
  s ← handleInput inp s; updateGame inp s.

(** [main] up to the loop: [initializeGame] on the initial globals. *)
Definition programStart (r : R) : option State := initializeGame (globals r).

Fixpoint run (inps : list Input) (s : State) : option State :=
  match inps with
  | [] => Some s
  | inp :: inps => s ← frame inp s; run inps s
  end.

End Engine.

Arguments State : clear implicits.

(** ** A deterministic random source for tests

    A tape of integers, read front to back (an exhausted tape reads [0]):
    the coin shows ATTACK on [0]; [uniform_int a b] reduces the entry into
    [a..b]; [shuffle] rotates the sequence by the entry. *)

Module Tape.
Definition t := list Z.

Definition next (r : t) : Z * t :=
  match r with
  | [] => (0, [])
  | n :: r => (n, r)
  end.

Definition coin (r : t) : bool * t :=
  let '(n, r) := next r in (bool_decide (n = 0), r).

Definition uniform_int (a b : Z) (r : t) : Z * t :=
  let '(n, r) := next r in (a + n `mod` (b - a + 1), r).

Definition shuffle (l : list (Z * Z)) (r : t) : list (Z * Z) * t :=
  let '(n, r) := next r in (rotate (Z.to_nat n) l, r).

#[global] Instance source : RandomSource t.
Proof.
  refine (Build_RandomSource t coin uniform_int shuffle _ _).
  - intros a b r Hab. unfold uniform_int. destruct (next r) as [n r']. simpl.
    pose proof (Z.mod_pos_bound n (b - a + 1)). lia.
  - intros l r. unfold shuffle. destruct (next r) as [n r']. simpl.
    unfold rotate. rewrite Permutation_app_comm. by rewrite take_drop.
Defined.
End Tape.

(** ** Concrete sessions

    Inputs and states used to run the program on examples.  Every state
    below is obtained by running frames from [programStart] on a tape. *)

Module Scenario.

(** A click on a menu button. *)
Definition menu (b : MenuButton) : Input :=
  mkInput None (Some b) false false false false false Float32.zero.

(** A click on the cell [(x, y)], no key down. *)
Definition clickAt (x y : Z) : Input :=
  mkInput (Some (x, y)) None false false false false false Float32.zero.

(** A click on the cell [(x, y)] with key A, or key S, going down in the
    same frame. *)
Definition clickWithA (x y : Z) : Input :=
  mkInput (Some (x, y)) None true false false false false Float32.zero.
Definition clickWithS (x y : Z) : Input :=
  mkInput (Some (x, y)) None false true false false false Float32.zero.

Definition pressA : Input :=
  mkInput None None true false false false false Float32.zero.
Definition pressS : Input :=
  mkInput None None false true false false false Float32.zero.

(** A frame without input in which one second passes. *)
Definition tick : Input :=
  mkInput None None false false false false false Float32.one.

Definition after (tape : Tape.t) (inps : list Input) : option (State Tape.t) :=
  s ← programStart tape; run inps s.

Definition get (o : option (State Tape.t)) : State Tape.t :=
  default (globals []) o.

(** The state [main] enters its loop with. *)
Definition started : State Tape.t := Eval vm_compute in get (after [] []).

(** A fresh 7 x 7 session. *)
Definition fresh7 : State Tape.t :=
  Eval vm_compute in get (after [] [menu Button7; menu ButtonStart]).

(** The tape that makes the AI walk up the last column: the last
    available move each turn and, once it has three charges, a SPEED flip
    followed by an ATTACK flip. *)
Definition walkTape : Tape.t :=
  [-1; -1; -1; 1; 0; -1; 1; 0; -1; 1; 0; -1].

(** Five rounds on the 7 x 7 board: the player holds row [y = 0] up to
    [x = 5], the AI holds column [x = 6] down to [y = 1]. *)
Definition fiveRounds : list Input :=
  [menu Button7; menu ButtonStart;
   clickAt 1 0; tick; clickAt 2 0; tick; clickAt 3 0; tick;
   clickAt 4 0; tick; clickAt 5 0; tick].

(** A sixth round, after which the two territories touch in two places
    and the player has six charges; then attack mode entered by key A and
    one target chosen. *)
Definition attackOne : State Tape.t :=
  Eval vm_compute in
    get (after walkTape (fiveRounds ++ [clickAt 5 1; tick; pressA; clickAt 6 0])).

(** The same six rounds; then speed mode entered by key S and two
    targets chosen. *)
Definition speedTwo : State Tape.t :=
  Eval vm_compute in
    get (after walkTape
           (fiveRounds ++ [clickAt 5 1; tick; pressS; clickAt 0 1; clickAt 1 1])).

(** The sixth capture and key S in one frame, then a first speed target
    chosen while the AI's delay runs. *)
Definition staleGuard : list Input :=
  fiveRounds ++ [clickWithS 0 1; clickAt 6 0].

(** After [staleGuard], the AI has moved and two targets are selected. *)
Definition speedStale : State Tape.t :=
  Eval vm_compute in get (after walkTape (staleGuard ++ [tick; clickAt 1 1])).

(** Two rounds on the 7 x 7 board: the player's turn, with two charges. *)
Definition twoRoundsInputs : list Input :=
  [menu Button7; menu ButtonStart; clickAt 1 0; tick; clickAt 2 0; tick].
Definition twoRounds : State Tape.t :=
  Eval vm_compute in get (after [] twoRoundsInputs).

(** Two rounds, then the third capture and key A in one frame. *)
Definition attackStale : State Tape.t :=
  Eval vm_compute in get (after [] (twoRoundsInputs ++ [clickWithA 3 0])).

(** An AI turn about to fire with three charges. *)
Definition aiCharged : State Tape.t :=
  Eval vm_compute in
    get (after walkTape
           [menu Button7; menu ButtonStart;
            clickAt 1 0; tick; clickAt 2 0; tick; clickAt 3 0; tick;
            clickAt 4 0]).

(** The first AI turn of a 7 x 7 session about to fire, no charges yet. *)
Definition aiFirst : State Tape.t :=
  Eval vm_compute in
    get (after [] [menu Button7; menu ButtonStart; clickAt 1 0]).

(** Seven rounds on [walkTape], the last one still to be answered: the
    AI is about to move with six charges on an exhausted tape, so the
    coin shows ATTACK; the player's cells (5, 0) and (5, 1) touch the
    AI's column. *)
Definition aiAttacks : State Tape.t :=
  Eval vm_compute in
    get (after walkTape (fiveRounds ++ [clickAt 5 1; tick; clickAt 4 1])).

(** A tape on which the AI's fourth turn reads two SPEED flips. *)
Definition speedTape : Tape.t := [-1; -1; -1; 1; 1; 0].

(** The AI's fourth turn about to fire, with three charges. *)
Definition aiSpeeds : State Tape.t :=
  Eval vm_compute in
    get (after speedTape
           [menu Button7; menu ButtonStart;
            clickAt 1 0; tick; clickAt 2 0; tick; clickAt 3 0; tick;
            clickAt 4 0]).

(** Three rounds, then key A: attack mode with the AI's cells out of
    reach. *)
Definition lockedInputs : list Input :=
  [menu Button7; menu ButtonStart;
   clickAt 1 0; tick; clickAt 2 0; tick; clickAt 3 0; tick; pressA].
Definition lockedAttack : State Tape.t :=
  Eval vm_compute in get (after [] lockedInputs).

(** The player fills three rows and two more cells, the AI answering
    each capture; the last capture is the player's 23rd cell of 49. *)
Definition round (p : Z * Z) : list Input := [clickAt p.1 p.2; tick].
Definition winningClicks : list (Z * Z) :=
  [(1, 0); (2, 0); (3, 0); (4, 0); (5, 0); (6, 0);
   (0, 1); (1, 1); (2, 1); (3, 1); (4, 1); (5, 1); (6, 1);
   (0, 2); (1, 2); (2, 2); (3, 2); (4, 2); (5, 2); (6, 2);
   (0, 3)].
Definition playerAheadInputs : list Input :=
  [menu Button7; menu ButtonStart] ++ (winningClicks ≫= round)
    ++ [clickAt 1 3].
Definition playerAhead : State Tape.t :=
  Eval vm_compute in get (after [] playerAheadInputs).

(** The frame after: the AI has moved and the result is set. *)
Definition playerWon : State Tape.t :=
  Eval vm_compute in get (after [] (playerAheadInputs ++ [tick])).

(** The menu with the 12 x 12 button selected. *)
Definition menu12 : State Tape.t :=
  Eval vm_compute in get (after [] [menu Button12]).

(** Frame times: [0.5f], and the single-precision number just below it,
    [0.5f - 2^-25]. *)
Definition halfSecond : Float32.t := S754_finite false 8388608 (-24).
Definition justUnderHalf : Float32.t := S754_finite false 16777215 (-25).

(** A frame without input, and a frame with a click on [(x, y)], in
    which [dt] seconds pass. *)
Definition wait (dt : Float32.t) : Input :=
  mkInput None None false false false false false dt.
Definition clickWait (x y : Z) (dt : Float32.t) : Input :=
  mkInput (Some (x, y)) None false false false false false dt.

(** The first AI turn of a session, half a second into its delay. *)
Definition aiHalfWay : State Tape.t :=
  Eval vm_compute in
    get (after [] [menu Button7; menu ButtonStart; clickAt 1 0;
                   clickWait 2 0 halfSecond]).

End Scenario.

(** * Specification vocabulary *)

(** The storage of [g] holds at least the cells [0..n-1] x [0..n-1]. *)
Definition covers (g : Grid) (n : Z) : Prop :=
  n <= Z.of_nat (length g) /\ Forall (fun row => n <= Z.of_nat (length row)) g.

(** The storage of [g] is exactly [n] rows of [n] cells. *)
Definition square (g : Grid) (n : Z) : Prop :=
  Z.of_nat (length g) = n /\ Forall (fun row => Z.of_nat (length row) = n) g.

(** [(a, b)] is the cell left, right, above or below [(x, y)]. *)
Definition adjacent4 (x y a b : Z) : Prop :=
  (a = x - 1 /\ b = y) \/ (a = x + 1 /\ b = y) \/
  (a = x /\ b = y - 1) \/ (a = x /\ b = y + 1).

(** Some 4-neighbour of [(x, y)] on the [n] x [n] board holds [owner]. *)
Definition hasNeighbour (g : Grid) (n x y : Z) (owner : CellState.t) : Prop :=
  exists a b, adjacent4 x y a b /\ inBounds n a b = true /\
              grid_get g a b = Some owner.

(** [(x, y)] is on the board, holds [want] and touches a cell of [owner]. *)
Definition borderCell (g : Grid) (n : Z) (want owner : CellState.t)
  (x y : Z) : Prop :=
  inBounds n x y = true /\ grid_get g x y = Some want /\
  hasNeighbour g n x y owner.

Section Vocabulary.
Context {R : Type} {RS : RandomSource R}.

(** A legal ordinary capture for [owner]: a Neutral cell of the board
    with a neighbour already held by [owner]. *)
Definition legalTarget (s : State R) (owner : CellState.t) (x y : Z) : Prop :=
  borderCell (grid s) (gridSize s) CellState.NEUTRAL owner x y.

(** A target of the player's attack impulse: an AI cell of the board with
    a neighbour held by the player. *)
Definition attackTarget (s : State R) (x y : Z) : Prop :=
  borderCell (grid s) (gridSize s) CellState.AI CellState.PLAYER x y.

(** The number of cells of the [gridSize] x [gridSize] board in state [c]. *)
Definition countCells (s : State R) (c : CellState.t) : Z :=
  Z.of_nat (length (List.filter
    (fun p => bool_decide (grid_get (grid s) p.1 p.2 = Some c))
    (cells (gridSize s)))).

(** The states the program passes through at the end of a frame, for any
    seed and any sequence of inputs. *)
Inductive reachable : State R -> Prop :=
  | reachable_start r s :
      programStart r = Some s -> reachable s
  | reachable_frame inp s s' :
      reachable s -> frame inp s = Some s' -> reachable s'.

(** [s'] differs from [s] at most in the contents of cells, the four
    counters, the turn flag, the timer and the generator. *)
Definition keeps (s s' : State R) : Prop :=
  currentState s' = currentState s /\
  gameResult s' = gameResult s /\
  gridSize s' = gridSize s /\
  impulseCost s' = impulseCost s /\
  impulseModeActive s' = impulseModeActive s /\
  currentImpulseMode s' = currentImpulseMode s /\
  selectedGridSize s' = selectedGridSize s /\
  selectedCells s' = selectedCells s /\
  forall n, (covers (grid s) n -> covers (grid s') n) /\
            (square (grid s) n -> square (grid s') n).

(** What every reachable state satisfies: the storage allocated by
    [initializeGame] stays 10 x 10, the board is 7 or 10 wide, and a
    pending selection lies on the board and is short of its full size. *)
Definition Inv (s : State R) : Prop :=
  square (grid s) 10 /\
  (gridSize s = 7 \/ gridSize s = 10) /\
  Forall (fun p => inBounds (gridSize s) p.1 p.2 = true) (selectedCells s) /\
  (currentImpulseMode s = ImpulseMode.ATTACK ->
     (length (selectedCells s) < 2)%nat) /\
  (currentImpulseMode s = ImpulseMode.SPEED ->
     (length (selectedCells s) < 3)%nat).

End Vocabulary.

(** ** Vocabulary for the rest of the engine *)

(** The number of cells of the [n] x [n] board of [g] in state [c]. *)
Definition countGrid (g : Grid) (n : Z) (c : CellState.t) : Z :=
  Z.of_nat (length (List.filter
    (fun p => bool_decide (grid_get g p.1 p.2 = Some c)) (cells n))).

(** [1] when [a = b], else [0]. *)
Definition indicator {A} `{EqDecision A} (a b : A) : Z :=
  if decide (a = b) then 1 else 0.

(** No frame of such input carries both a click and an impulse key. *)
Definition separate (inp : Input) : Prop :=
  click inp = None \/ (keyA inp = false /\ keyS inp = false).

Section MoreVocabulary.
Context {R : Type} {RS : RandomSource R}.

(** The common shape of the four capture loops: write [to] into each
    listed cell, moving [playerCells] by [dp] and [aiCells] by [da] each
    time. *)
Fixpoint flipCells (to : CellState.t) (dp da : Z) (cs : list (Z * Z))
  (s : State R) : option (State R) :=
  match cs with
  | [] => Some s
  | (x, y) :: cs =>
      s ← writeCell x y to s;
      flipCells to dp da cs
        (set_playerCells (playerCells s + dp) (set_aiCells (aiCells s + da) s))
  end.

(** The two blocks of the PLAYING case of [handleInput], named: the one
    guarded by [playerTurn && !impulseModeActive] and the one guarded by
    [impulseModeActive]. *)
Definition ordinaryInput (inp : Input) (s : State R) : option (State R) :=
  if playerTurn s && negb (impulseModeActive s) then
    s ← match click inp with
        | Some (gridX, gridY) =>
            if inBounds (gridSize s) gridX gridY then
              c ← grid_get (grid s) gridX gridY;
              if decide (c = CellState.NEUTRAL) then
                valid ← isValidMove s gridX gridY CellState.PLAYER;
                if valid : bool then playerCapture gridX gridY s
                else Some s
              else Some s
            else Some s
        | None => Some s
        end;
    Some (if playerCharges s >=? impulseCost s then
            if keyA inp then startImpulseMode ImpulseMode.ATTACK s
            else if keyS inp then startImpulseMode ImpulseMode.SPEED s
            else s
          else s)
  else Some s.

Definition impulseInput (inp : Input) (s : State R) : option (State R) :=
  if impulseModeActive s then
    match click inp with
    | Some (gridX, gridY) =>
        if inBounds (gridSize s) gridX gridY
        then handleImpulseCellSelection gridX gridY s
        else Some s
    | None => Some s
    end
  else Some s.

(** The two counters agree with the board. *)
Definition counted (s : State R) : Prop :=
  playerCells s = countCells s CellState.PLAYER /\
  aiCells s = countCells s CellState.AI.

(** The pending selection has no repetition, and its cells still hold
    what the active mode selects: AI cells for an attack, Neutral cells
    for a speed impulse. *)
Definition selectionValid (s : State R) : Prop :=
  NoDup (selectedCells s) /\
  (currentImpulseMode s = ImpulseMode.ATTACK ->
     Forall (fun p => grid_get (grid s) p.1 p.2 = Some CellState.AI)
            (selectedCells s)) /\
  (currentImpulseMode s = ImpulseMode.SPEED ->
     Forall (fun p => grid_get (grid s) p.1 p.2 = Some CellState.NEUTRAL)
            (selectedCells s)).

(** The states reached when no frame carries both a click and an
    impulse key. *)
Inductive reachableSeparate : State R -> Prop :=
  | reachableSeparate_start r s :
      programStart r = Some s -> reachableSeparate s
  | reachableSeparate_frame inp s s' :
      reachableSeparate s -> separate inp -> frame inp s = Some s' ->
      reachableSeparate s'.

(** What holds along every run in which no frame carries both a click
    and an impulse key. *)
Definition Good (s : State R) : Prop :=
  Inv s /\ counted s /\ selectionValid s /\
  (impulseModeActive s = true -> playerTurn s = true) /\
  (impulseModeActive s = false -> selectedCells s = []).

(** The grid size the menu will start with after this frame's click, and
    whether this frame starts a session. *)
Definition menuChoice (inp : Input) (s : State R) : Z :=
  match menuClick inp with
  | Some Button7 => 0
  | Some Button10 => 1
  | Some Button12 => 2
  | _ => selectedGridSize s
  end.

Definition menuStarts (inp : Input) : bool :=
  bool_decide (menuClick inp = Some ButtonStart) || keySpace inp.

(** Charges and impulse bookkeeping of a state. *)
Definition Bookkeeping (s : State R) : Prop :=
  impulseCost s = IMPULSE_COST /\
  (selectedGridSize s = 0 \/ selectedGridSize s = 1 \/
   selectedGridSize s = 2) /\
  0 <= playerCharges s /\ 0 <= aiCharges s /\
  (impulseModeActive s = true ->
     impulseCost s <= playerCharges s /\
     currentImpulseMode s <> ImpulseMode.NONE) /\
  (impulseModeActive s = false ->
     currentImpulseMode s = ImpulseMode.NONE /\ selectedCells s = []) /\
  NoDup (selectedCells s).

(** [s'] belongs to the same session as [s]: screen, result, board size,
    impulse cost and menu selection are those of [s]. *)
Definition sameSession (s s' : State R) : Prop :=
  currentState s' = currentState s /\
  gameResult s' = gameResult s /\
  gridSize s' = gridSize s /\
  impulseCost s' = impulseCost s /\
  selectedGridSize s' = selectedGridSize s.

(** The number of targets an impulse needs, and what counts as a target
    for the active mode. *)
Definition impulseSize (mode : ImpulseMode.t) : Z :=
  match mode with
  | ImpulseMode.ATTACK => 2
  | ImpulseMode.SPEED => 3
  | ImpulseMode.NONE => 0
  end.

Definition impulseTarget (s : State R) (x y : Z) : Prop :=
  match currentImpulseMode s with
  | ImpulseMode.ATTACK => attackTarget s x y
  | ImpulseMode.SPEED => legalTarget s CellState.PLAYER x y
  | ImpulseMode.NONE => False
  end.

(** The player is selecting targets for an impulse, every selected cell
    is a target, and all targets lie in [ts], a list too short to
    complete the impulse. *)
Definition softLocked (ts : list (Z * Z)) (s : State R) : Prop :=
  covers (grid s) (gridSize s) /\
  currentState s = GameState.PLAYING /\
  gameResult s = GameResult.NONE /\
  playerTurn s = true /\
  impulseModeActive s = true /\
  NoDup (selectedCells s) /\
  Forall (fun p => impulseTarget s p.1 p.2) (selectedCells s) /\
  (forall x y, impulseTarget s x y -> (x, y) ∈ ts) /\
  Z.of_nat (length ts) < impulseSize (currentImpulseMode s).

(** The cell [(x, y)] of [g] belongs to one of the two sides. *)
Definition held (g : Grid) (x y : Z) : Prop :=
  grid_get g x y = Some CellState.PLAYER \/ grid_get g x y = Some CellState.AI.

(** Every cell held in [s] is still held, by either side, in [s']. *)
Definition noRelease (s s' : State R) : Prop :=
  forall x y, held (grid s) x y -> held (grid s') x y.

End MoreVocabulary.

(** * Properties *)

(** ** Vectors and grids *)

Lemma inBounds_spec n x y :
  inBounds n x y = true <-> (0 <= x < n /\ 0 <= y < n).
Proof. unfold inBounds. rewrite !andb_true_iff. lia. Qed.

Lemma inBounds_false n x y :
  inBounds n x y = false <-> ~ (0 <= x < n /\ 0 <= y < n).
Proof. rewrite <- inBounds_spec. by destruct (inBounds n x y). Qed.

Lemma vec_at_Some {A} (v : list A) (i : Z) (a : A) :
  vec_at v i = Some a <-> 0 <= i /\ v !! Z.to_nat i = Some a.
Proof.
  unfold vec_at. case_decide; [tauto |].
  split; [done | intros [? _]; lia].
Qed.

Lemma vec_at_is_Some {A} (v : list A) (i : Z) :
  is_Some (vec_at v i) <-> 0 <= i < Z.of_nat (length v).
Proof.
  unfold vec_at. case_decide.
  - rewrite lookup_lt_is_Some. lia.
  - split; [intros [? ?]; done | lia].
Qed.

Lemma vec_at_None {A} (v : list A) (i : Z) :
  vec_at v i = None <-> ~ (0 <= i < Z.of_nat (length v)).
Proof. rewrite <- vec_at_is_Some, eq_None_not_Some. done. Qed.

Lemma square_covers g n m : square g n -> m <= n -> covers g m.
Proof.
  intros [Hl Hr] Hm. split; [lia |].
  eapply Forall_impl; [exact Hr |]. simpl. lia.
Qed.

Lemma covers_le g n m : covers g n -> m <= n -> covers g m.
Proof.
  intros [Hl Hr] Hm. split; [lia |].
  eapply Forall_impl; [exact Hr |]. simpl. lia.
Qed.

Lemma grid_get_Some g x y c :
  grid_get g x y = Some c <->
  exists row, vec_at g x = Some row /\ vec_at row y = Some c.
Proof.
  unfold grid_get. destruct (vec_at g x) as [row|]; simpl.
  - split; [eauto | by intros (? & [= <-] & ?)].
  - split; [done | by intros (? & ? & ?)].
Qed.

Lemma grid_get_covers g n x y :
  covers g n -> inBounds n x y = true -> is_Some (grid_get g x y).
Proof.
  intros [Hl Hr] [Hx Hy]%inBounds_spec. unfold grid_get.
  destruct (vec_at g x) as [row|] eqn:E.
  - simpl. apply vec_at_is_Some.
    apply vec_at_Some in E as [_ E]. apply list_elem_of_lookup_2 in E.
    rewrite Forall_forall in Hr. specialize (Hr _ E). lia.
  - apply vec_at_None in E. lia.
Qed.

Lemma grid_set_is_Some g x y c :
  is_Some (grid_set g x y c) <-> is_Some (grid_get g x y).
Proof.
  unfold grid_set, grid_get. destruct (vec_at g x) as [row|]; simpl.
  - destruct (vec_at row y); simpl; split; intros [? ?]; done.
  - done.
Qed.

Lemma grid_set_covers g n x y c :
  covers g n -> inBounds n x y = true -> is_Some (grid_set g x y c).
Proof. intros. apply grid_set_is_Some. by eapply grid_get_covers. Qed.

Lemma grid_set_None g x y c :
  grid_get g x y = None -> grid_set g x y c = None.
Proof.
  intros H. apply eq_None_not_Some. rewrite grid_set_is_Some, H.
  intros [? ?]; done.
Qed.

Lemma vec_at_nonneg {A} (v : list A) (i : Z) :
  0 <= i -> vec_at v i = v !! Z.to_nat i.
Proof. intros. unfold vec_at. by rewrite decide_True. Qed.

Lemma vec_at_neg {A} (v : list A) (i : Z) : i < 0 -> vec_at v i = None.
Proof. intros. unfold vec_at. rewrite decide_False; [done | lia]. Qed.

Lemma grid_set_same g x y c g' :
  grid_set g x y c = Some g' -> grid_get g' x y = Some c.
Proof.
  unfold grid_set, grid_get.
  destruct (vec_at g x) as [row|] eqn:Ex; simpl; [|done].
  destruct (vec_at row y) as [c0|] eqn:Ey; simpl; [|done].
  intros [= <-].
  apply vec_at_Some in Ex as [Hx Ex]. apply vec_at_Some in Ey as [Hy Ey].
  apply lookup_lt_Some in Ex as Hlx. apply lookup_lt_Some in Ey as Hly.
  rewrite (vec_at_nonneg _ x) by done.
  rewrite list_lookup_insert_eq by done. simpl.
  rewrite vec_at_nonneg by done. by rewrite list_lookup_insert_eq.
Qed.

Lemma grid_set_other g x y c g' a b :
  grid_set g x y c = Some g' -> (a, b) <> (x, y) ->
  grid_get g' a b = grid_get g a b.
Proof.
  unfold grid_set, grid_get.
  destruct (vec_at g x) as [row|] eqn:Ex; simpl; [|done].
  destruct (vec_at row y) as [c0|] eqn:Ey; simpl; [|done].
  intros [= <-] Hne.
  apply vec_at_Some in Ex as [Hx Ex]. apply vec_at_Some in Ey as [Hy Ey].
  apply lookup_lt_Some in Ex as Hlx.
  destruct (decide (0 <= a)) as [Ha|Ha];
    [| rewrite !(vec_at_neg _ a) by lia; done].
  rewrite !(vec_at_nonneg _ a) by done.
  destruct (decide (a = x)) as [->|Hax].
  - rewrite list_lookup_insert_eq by done. rewrite Ex. simpl.
    destruct (decide (0 <= b)) as [Hb|Hb];
      [| rewrite !(vec_at_neg _ b) by lia; done].
    rewrite !(vec_at_nonneg _ b) by done.
    rewrite list_lookup_insert_ne; [done |].
    intros Heq. apply Hne. f_equal. lia.
  - rewrite list_lookup_insert_ne; [done | lia].
Qed.

Lemma grid_set_length g x y c g' :
  grid_set g x y c = Some g' ->
  length g' = length g /\
  forall P : nat -> Prop,
    Forall (fun row => P (length row)) g -> Forall (fun row => P (length row)) g'.
Proof.
  unfold grid_set.
  destruct (vec_at g x) as [row|] eqn:Ex; simpl; [|done].
  destruct (vec_at row y) as [c0|] eqn:Ey; simpl; [|done].
  intros [= <-]. split; [apply length_insert |].
  intros P HP. apply vec_at_Some in Ex as [Hx Ex].
  apply Forall_insert; [done |]. rewrite length_insert.
  rewrite Forall_forall in HP. apply HP. by eapply list_elem_of_lookup_2.
Qed.

Lemma grid_set_keeps_covers g x y c g' n :
  grid_set g x y c = Some g' -> covers g n -> covers g' n.
Proof.
  intros Hs [Hl Hr]. apply grid_set_length in Hs as [Hlen HP].
  split; [lia |]. by apply (HP (fun k => n <= Z.of_nat k)).
Qed.

Lemma grid_set_keeps_square g x y c g' n :
  grid_set g x y c = Some g' -> square g n -> square g' n.
Proof.
  intros Hs [Hl Hr]. apply grid_set_length in Hs as [Hlen HP].
  split; [lia |]. by apply (HP (fun k => Z.of_nat k = n)).
Qed.

(** ** Adjacency and the scan of the board *)

Lemma getAdjacentCells_spec n x y a b :
  (a, b) ∈ getAdjacentCells n x y <->
  adjacent4 x y a b /\ inBounds n a b = true.
Proof.
  unfold getAdjacentCells, adjacent4, offsets.
  rewrite list_elem_of_In, filter_In. simpl.
  split.
  - intros [Hin Hb]. split; [|done].
    destruct Hin as [H|[H|[H|[H|[]]]]]; inversion H; lia.
  - intros [Hadj Hb]. split; [|done].
    destruct Hadj as [[-> ->]|[[-> ->]|[[-> ->]|[-> ->]]]].
    + left. f_equal; lia.
    + right; left. f_equal; lia.
    + right; right; left. f_equal; lia.
    + right; right; right; left. f_equal; lia.
Qed.

Lemma getAdjacentCells_inBounds n x y :
  Forall (fun p => inBounds n p.1 p.2 = true) (getAdjacentCells n x y).
Proof.
  apply Forall_forall. intros [a b] H.
  by apply getAdjacentCells_spec in H as [_ H].
Qed.

Lemma anyOwned_spec g n owner adj :
  covers g n -> Forall (fun p => inBounds n p.1 p.2 = true) adj ->
  exists b, anyOwned g owner adj = Some b /\
    (b = true <-> exists p, p ∈ adj /\ grid_get g p.1 p.2 = Some owner).
Proof.
  intros Hc. induction 1 as [|[a b] adj Hab Hadj IH]; simpl.
  - exists false. split; [done |]. split; [done |].
    intros (p & Hp & _). by apply elem_of_nil in Hp.
  - destruct (grid_get_covers g n a b Hc Hab) as [c Hget]. rewrite Hget. simpl.
    case_decide as Hown.
    + exists true. split; [done |]. split; [|done]. intros _.
      exists (a, b). split; [left | by subst].
    + destruct IH as (r & -> & Hr). exists r. split; [done |].
      rewrite Hr. split.
      * intros (p & Hp & Hg). exists p. split; [by right | done].
      * intros (p & Hp & Hg). apply elem_of_cons in Hp as [->|Hp].
        -- simpl in Hg. congruence.
        -- eauto.
Qed.

Lemma anyOwned_adjacent g n x y owner :
  covers g n ->
  exists b, anyOwned g owner (getAdjacentCells n x y) = Some b /\
    (b = true <-> hasNeighbour g n x y owner).
Proof.
  intros Hc.
  destruct (anyOwned_spec g n owner _ Hc (getAdjacentCells_inBounds n x y))
    as (r & Hr & Hiff).
  exists r. split; [done |]. rewrite Hiff. unfold hasNeighbour. split.
  - intros ([a b] & Hin & Hg). apply getAdjacentCells_spec in Hin as [? ?].
    by exists a, b.
  - intros (a & b & Hadj & Hb & Hg). exists (a, b).
    split; [by apply getAdjacentCells_spec | done].
Qed.

Lemma borderCell_dec g n want owner x y :
  covers g n ->
  borderCell g n want owner x y \/ ~ borderCell g n want owner x y.
Proof.
  intros Hc. unfold borderCell.
  destruct (inBounds n x y) eqn:Hb; [| right; by intros (? & _)].
  destruct (decide (grid_get g x y = Some want)) as [Hg|Hg];
    [| right; by intros (_ & ? & _)].
  destruct (anyOwned_adjacent g n x y owner Hc) as ([] & _ & Hiff).
  - left. split; [done |]. split; [done |]. by apply Hiff.
  - right. intros (_ & _ & Hn). apply Hiff in Hn. done.
Qed.

Lemma cells_spec n x y : (x, y) ∈ cells n <-> inBounds n x y = true.
Proof.
  unfold cells. rewrite inBounds_spec, list_elem_of_bind. split.
  - intros (a & Hin & Ha). apply list_elem_of_bind in Hin as (b & Hin & Hb).
    apply list_elem_of_singleton in Hin as [= -> ->].
    apply elem_of_seqZ in Ha, Hb. lia.
  - intros [Hx Hy]. exists x. split; [| apply elem_of_seqZ; lia].
    apply list_elem_of_bind. exists y.
    split; [by apply list_elem_of_singleton | apply elem_of_seqZ; lia].
Qed.

Lemma cells_inBounds n : Forall (fun p => inBounds n p.1 p.2 = true) (cells n).
Proof. apply Forall_forall. intros [x y] H. by apply cells_spec. Qed.

Lemma cells_NoDup n : NoDup (cells n).
Proof.
  unfold cells. apply NoDup_bind; [| | apply NoDup_seqZ].
  - intros x1 x2 p _ _ H1 H2.
    apply list_elem_of_bind in H1 as (y1 & H1 & _).
    apply list_elem_of_bind in H2 as (y2 & H2 & _).
    apply list_elem_of_singleton in H1, H2. congruence.
  - intros x _. apply NoDup_bind; [| | apply NoDup_seqZ].
    + intros y1 y2 p _ _ H1 H2.
      apply list_elem_of_singleton in H1, H2. congruence.
    + intros y _. apply NoDup_singleton.
Qed.

Lemma scanCells_spec g n want owner cs :
  covers g n -> Forall (fun p => inBounds n p.1 p.2 = true) cs ->
  exists l, scanCells g n want owner cs = Some l /\
    (forall x y, (x, y) ∈ l <->
       (x, y) ∈ cs /\ grid_get g x y = Some want /\ hasNeighbour g n x y owner) /\
    (NoDup cs -> NoDup l).
Proof.
  intros Hc. induction 1 as [|[a b] cs Hab Hcs IH]; simpl.
  - exists []. split; [done |]. split; [| done].
    intros x y. split; [intros H; by apply elem_of_nil in H |].
    intros [H _]. by apply elem_of_nil in H.
  - destruct (grid_get_covers g n a b Hc Hab) as [c Hget]. rewrite Hget. simpl.
    destruct IH as (l & -> & Hl & Hnd). simpl.
    destruct (anyOwned_adjacent g n a b owner Hc) as (r & Hr & Hiff).
    case_decide as Hw.
    + rewrite Hr. simpl. eexists. split; [done |]. split.
      * intros x y. destruct r.
        -- rewrite !elem_of_cons, Hl. split.
           ++ intros [[= -> ->]|(? & ? & ?)]; [| by auto].
              split; [by left |]. split; [by subst | by apply Hiff].
           ++ intros ([[= -> ->]|?] & ? & ?); [by left | by right].
        -- rewrite elem_of_cons, Hl. split; [by intros (? & ? & ?); auto |].
           intros ([[= -> ->]|?] & ? & Hn); [| done].
           apply Hiff in Hn. done.
      * intros [Hnin Hnd']%NoDup_cons. destruct r; [| by auto].
        apply NoDup_cons. split; [| by auto]. rewrite Hl. by intros [? _].
    + simpl. exists l. split; [done |]. split; [| by intros [_ ?]%NoDup_cons; auto].
      intros x y. rewrite elem_of_cons, Hl.
      split; [by intros (? & ? & ?); auto |].
      intros ([[= -> ->]|?] & Hg & ?); [| done]. congruence.
Qed.

(** ** The engine *)

(** Unfolds the field updates of a state down to its constructor. *)
Ltac unfold_state :=
  cbv [impulseDone finishImpulseMode startImpulseMode
       set_currentState set_gameResult set_gridSize set_playerTurn
       set_impulseModeActive set_currentImpulseMode set_selectedGridSize
       set_grid set_playerCells set_aiCells set_playerCharges set_aiCharges
       set_aiTimer set_rng set_selectedCells
       currentState gameResult gridSize impulseCost playerTurn
       impulseModeActive currentImpulseMode selectedGridSize grid playerCells
       aiCells playerCharges aiCharges aiTimer rng selectedCells].

Section Theory.
Context {R : Type} {RS : RandomSource R}.
Implicit Types (s : State R) (inp : Input).

Lemma isValidMove_spec s x y owner :
  covers (grid s) (gridSize s) ->
  exists b, isValidMove s x y owner = Some b /\
    (b = true <-> legalTarget s owner x y).
Proof.
  intros Hc. unfold isValidMove, legalTarget, borderCell.
  destruct (inBounds (gridSize s) x y) eqn:Hb.
  - pose proof Hb as Hb'. apply inBounds_spec in Hb'.
    replace ((x <? 0) || (x >=? gridSize s) || (y <? 0) || (y >=? gridSize s))
      with false by (symmetry; rewrite !orb_false_iff; lia).
    destruct (grid_get_covers _ _ x y Hc Hb) as [c Hget]. rewrite Hget. simpl.
    case_decide as Hn.
    + exists false. split; [done |]. split; [done |].
      intros (_ & [= ->] & _). done.
    + subst c.
      destruct (anyOwned_adjacent (grid s) (gridSize s) x y owner Hc)
        as (r & -> & Hr).
      exists r. split; [done |]. rewrite Hr. tauto.
  - pose proof Hb as Hb'. apply inBounds_false in Hb'.
    replace ((x <? 0) || (x >=? gridSize s) || (y <? 0) || (y >=? gridSize s))
      with true by (symmetry; rewrite !orb_true_iff; lia).
    exists false. split; [done |]. split; [done |]. intros (? & _). done.
Qed.

(** C2.  A left click at grid coordinates [(x, y)] in the player's turn,
    outside impulse mode and with no impulse key down in the same frame:
    when [(x, y)] is a legal target for the player (on the board, Neutral,
    with a 4-neighbour held by the player) the cell becomes PLAYER,
    [playerCells] and [playerCharges] grow by one and the turn passes to
    the AI, every other field staying as it was; otherwise the state is
    unchanged, the turn included.  The two results differ, so the capture
    happens exactly when the target is legal. *)
Theorem player_click_capture s inp x y :
  covers (grid s) (gridSize s) ->
  currentState s = GameState.PLAYING ->
  playerTurn s = true ->
  impulseModeActive s = false ->
  click inp = Some (x, y) ->
  keyA inp = false -> keyS inp = false ->
  (legalTarget s CellState.PLAYER x y ->
     exists g',
       grid_set (grid s) x y CellState.PLAYER = Some g' /\
       grid_get g' x y = Some CellState.PLAYER /\
       (forall a b, (a, b) <> (x, y) -> grid_get g' a b = grid_get (grid s) a b) /\
       handleInput inp s =
         Some (mkState GameState.PLAYING (gameResult s) (gridSize s)
                 (impulseCost s) false false (currentImpulseMode s)
                 (selectedGridSize s) g' (playerCells s + 1) (aiCells s)
                 (playerCharges s + 1) (aiCharges s) Float32.zero (rng s)
                 (selectedCells s))) /\
  (~ legalTarget s CellState.PLAYER x y -> handleInput inp s = Some s).
Proof.
  intros Hc Hst Hturn Hact Hclick HA HS.
  destruct (isValidMove_spec s x y CellState.PLAYER Hc) as (v & Hv & Hiff).
  unfold handleInput. rewrite Hst, Hturn, Hact, Hclick. simpl.
  split.
  - intros Hlegal. pose proof Hlegal as (Hb & Hget & _).
    rewrite Hb, Hget. simpl.
    apply Hiff in Hlegal. subst v. rewrite Hv. simpl.
    destruct (grid_set_covers _ _ x y CellState.PLAYER Hc Hb) as [g' Hset].
    exists g'. split; [done |]. split; [by eapply grid_set_same |].
    split; [intros; by eapply grid_set_other |].
    unfold playerCapture, writeCell. rewrite Hset. simpl.
    rewrite HA, HS. destruct s; simpl in *; subst.
    by destruct (_ >=? _).
  - intros Hill.
    assert (Hsame :
      match (if inBounds (gridSize s) x y
             then c ← grid_get (grid s) x y;
                  if decide (c = CellState.NEUTRAL)
                  then valid ← isValidMove s x y CellState.PLAYER;
                       if valid : bool then playerCapture x y s else Some s
                  else Some s
             else Some s) with Some s1 => s1 = s | None => False end).
    { destruct (inBounds (gridSize s) x y) eqn:Hb; [|done].
      destruct (grid_get_covers _ _ x y Hc Hb) as [c Hget]. rewrite Hget. simpl.
      case_decide; [|done]. rewrite Hv. simpl.
      destruct v; [|done]. exfalso. apply Hill. by apply Hiff. }
    destruct (if inBounds (gridSize s) x y then _ else _) as [s1|]; [|done].
    subst s1. simpl. rewrite HA, HS.
    destruct (_ >=? _); simpl; by rewrite Hact.
Qed.

(** ** What the AI's turn leaves alone *)

Lemma keeps_refl s : keeps s s.
Proof. unfold keeps. repeat (split; [done |]). by intros. Qed.

Lemma keeps_trans s1 s2 s3 : keeps s1 s2 -> keeps s2 s3 -> keeps s1 s3.
Proof.
  unfold keeps. intros (?&?&?&?&?&?&?&?&H12) (?&?&?&?&?&?&?&?&H23).
  repeat (split; [congruence |]).
  intros n. split; intros; by apply H23, H12.
Qed.

Ltac keeps_field :=
  unfold keeps; simpl; repeat (split; [done |]); by intros.

Lemma keeps_set_playerCells v s : keeps s (set_playerCells v s).
Proof. keeps_field. Qed.
Lemma keeps_set_aiCells v s : keeps s (set_aiCells v s).
Proof. keeps_field. Qed.
Lemma keeps_set_playerCharges v s : keeps s (set_playerCharges v s).
Proof. keeps_field. Qed.
Lemma keeps_set_aiCharges v s : keeps s (set_aiCharges v s).
Proof. keeps_field. Qed.
Lemma keeps_set_aiTimer v s : keeps s (set_aiTimer v s).
Proof. keeps_field. Qed.
Lemma keeps_set_playerTurn v s : keeps s (set_playerTurn v s).
Proof. keeps_field. Qed.
Lemma keeps_set_rng v s : keeps s (set_rng v s).
Proof. keeps_field. Qed.

Lemma writeCell_Some x y c s s' :
  writeCell x y c s = Some s' <->
  exists g', grid_set (grid s) x y c = Some g' /\ s' = set_grid g' s.
Proof.
  unfold writeCell. destruct (grid_set (grid s) x y c) as [g'|]; simpl.
  - split; [intros [= <-]; eauto | by intros (? & [= <-] & ->)].
  - split; [done | by intros (? & ? & _)].
Qed.

Lemma keeps_writeCell x y c s s' : writeCell x y c s = Some s' -> keeps s s'.
Proof.
  intros (g' & Hset & ->)%writeCell_Some. unfold keeps. simpl.
  repeat (split; [done |]). intros n. split; intros.
  - by eapply grid_set_keeps_covers.
  - by eapply grid_set_keeps_square.
Qed.

Lemma writeCell_covers x y c s n :
  covers (grid s) n -> inBounds n x y = true ->
  exists g', grid_set (grid s) x y c = Some g' /\
             writeCell x y c s = Some (set_grid g' s).
Proof.
  intros Hc Hb. destruct (grid_set_covers _ _ x y c Hc Hb) as [g' Hg].
  exists g'. split; [done |]. unfold writeCell. by rewrite Hg.
Qed.

Lemma keeps_attackFlip cs s s' : attackFlip cs s = Some s' -> keeps s s'.
Proof.
  revert s. induction cs as [|[x y] cs IH]; simpl; intros s H.
  - injection H as <-. apply keeps_refl.
  - apply bind_Some in H as (s1 & Hw & H).
    eapply keeps_trans; [by eapply keeps_writeCell |].
    eapply keeps_trans; [| by apply IH].
    eapply keeps_trans; [apply keeps_set_aiCells | apply keeps_set_playerCells].
Qed.

Lemma keeps_speedFlip cs s s' : speedFlip cs s = Some s' -> keeps s s'.
Proof.
  revert s. induction cs as [|[x y] cs IH]; simpl; intros s H.
  - injection H as <-. apply keeps_refl.
  - apply bind_Some in H as (s1 & Hw & H).
    eapply keeps_trans; [by eapply keeps_writeCell |].
    eapply keeps_trans; [| by apply IH]. apply keeps_set_playerCells.
Qed.

Lemma keeps_aiAttackFlip cs s s' : aiAttackFlip cs s = Some s' -> keeps s s'.
Proof.
  revert s. induction cs as [|[x y] cs IH]; simpl; intros s H.
  - injection H as <-. apply keeps_refl.
  - case_decide; [| by apply IH].
    apply bind_Some in H as (s1 & Hw & H).
    eapply keeps_trans; [by eapply keeps_writeCell |].
    eapply keeps_trans; [| by apply IH].
    eapply keeps_trans; [apply keeps_set_playerCells | apply keeps_set_aiCells].
Qed.

Lemma keeps_aiSpeedFlip cs s s' : aiSpeedFlip cs s = Some s' -> keeps s s'.
Proof.
  revert s. induction cs as [|[x y] cs IH]; simpl; intros s H.
  - injection H as <-. apply keeps_refl.
  - case_decide; [| by apply IH].
    apply bind_Some in H as (s1 & Hw & H).
    eapply keeps_trans; [by eapply keeps_writeCell |].
    eapply keeps_trans; [| by apply IH]. apply keeps_set_aiCells.
Qed.

Lemma keeps_payImpulse cs s : keeps s (payImpulse cs s).
Proof. destruct cs; [apply keeps_refl | apply keeps_set_aiCharges]. Qed.

Lemma decideAIImpulseMode_rng s :
  decideAIImpulseMode s =
    (if (coin (rng s)).1 then ImpulseMode.ATTACK else ImpulseMode.SPEED,
     set_rng (coin (rng s)).2 s).
Proof. unfold decideAIImpulseMode. by destruct (coin (rng s)). Qed.

Lemma aiWants_rng mode s :
  exists r, (aiWants mode s).2 = set_rng r s.
Proof.
  unfold aiWants. destruct (_ >=? _).
  - rewrite decideAIImpulseMode_rng. simpl. eauto.
  - exists (rng s). by destruct s.
Qed.

Lemma keeps_aiWants mode s : keeps s (aiWants mode s).2.
Proof. destruct (aiWants_rng mode s) as [r ->]. apply keeps_set_rng. Qed.

Lemma getAIMove_rng s m s' :
  getAIMove s = Some (m, s') -> exists r, s' = set_rng r s.
Proof.
  unfold getAIMove. intros H. apply bind_Some in H as (l & _ & H).
  destruct l as [|p l].
  - injection H as <- <-. exists (rng s). by destruct s.
  - destruct (uniform_int _ _ _) as [k r].
    apply bind_Some in H as (m' & _ & [= <- <-]). eauto.
Qed.

Lemma keeps_aiOrdinaryMove s s' : aiOrdinaryMove s = Some s' -> keeps s s'.
Proof.
  unfold aiOrdinaryMove. intros H.
  apply bind_Some in H as ([m s1] & Hm & H).
  apply getAIMove_rng in Hm as [r ->].
  eapply keeps_trans; [apply keeps_set_rng |].
  case_decide; [| injection H as <-; apply keeps_refl].
  apply bind_Some in H as (s2 & Hw & [= <-]).
  eapply keeps_trans; [by eapply keeps_writeCell |].
  eapply keeps_trans; [apply keeps_set_aiCells | apply keeps_set_aiCharges].
Qed.

Lemma getAIAttackMove_rng s cs s' :
  getAIAttackMove s = Some (cs, s') -> exists r, s' = set_rng r s.
Proof.
  unfold getAIAttackMove. intros H. apply bind_Some in H as (l & _ & H).
  destruct l as [|p l].
  - injection H as <- <-. exists (rng s). by destruct s.
  - destruct (shuffle _ _) as [l' r]. injection H as <- <-. eauto.
Qed.

Lemma getAISpeedMove_rng s cs s' :
  getAISpeedMove s = Some (cs, s') -> exists r, s' = set_rng r s.
Proof.
  unfold getAISpeedMove. intros H. apply bind_Some in H as (l & _ & H).
  destruct l as [|p l].
  - injection H as <- <-. exists (rng s). by destruct s.
  - destruct (shuffle _ _) as [l' r]. injection H as <- <-. eauto.
Qed.

(** When the delay has elapsed, the AI's turn is some move that keeps
    the session fields, then the turn flag, then the win check. *)
Lemma processAITurn_fired dt s s' :
  processAITurn dt s = Some s' ->
  (aiTimer s + dt >=? AI_DELAY)%f32 = true ->
  exists s1, keeps s s1 /\ s' = checkWinCondition (set_playerTurn true s1).
Proof.
  unfold processAITurn. simpl. intros H Hfire. rewrite Hfire in H.
  apply bind_Some in H as (s1 & H & [= <-]). exists s1. split; [|done].
  eapply keeps_trans; [apply (keeps_set_aiTimer (aiTimer s + dt)%f32) |].
  set (s0 := set_aiTimer _ s) in *. clearbody s0.
  pose proof (keeps_aiWants ImpulseMode.ATTACK s0) as K1.
  destruct (aiWants ImpulseMode.ATTACK s0) as [[] sA]; simpl in K1.
  - apply bind_Some in H as ([cs s2] & Hm & H).
    apply bind_Some in H as (s3 & Hf & [= <-]).
    apply getAIAttackMove_rng in Hm as [r ->].
    eapply keeps_trans; [exact K1 |].
    eapply keeps_trans; [apply keeps_set_rng |].
    eapply keeps_trans; [by eapply keeps_aiAttackFlip | apply keeps_payImpulse].
  - pose proof (keeps_aiWants ImpulseMode.SPEED sA) as K2.
    destruct (aiWants ImpulseMode.SPEED sA) as [[] sS]; simpl in K2.
    + apply bind_Some in H as ([cs s2] & Hm & H).
      apply bind_Some in H as (s3 & Hf & [= <-]).
      apply getAISpeedMove_rng in Hm as [r ->].
      eapply keeps_trans; [exact K1 |]. eapply keeps_trans; [exact K2 |].
      eapply keeps_trans; [apply keeps_set_rng |].
      eapply keeps_trans; [by eapply keeps_aiSpeedFlip | apply keeps_payImpulse].
    + eapply keeps_trans; [exact K1 |]. eapply keeps_trans; [exact K2 |].
      by apply keeps_aiOrdinaryMove.
Qed.

(** ** The win check *)

Lemma targetCells_ceiling n :
  100 * (targetCells n - 1) < n * n * WIN_PERCENTAGE <= 100 * targetCells n.
Proof.
  unfold targetCells, WIN_PERCENTAGE.
  assert (0 <= n * n) by nia.
  rewrite Z.quot_div_nonneg by lia.
  pose proof (Z.div_mod (n * n * 45 + 99) 100 ltac:(lia)).
  pose proof (Z.mod_pos_bound (n * n * 45 + 99) 100 ltac:(lia)). lia.
Qed.

(** ** The AI's ordinary move *)

Lemma getAvailableMoves_spec s owner :
  covers (grid s) (gridSize s) ->
  exists moves, getAvailableMoves s owner = Some moves /\ NoDup moves /\
    forall x y, (x, y) ∈ moves <-> legalTarget s owner x y.
Proof.
  intros Hc. unfold getAvailableMoves.
  destruct (scanCells_spec (grid s) (gridSize s) CellState.NEUTRAL owner
              (cells (gridSize s)) Hc (cells_inBounds _)) as (l & Hl & Hin & Hnd).
  exists l. split; [done |]. split; [apply Hnd, cells_NoDup |].
  intros x y. rewrite Hin, cells_spec. done.
Qed.

(** The win check writes [gameResult] only. *)
Lemma checkWinCondition_fields s :
  exists res, checkWinCondition s = set_gameResult res s.
Proof.
  unfold checkWinCondition.
  destruct (_ && _); [eauto |]. destruct (_ >=? _); [eauto |].
  destruct (_ >=? _); [eauto |]. exists (gameResult s). by destruct s.
Qed.


(** C9.  [processAITurn] calls [decideAIImpulseMode] once in the Attack
    check and, when that fails, once more in the Speed check.  With enough
    charges for an impulse, a first flip showing SPEED and a second one
    showing ATTACK make both checks fail: the turn continues, from the
    state [s2] reached after the two flips, with the ordinary move. *)
Theorem ai_coin_flipped_twice s dt s1 s2 :
  (aiTimer s + dt >=? AI_DELAY)%f32 = true ->
  aiCharges s >= impulseCost s ->
  decideAIImpulseMode (set_aiTimer (aiTimer s + dt)%f32 s)
    = (ImpulseMode.SPEED, s1) ->
  decideAIImpulseMode s1 = (ImpulseMode.ATTACK, s2) ->
  rng s2 = (coin (coin (rng s)).2).2 /\
  processAITurn dt s =
    s' ← aiOrdinaryMove s2; Some (checkWinCondition (set_playerTurn true s')).
Proof.
  intros Hfire Hch H1 H2.
  pose proof H1 as H1'. pose proof H2 as H2'.
  rewrite decideAIImpulseMode_rng in H1', H2'.
  injection H1' as _ Hs1. injection H2' as _ Hs2.
  split; [subst s2 s1; done |].
  unfold processAITurn. simpl. rewrite Hfire.
  unfold aiWants at 1. simpl.
  replace (aiCharges s >=? impulseCost s) with true
    by (symmetry; apply Z.geb_le; lia).
  rewrite H1. simpl.
  unfold aiWants at 1.
  replace (aiCharges s1 >=? impulseCost s1) with true
    by (symmetry; subst s1; simpl; apply Z.geb_le; lia).
  rewrite H2. simpl. done.
Qed.

(** ** The player's impulses *)

Lemma alreadySelected_spec x y sel :
  alreadySelected x y sel = true <-> (x, y) ∈ sel.
Proof.
  unfold alreadySelected. rewrite existsb_exists. split.
  - intros ([a b] & Hin & Heq). simpl in Heq.
    apply andb_true_iff in Heq as [->%Z.eqb_eq ->%Z.eqb_eq].
    by apply list_elem_of_In.
  - intros Hin. exists (x, y). split; [by apply list_elem_of_In |].
    simpl. by rewrite !Z.eqb_refl.
Qed.

Lemma alreadySelected_false x y sel :
  alreadySelected x y sel = false <-> (x, y) ∉ sel.
Proof.
  rewrite <- alreadySelected_spec. by destruct (alreadySelected x y sel).
Qed.

Lemma selectTarget_new limit x y s :
  (x, y) ∉ selectedCells s ->
  Z.of_nat (length (selectedCells s)) < limit ->
  selectTarget limit x y s = set_selectedCells (selectedCells s ++ [(x, y)]) s.
Proof.
  intros Hnin Hlen. unfold selectTarget.
  apply alreadySelected_false in Hnin. rewrite Hnin. simpl.
  by replace (_ <? _) with true by (symmetry; apply Z.ltb_lt; lia).
Qed.

Lemma selectTarget_dup limit x y s :
  (x, y) ∈ selectedCells s -> selectTarget limit x y s = s.
Proof.
  intros Hin. unfold selectTarget.
  apply alreadySelected_spec in Hin. by rewrite Hin.
Qed.

(** With impulse mode on, a frame of input is the selection of the
    clicked cell, when it is on the board. *)
Lemma handleInput_impulse s inp x y :
  currentState s = GameState.PLAYING ->
  impulseModeActive s = true ->
  click inp = Some (x, y) ->
  handleInput inp s =
    if inBounds (gridSize s) x y then handleImpulseCellSelection x y s
    else Some s.
Proof.
  intros Hst Hact Hclick. unfold handleInput.
  rewrite Hst, Hact, Hclick, andb_false_r. simpl. by rewrite Hact.
Qed.

Lemma select_attack_invalid s x y :
  covers (grid s) (gridSize s) ->
  currentImpulseMode s = ImpulseMode.ATTACK ->
  inBounds (gridSize s) x y = true ->
  ~ attackTarget s x y ->
  handleImpulseCellSelection x y s = Some s.
Proof.
  intros Hc Hmode Hb Hinv. unfold handleImpulseCellSelection. rewrite Hmode.
  destruct (grid_get_covers _ _ x y Hc Hb) as [c Hget]. rewrite Hget. simpl.
  case_decide as Hai; [| done]. subst c.
  destruct (anyOwned_adjacent (grid s) (gridSize s) x y CellState.PLAYER Hc)
    as (b & -> & Hiff).
  simpl. destruct b; [| done].
  exfalso. apply Hinv. split; [done |]. split; [done |]. by apply Hiff.
Qed.

Lemma select_attack_valid s x y :
  covers (grid s) (gridSize s) ->
  currentImpulseMode s = ImpulseMode.ATTACK ->
  attackTarget s x y ->
  handleImpulseCellSelection x y s =
    let s1 := selectTarget 2 x y s in
    if Z.of_nat (length (selectedCells s1)) >=? 2
    then s2 ← attackFlip (selectedCells s1) s1; Some (impulseDone s2)
    else Some s1.
Proof.
  intros Hc Hmode (Hb & Hget & Hn). unfold handleImpulseCellSelection.
  rewrite Hmode, Hget. simpl.
  destruct (anyOwned_adjacent (grid s) (gridSize s) x y CellState.PLAYER Hc)
    as (b & -> & Hiff).
  apply Hiff in Hn. subst b. done.
Qed.

Lemma select_speed_invalid s x y :
  covers (grid s) (gridSize s) ->
  currentImpulseMode s = ImpulseMode.SPEED ->
  inBounds (gridSize s) x y = true ->
  ~ legalTarget s CellState.PLAYER x y ->
  handleImpulseCellSelection x y s = Some s.
Proof.
  intros Hc Hmode Hb Hinv. unfold handleImpulseCellSelection. rewrite Hmode.
  destruct (grid_get_covers _ _ x y Hc Hb) as [c Hget]. rewrite Hget. simpl.
  case_decide as Hne; [| done]. subst c.
  destruct (isValidMove_spec s x y CellState.PLAYER Hc) as (b & -> & Hiff).
  simpl. destruct b; [| done]. exfalso. by apply Hinv, Hiff.
Qed.

Lemma select_speed_valid s x y :
  covers (grid s) (gridSize s) ->
  currentImpulseMode s = ImpulseMode.SPEED ->
  legalTarget s CellState.PLAYER x y ->
  handleImpulseCellSelection x y s =
    let s1 := selectTarget 3 x y s in
    if Z.of_nat (length (selectedCells s1)) >=? 3
    then s2 ← speedFlip (selectedCells s1) s1; Some (impulseDone s2)
    else Some s1.
Proof.
  intros Hc Hmode Hleg. pose proof Hleg as (Hb & Hget & Hn).
  unfold handleImpulseCellSelection. rewrite Hmode, Hget. simpl.
  destruct (isValidMove_spec s x y CellState.PLAYER Hc) as (b & -> & Hiff).
  apply Hiff in Hleg. subst b. done.
Qed.




(** C7.  Invalid input changes nothing: neither the grid, the counts, the
    charges, the turn flag nor the impulse state.  This covers an impulse
    key with fewer than [impulseCost] charges, a click on a cell that is
    not a legal capture, a click in impulse mode on a cell that is not a
    target of the active mode, and a click on a target that is already in
    the pending selection. *)
Theorem invalid_input_ignored s inp :
  covers (grid s) (gridSize s) ->
  (impulseModeActive s = false -> click inp = None ->
   playerCharges s < impulseCost s ->
     handleInput inp s = Some s) /\
  (impulseModeActive s = false ->
   forall x y, click inp = Some (x, y) ->
     ~ legalTarget s CellState.PLAYER x y ->
     (keyA inp = false /\ keyS inp = false) \/ playerCharges s < impulseCost s ->
     handleInput inp s = Some s) /\
  (impulseModeActive s = true ->
   forall x y, click inp = Some (x, y) ->
     (currentImpulseMode s = ImpulseMode.ATTACK ->
      ~ attackTarget s x y \/
      ((x, y) ∈ selectedCells s /\ (length (selectedCells s) < 2)%nat) ->
        handleInput inp s = Some s) /\
     (currentImpulseMode s = ImpulseMode.SPEED ->
      ~ legalTarget s CellState.PLAYER x y \/
      ((x, y) ∈ selectedCells s /\ (length (selectedCells s) < 3)%nat) ->
        handleInput inp s = Some s)).
Proof.
  intros Hc.
  destruct (decide (currentState s = GameState.PLAYING)) as [Hst|Hst].
  2:{ assert (Hid : handleInput inp s = Some s).
      { unfold handleInput. by destruct (currentState s). }
      repeat split; intros; exact Hid. }
  refine (conj _ (conj _ _)).
  - intros Hact Hclick Hch. unfold handleInput.
    rewrite Hst, Hact, Hclick.
    destruct (playerTurn s); simpl; [| by rewrite Hact].
    destruct (Z.geb_spec (playerCharges s) (impulseCost s)); [lia |].
    by rewrite Hact.
  - intros Hact x y Hclick Hill Hkeys. unfold handleInput.
    rewrite Hst, Hact, Hclick.
    destruct (playerTurn s); simpl; [| by rewrite Hact].
    destruct (isValidMove_spec s x y CellState.PLAYER Hc) as (v & Hv & Hiff).
    assert (Hsame :
      (if inBounds (gridSize s) x y
       then c ← grid_get (grid s) x y;
            if decide (c = CellState.NEUTRAL)
            then valid ← isValidMove s x y CellState.PLAYER;
                 if valid : bool then playerCapture x y s else Some s
            else Some s
       else Some s) = Some s).
    { destruct (inBounds (gridSize s) x y) eqn:Hb; [|done].
      destruct (grid_get_covers _ _ x y Hc Hb) as [c Hget]. rewrite Hget. simpl.
      case_decide; [|done]. rewrite Hv. simpl.
      destruct v; [|done]. exfalso. apply Hill. by apply Hiff. }
    rewrite Hsame. simpl.
    destruct Hkeys as [[-> ->]|Hch].
    + destruct (_ >=? _); simpl; by rewrite Hact.
    + destruct (Z.geb_spec (playerCharges s) (impulseCost s)); [lia |].
      by rewrite Hact.
  - intros Hact x y Hclick.
    rewrite (handleInput_impulse s inp x y Hst Hact Hclick).
    destruct (inBounds (gridSize s) x y) eqn:Hb; [| done].
    split; intros Hmode Hbad.
    + destruct (borderCell_dec (grid s) (gridSize s) CellState.AI
                  CellState.PLAYER x y Hc) as [Htgt|Htgt];
        [| by apply select_attack_invalid].
      destruct Hbad as [Hbad|[Hin Hlen]]; [done |].
      rewrite (select_attack_valid s x y Hc Hmode Htgt). simpl.
      rewrite (selectTarget_dup _ _ _ _ Hin).
      destruct (Z.geb_spec (Z.of_nat (length (selectedCells s))) 2);
        [lia | done].
    + destruct (borderCell_dec (grid s) (gridSize s) CellState.NEUTRAL
                  CellState.PLAYER x y Hc) as [Htgt|Htgt];
        [| by apply select_speed_invalid].
      destruct Hbad as [Hbad|[Hin Hlen]]; [done |].
      rewrite (select_speed_valid s x y Hc Hmode Htgt). simpl.
      rewrite (selectTarget_dup _ _ _ _ Hin).
      destruct (Z.geb_spec (Z.of_nat (length (selectedCells s))) 3);
        [lia | done].
Qed.

(** ** Reachable states *)

Lemma Inv_covers s : Inv s -> covers (grid s) (gridSize s).
Proof.
  intros (Hsq & Hn & _). eapply square_covers; [exact Hsq |].
  destruct Hn as [-> | ->]; lia.
Qed.

Lemma Inv_keeps s s' : Inv s -> keeps s s' -> Inv s'.
Proof.
  intros (Hsq & Hn & Hsel & Ha & Hs) (_ & _ & En & _ & _ & Em & _ & Es & Hg).
  unfold Inv. rewrite En, Em, Es.
  split; [by apply Hg |]. done.
Qed.

Lemma Inv_selectTarget limit x y s :
  Inv s -> inBounds (gridSize s) x y = true ->
  square (grid (selectTarget limit x y s)) 10 /\
  (gridSize (selectTarget limit x y s) = 7 \/
   gridSize (selectTarget limit x y s) = 10) /\
  Forall (fun p => inBounds (gridSize (selectTarget limit x y s)) p.1 p.2 = true)
         (selectedCells (selectTarget limit x y s)) /\
  currentImpulseMode (selectTarget limit x y s) = currentImpulseMode s.
Proof.
  intros (Hsq & Hn & Hsel & _) Hb. unfold selectTarget.
  destruct (_ && _); simpl; [| done].
  split; [done |]. split; [done |]. split; [| done].
  apply Forall_app. split; [done |]. by apply Forall_singleton.
Qed.

Lemma Inv_impulseDone s :
  square (grid s) 10 -> (gridSize s = 7 \/ gridSize s = 10) ->
  Inv (impulseDone s).
Proof.
  intros Hsq Hn. unfold Inv. simpl.
  split; [done |]. split; [done |]. split; [apply Forall_nil_2 |].
  split; intros; done.
Qed.

Lemma Inv_select x y s s' :
  Inv s -> inBounds (gridSize s) x y = true ->
  handleImpulseCellSelection x y s = Some s' -> Inv s'.
Proof.
  intros HI Hb H. unfold handleImpulseCellSelection in H.
  destruct (currentImpulseMode s) eqn:Hmode.
  - by injection H as <-.
  - apply bind_Some in H as (c & _ & H).
    case_decide; [| by injection H as <-].
    apply bind_Some in H as (found & _ & H).
    destruct found; [| by injection H as <-].
    destruct (Inv_selectTarget 2 x y s HI Hb) as (Hsq & Hn & Hsel & Hm).
    set (s1 := selectTarget 2 x y s) in *.
    destruct (Z.geb_spec (Z.of_nat (length (selectedCells s1))) 2).
    + apply bind_Some in H as (s2 & Hflip & [= <-]).
      apply keeps_attackFlip in Hflip as (_ & _ & En & _ & _ & _ & _ & _ & Hg).
      apply Inv_impulseDone; [by apply Hg | by rewrite En].
    + injection H as <-. unfold Inv. rewrite Hm, Hmode.
      split; [done |]. split; [done |]. split; [done |].
      split; [intros _; lia | done].
  - apply bind_Some in H as (c & _ & H).
    case_decide; [| by injection H as <-].
    apply bind_Some in H as (valid & _ & H).
    destruct valid; [| by injection H as <-].
    destruct (Inv_selectTarget 3 x y s HI Hb) as (Hsq & Hn & Hsel & Hm).
    set (s1 := selectTarget 3 x y s) in *.
    destruct (Z.geb_spec (Z.of_nat (length (selectedCells s1))) 3).
    + apply bind_Some in H as (s2 & Hflip & [= <-]).
      apply keeps_speedFlip in Hflip as (_ & _ & En & _ & _ & _ & _ & _ & Hg).
      apply Inv_impulseDone; [by apply Hg | by rewrite En].
    + injection H as <-. unfold Inv. rewrite Hm, Hmode.
      split; [done |]. split; [done |]. split; [done |].
      split; [done | intros _; lia].
Qed.

Lemma Inv_startImpulseMode mode s : Inv s -> Inv (startImpulseMode mode s).
Proof.
  intros HI. unfold startImpulseMode. destruct (_ >=? _); [| done].
  destruct HI as (Hsq & Hn & _). unfold Inv. simpl.
  split; [done |]. split; [done |]. split; [apply Forall_nil_2 |].
  split; intros; lia.
Qed.

Lemma keeps_playerCapture x y s s' : playerCapture x y s = Some s' -> keeps s s'.
Proof.
  unfold playerCapture. intros H. apply bind_Some in H as (s1 & Hw & [= <-]).
  eapply keeps_trans; [by eapply keeps_writeCell |].
  eapply keeps_trans; [apply keeps_set_playerCells |].
  eapply keeps_trans; [apply keeps_set_playerCharges |].
  eapply keeps_trans; [apply keeps_set_playerTurn | apply keeps_set_aiTimer].
Qed.

Lemma Inv_handleInput inp s s' : Inv s -> handleInput inp s = Some s' -> Inv s'.
Proof.
  intros HI H. unfold handleInput in H.
  destruct (currentState s); [by injection H as <- | | by injection H as <-].
  apply bind_Some in H as (s2 & H1 & H2).
  assert (HI2 : Inv s2).
  { destruct (playerTurn s && negb (impulseModeActive s));
      [| by injection H1 as <-].
    apply bind_Some in H1 as (s1 & Hc & [= <-]).
    assert (HI1 : Inv s1).
    { destruct (click inp) as [[gx gy]|]; [| by injection Hc as <-].
      destruct (inBounds (gridSize s) gx gy); [| by injection Hc as <-].
      apply bind_Some in Hc as (c & _ & Hc).
      case_decide; [| by injection Hc as <-].
      apply bind_Some in Hc as (valid & _ & Hc).
      destruct valid; [| by injection Hc as <-].
      eapply Inv_keeps; [exact HI | by eapply keeps_playerCapture]. }
    destruct (_ >=? _); [| done].
    destruct (keyA inp); [by apply Inv_startImpulseMode |].
    destruct (keyS inp); [by apply Inv_startImpulseMode | done]. }
  destruct (impulseModeActive s2); [| by injection H2 as <-].
  destruct (click inp) as [[gx gy]|]; [| by injection H2 as <-].
  destruct (inBounds (gridSize s2) gx gy) eqn:Hb; [| by injection H2 as <-].
  by eapply Inv_select.
Qed.

Lemma grid_set_defined g x y c g' a b :
  grid_set g x y c = Some g' ->
  is_Some (grid_get g' a b) -> is_Some (grid_get g a b).
Proof.
  intros Hs Hd. destruct (decide ((a, b) = (x, y))) as [[= -> ->]|Hne].
  - apply (proj1 (grid_set_is_Some g x y c)). by rewrite Hs.
  - by rewrite <- (grid_set_other _ _ _ _ _ _ _ Hs Hne).
Qed.

Lemma clearCells_defined cs s s' :
  clearCells cs s = Some s' ->
  keeps s s' /\
  forall x y, (x, y) ∈ cs -> is_Some (grid_get (grid s) x y).
Proof.
  revert s. induction cs as [|[a b] cs IH]; simpl; intros s H.
  - injection H as <-. split; [apply keeps_refl |].
    intros x y Hin. by apply elem_of_nil in Hin.
  - apply bind_Some in H as (s1 & Hw & H).
    destruct (IH _ H) as [K Hdef].
    split; [eapply keeps_trans; [by eapply keeps_writeCell | done] |].
    apply writeCell_Some in Hw as (g' & Hset & ->).
    intros x y [[= -> ->]|Hin]%elem_of_cons.
    + apply (proj1 (grid_set_is_Some (grid s) a b CellState.NEUTRAL)).
      by rewrite Hset.
    + eapply grid_set_defined; [exact Hset |]. by apply Hdef.
Qed.

(** [resetGame] only returns when the board fits the allocated storage. *)
Lemma resetGame_Some s s' :
  resetGame s = Some s' -> square (grid s) 10 -> 0 < gridSize s ->
  gridSize s <= 10 /\ gridSize s' = gridSize s /\ square (grid s') 10 /\
  selectedCells s' = [] /\ currentImpulseMode s' = ImpulseMode.NONE.
Proof.
  unfold resetGame. intros H Hsq Hpos.
  apply bind_Some in H as (s1 & Hclear & H).
  apply bind_Some in H as (s2 & Hw1 & H).
  apply bind_Some in H as (s3 & Hw2 & [= <-]). simpl.
  apply clearCells_defined in Hclear as [K1 Hdef].
  apply keeps_writeCell in Hw1 as K2. apply keeps_writeCell in Hw2 as K3.
  pose proof (keeps_trans _ _ _ K1 (keeps_trans _ _ _ K2 K3))
    as (_ & _ & En & _ & _ & _ & _ & _ & Hg).
  split; [| split; [done | split; [by apply Hg | done]]].
  destruct (decide (gridSize s <= 10)) as [|Hbig]; [done |].
  exfalso.
  assert (Hin : (10, 0) ∈ cells (gridSize s)) by (apply cells_spec, inBounds_spec; lia).
  destruct (Hdef _ _ Hin) as [c Hc].
  apply grid_get_Some in Hc as (row & Hrow & _).
  assert (is_Some (vec_at (grid s) 10)) as Hsome%vec_at_is_Some by eauto.
  destruct Hsq as [Hlen _]. lia.
Qed.

Lemma Inv_startFromMenu s s' : Inv s -> startFromMenu s = Some s' -> Inv s'.
Proof.
  intros (Hsq & Hn & _) H. unfold startFromMenu in H.
  apply bind_Some in H as (s1 & Hreset & [= <-]).
  set (s0 := if decide (selectedGridSize s = 0) then _ else _) in *.
  assert (Hs0 : square (grid s0) 10 /\
                (gridSize s0 = 7 \/ gridSize s0 = 10 \/ gridSize s0 = 12)).
  { subst s0. repeat case_decide; simpl; split; try done; lia. }
  destruct Hs0 as [Hsq0 Hn0].
  destruct (resetGame_Some _ _ Hreset Hsq0 ltac:(lia))
    as (Hle & En & Hsq1 & Hsel & Hmode).
  unfold Inv. simpl. rewrite En, Hsel, Hmode.
  split; [done |]. split; [lia |]. split; [apply Forall_nil_2 |].
  split; intros; done.
Qed.

Lemma Inv_updateGame inp s s' : Inv s -> updateGame inp s = Some s' -> Inv s'.
Proof.
  intros HI H. unfold updateGame in H. destruct (currentState s).
  - unfold updateMenu in H. apply bind_Some in H as (s1 & H1 & H2).
    assert (HI0 : Inv (match menuClick inp with
                       | Some Button7 => set_selectedGridSize 0 s
                       | Some Button10 => set_selectedGridSize 1 s
                       | Some Button12 => set_selectedGridSize 2 s
                       | _ => s
                       end)).
    { destruct (menuClick inp) as [[]|]; done. }
    assert (HI1 : Inv s1).
    { case_decide; [by eapply Inv_startFromMenu | by injection H1 as <-]. }
    destruct (keySpace inp); [by eapply Inv_startFromMenu |].
    by injection H2 as <-.
  - case_decide; [by injection H as <- |].
    destruct (playerTurn s); [by injection H as <- |].
    destruct ((aiTimer s + deltaTime inp >=? AI_DELAY)%f32) eqn:Hfire.
    + destruct (processAITurn_fired _ _ _ H Hfire) as (s1 & K & ->).
      pose proof (Inv_keeps _ _ HI K) as HI1.
      unfold checkWinCondition.
      destruct (_ && _); [done |]. destruct (_ >=? _); [done |].
      by destruct (_ >=? _).
    + unfold processAITurn in H. simpl in H. rewrite Hfire in H.
      by injection H as <-.
  - destruct (_ || _); by injection H as <-.
Qed.

Lemma Inv_programStart r s : programStart r = Some s -> Inv s.
Proof.
  intros H. vm_compute in H. injection H as <-. unfold Inv. simpl.
  split; [split; [done | repeat constructor] |].
  split; [by right |]. split; [apply Forall_nil_2 |]. split; intros; done.
Qed.

(** The invariant of the main loop. *)
Lemma reachable_Inv s : reachable s -> Inv s.
Proof.
  induction 1 as [r s H | inp s s' _ IH H].
  - by eapply Inv_programStart.
  - unfold frame in H. apply bind_Some in H as (s1 & H1 & H2).
    eapply Inv_updateGame; [| exact H2]. by eapply Inv_handleInput.
Qed.

Lemma reachable_covers s : reachable s -> covers (grid s) (gridSize s).
Proof. intros H. by apply Inv_covers, reachable_Inv. Qed.

Lemma reachable_run inps s s' :
  reachable s -> run inps s = Some s' -> reachable s'.
Proof.
  revert s. induction inps as [|inp inps IH]; simpl; intros s Hr H.
  - by injection H as <-.
  - apply bind_Some in H as (s1 & H1 & H2).
    eapply IH; [| exact H2]. by eapply reachable_frame.
Qed.

(** ** Starting a session *)

(** C1.  The storage is allocated once, by [initializeGame], for the
    default size 10; [resetGame] never resizes it.  Choosing 12 x 12 at
    the menu and starting makes the clearing loop of [resetGame] write
    [grid[0][10]], outside the ten cells of its row: the session start
    has no defined result. *)
Theorem start_12x12_out_of_bounds (r : R) :
  exists s0 s1,
    programStart r = Some s0 /\
    square (grid s0) 10 /\
    frame (Scenario.menu Button12) s0 = Some s1 /\
    selectedGridSize s1 = 2 /\
    grid s1 = grid s0 /\
    writeCell 0 10 CellState.NEUTRAL (set_gridSize 12 s1) = None /\
    resetGame (set_gridSize 12 s1) = None /\
    frame (Scenario.menu ButtonStart) s1 = None.
Proof.
  eexists _, _.
  split; [vm_compute; reflexivity |].
  split; [split; [reflexivity | repeat constructor] |].
  split; [vm_compute; reflexivity |].
  repeat split; vm_compute; reflexivity.
Qed.

(** Sizes 7 and 10 do start: the board is cleared, the two corners are
    set, the counts are 1, the charges 0 and the turn is the player's. *)
Lemma start_7_or_10 (r : R) (b : MenuButton) (n : Z) :
  (b = Button7 /\ n = 7) \/ (b = Button10 /\ n = 10) ->
  exists s0 s,
    programStart r = Some s0 /\
    run [Scenario.menu b; Scenario.menu ButtonStart] s0 = Some s /\
    gridSize s = n /\
    (forall x y, inBounds n x y = true ->
       grid_get (grid s) x y =
         Some (if decide ((x, y) = (0, 0)) then CellState.PLAYER
               else if decide ((x, y) = (n - 1, n - 1)) then CellState.AI
               else CellState.NEUTRAL)) /\
    playerCells s = 1 /\ aiCells s = 1 /\
    playerCharges s = 0 /\ aiCharges s = 0 /\ playerTurn s = true.
Proof.
  intros [[-> ->]|[-> ->]]; eexists _, _.
  - split; [vm_compute; reflexivity |].
    split; [vm_compute; reflexivity |].
    split; [reflexivity |].
    split; [| by repeat split].
    intros x y [Hx Hy]%inBounds_spec.
    assert (Hxs : x = 0 \/ x = 1 \/ x = 2 \/ x = 3 \/ x = 4 \/ x = 5 \/ x = 6)
      by lia.
    assert (Hys : y = 0 \/ y = 1 \/ y = 2 \/ y = 3 \/ y = 4 \/ y = 5 \/ y = 6)
      by lia.
    destruct_or!; subst; reflexivity.
  - split; [vm_compute; reflexivity |].
    split; [vm_compute; reflexivity |].
    split; [reflexivity |].
    split; [| by repeat split].
    intros x y [Hx Hy]%inBounds_spec.
    assert (Hxs : x = 0 \/ x = 1 \/ x = 2 \/ x = 3 \/ x = 4 \/ x = 5 \/ x = 6
                  \/ x = 7 \/ x = 8 \/ x = 9) by lia.
    assert (Hys : y = 0 \/ y = 1 \/ y = 2 \/ y = 3 \/ y = 4 \/ y = 5 \/ y = 6
                  \/ y = 7 \/ y = 8 \/ y = 9) by lia.
    destruct_or!; subst; reflexivity.
Qed.

End Theory.

(** ** Sessions on a tape *)

Lemma reachable_after tape inps s :
  Scenario.after tape inps = Some s -> reachable s.
Proof.
  unfold Scenario.after. intros H. apply bind_Some in H as (s0 & H0 & H).
  eapply reachable_run; [| exact H]. by eapply reachable_start.
Qed.

(** C3.  A reachable state in which the counts are right, and a resolved
    action (the third target of a player speed impulse) after which
    [aiCells] is one more than the number of AI cells and the three counts
    add up to one more than [gridSize^2].  The impulse was entered in the
    frame whose click had already passed the turn to the AI; the AI then
    captured the first selected cell, and the completion turned that cell
    to PLAYER without lowering [aiCells]. *)
Theorem count_invariant_broken :
  exists s s' : State Tape.t,
    reachable s /\
    playerCells s = countCells s CellState.PLAYER /\
    aiCells s = countCells s CellState.AI /\
    playerCells s + aiCells s + countCells s CellState.NEUTRAL
      = gridSize s * gridSize s /\
    currentImpulseMode s = ImpulseMode.SPEED /\
    length (selectedCells s) = 2%nat /\
    frame (Scenario.clickAt 2 1) s = Some s' /\
    currentImpulseMode s' = ImpulseMode.NONE /\
    playerCells s' = playerCells s + 3 /\
    playerCells s' = countCells s' CellState.PLAYER /\
    aiCells s' = countCells s' CellState.AI + 1 /\
    playerCells s' + aiCells s' + countCells s' CellState.NEUTRAL
      = gridSize s' * gridSize s' + 1.
Proof.
  exists Scenario.speedStale,
         (Scenario.get (frame (Scenario.clickAt 2 1) Scenario.speedStale)).
  split.
  { apply (reachable_after Scenario.walkTape
             (Scenario.staleGuard ++ [Scenario.tick; Scenario.clickAt 1 1])).
    vm_compute. reflexivity. }
  do 10 (split; [vm_compute; reflexivity |]).
  vm_compute. reflexivity.
Qed.

(** C10.  A reachable state in the player's turn with two charges; one
    frame in which a legal cell is clicked and key A goes down.  The
    capture passes the turn to the AI and raises the charges to three,
    and the key test that follows in the same block enters attack mode:
    impulse selection is active in the AI's turn.  When the delay has
    elapsed the AI captures a cell while the selection is pending. *)
Theorem impulse_active_in_ai_turn :
  exists s0 s s' : State Tape.t,
    reachable s0 /\
    playerTurn s0 = true /\ impulseModeActive s0 = false /\
    playerCharges s0 = 2 /\
    frame (Scenario.clickWithA 3 0) s0 = Some s /\
    reachable s /\
    impulseModeActive s = true /\ playerTurn s = false /\
    frame Scenario.tick s = Some s' /\
    impulseModeActive s' = true /\
    aiCells s' = aiCells s + 1 /\
    grid s' <> grid s.
Proof.
  exists Scenario.twoRounds, Scenario.attackStale,
         (Scenario.get (frame Scenario.tick Scenario.attackStale)).
  split.
  { apply (reachable_after [] Scenario.twoRoundsInputs).
    vm_compute. reflexivity. }
  do 4 (split; [vm_compute; reflexivity |]).
  split.
  { apply (reachable_after []
             (Scenario.twoRoundsInputs ++ [Scenario.clickWithA 3 0])).
    vm_compute. reflexivity. }
  do 5 (split; [vm_compute; reflexivity |]).
  vm_compute. discriminate.
Qed.

(** ** The theorems at work on concrete sessions *)

Ltac covers_by_evaluation :=
  split; [simpl; lia | repeat constructor; simpl; lia].

(** On a fresh 7 x 7 board the click on (1, 0) captures and the click on
    (5, 5) is ignored. *)
Lemma player_click_capture_witness :
  (exists s',
     handleInput (Scenario.clickAt 1 0) Scenario.fresh7 = Some s' /\
     grid_get (grid s') 1 0 = Some CellState.PLAYER /\
     playerCells s' = 2 /\ playerCharges s' = 1 /\ playerTurn s' = false) /\
  handleInput (Scenario.clickAt 5 5) Scenario.fresh7 = Some Scenario.fresh7.
Proof.
  assert (Hc : covers (grid Scenario.fresh7) (gridSize Scenario.fresh7))
    by covers_by_evaluation.
  split.
  - destruct (player_click_capture Scenario.fresh7 (Scenario.clickAt 1 0) 1 0
                Hc eq_refl eq_refl eq_refl eq_refl eq_refl eq_refl)
      as [Hok _].
    destruct Hok as (g' & _ & Hget & _ & Heq).
    { split; [reflexivity |]. split; [reflexivity |].
      exists 0, 0. split; [left; lia |]. split; reflexivity. }
    eexists. split; [exact Heq |]. simpl. by repeat split.
  - destruct (player_click_capture Scenario.fresh7 (Scenario.clickAt 5 5) 5 5
                Hc eq_refl eq_refl eq_refl eq_refl eq_refl eq_refl)
      as [_ Hno].
    apply Hno. intros (_ & _ & (a & b & Hadj & _ & Hg)).
    destruct Hadj as [[-> ->]|[[-> ->]|[[-> ->]|[-> ->]]]];
      vm_compute in Hg; discriminate.
Defined.



(** Four ignored inputs: key A without charges and a click on (5, 5) on a
    fresh board; in attack mode with (6, 0) selected, a click on the
    Neutral cell (3, 3) and a second click on (6, 0). *)
Lemma invalid_input_ignored_witness :
  handleInput Scenario.pressA Scenario.fresh7 = Some Scenario.fresh7 /\
  handleInput (Scenario.clickAt 5 5) Scenario.fresh7 = Some Scenario.fresh7 /\
  handleInput (Scenario.clickAt 3 3) Scenario.attackOne
    = Some Scenario.attackOne /\
  handleInput (Scenario.clickAt 6 0) Scenario.attackOne
    = Some Scenario.attackOne.
Proof.
  assert (Hc : covers (grid Scenario.fresh7) (gridSize Scenario.fresh7))
    by covers_by_evaluation.
  assert (Hc' : covers (grid Scenario.attackOne) (gridSize Scenario.attackOne))
    by covers_by_evaluation.
  split; [| split; [| split]].
  - destruct (invalid_input_ignored Scenario.fresh7 Scenario.pressA Hc)
      as (Hkey & _ & _).
    apply Hkey; [reflexivity | reflexivity | simpl; lia].
  - destruct (invalid_input_ignored Scenario.fresh7 (Scenario.clickAt 5 5) Hc)
      as (_ & Hclick & _).
    apply (Hclick eq_refl 5 5 eq_refl); [| left; by split].
    intros (_ & _ & (a & b & Hadj & _ & Hg)).
    destruct Hadj as [[-> ->]|[[-> ->]|[[-> ->]|[-> ->]]]];
      vm_compute in Hg; discriminate.
  - destruct (invalid_input_ignored Scenario.attackOne (Scenario.clickAt 3 3)
                Hc') as (_ & _ & Hsel).
    destruct (Hsel eq_refl 3 3 eq_refl) as [Hattack _].
    apply Hattack; [reflexivity |]. left.
    intros (_ & Hg & _). vm_compute in Hg. discriminate.
  - destruct (invalid_input_ignored Scenario.attackOne (Scenario.clickAt 6 0)
                Hc') as (_ & _ & Hsel).
    destruct (Hsel eq_refl 6 0 eq_refl) as [Hattack _].
    apply Hattack; [reflexivity |]. right.
    split; [simpl; left | simpl; lia].
Defined.


(** An AI turn with three charges on a tape that reads SPEED, then
    ATTACK: both flips are consumed and the AI makes an ordinary
    capture. *)
Lemma ai_coin_flipped_twice_witness :
  exists s',
    processAITurn Float32.one Scenario.aiCharged = Some s' /\
    aiCharges Scenario.aiCharged = 3 /\
    rng Scenario.aiCharged = [1; 0; -1; 1; 0; -1; 1; 0; -1] /\
    rng s' = [1; 0; -1; 1; 0; -1] /\
    aiCells s' = aiCells Scenario.aiCharged + 1 /\
    aiCharges s' = 4.
Proof.
  destruct (ai_coin_flipped_twice Scenario.aiCharged Float32.one
              (decideAIImpulseMode
                 (set_aiTimer (aiTimer Scenario.aiCharged + Float32.one)%f32
                    Scenario.aiCharged)).2
              (decideAIImpulseMode
                 (decideAIImpulseMode
                    (set_aiTimer (aiTimer Scenario.aiCharged + Float32.one)%f32
                       Scenario.aiCharged)).2).2
              ltac:(vm_compute; reflexivity) ltac:(simpl; lia)
              ltac:(vm_compute; reflexivity) ltac:(vm_compute; reflexivity))
    as [_ Heq].
  eexists. split; [rewrite Heq; vm_compute; reflexivity |].
  vm_compute. by repeat split.
Defined.

(** * The rest of the engine *)

(** ** Counting cells *)

Lemma filter_length_change {A} (P Q : A -> bool) (l : list A) (p : A) :
  NoDup l -> p ∈ l ->
  (forall q, q ∈ l -> q <> p -> P q = Q q) ->
  Z.of_nat (length (List.filter Q l)) =
    Z.of_nat (length (List.filter P l))
    + (if Q p then 1 else 0) - (if P p then 1 else 0).
Proof.
  induction l as [|a l IH]; intros Hnd Hin Hsame.
  - by apply elem_of_nil in Hin.
  - apply NoDup_cons in Hnd as [Hnin Hnd]. simpl.
    apply elem_of_cons in Hin as [->|Hin].
    + assert (Hrest : List.filter Q l = List.filter P l).
      { apply filter_ext_in. intros q Hq%list_elem_of_In.
        symmetry. apply Hsame; [by right |]. intros ->. done. }
      rewrite Hrest. destruct (Q a), (P a); simpl; lia.
    + assert (Hne : a <> p) by (intros ->; done).
      rewrite <- (Hsame a); [| by left | done].
      assert (IH' := IH Hnd Hin
                (fun q Hq Hqp => Hsame q (list_elem_of_further _ _ _ Hq) Hqp)).
      destruct (P a); simpl; lia.
Qed.

Lemma countGrid_set g n x y c0 c1 g' c :
  grid_set g x y c1 = Some g' ->
  inBounds n x y = true ->
  grid_get g x y = Some c0 ->
  countGrid g' n c = countGrid g n c + indicator c c1 - indicator c c0.
Proof.
  intros Hset Hb Hget. unfold countGrid.
  rewrite (filter_length_change
             (fun p => bool_decide (grid_get g p.1 p.2 = Some c))
             (fun p => bool_decide (grid_get g' p.1 p.2 = Some c))
             (cells n) (x, y) (cells_NoDup n)).
  - simpl. rewrite (grid_set_same _ _ _ _ _ Hset), Hget. unfold indicator.
    repeat case_bool_decide; repeat case_decide; simplify_eq; lia.
  - by apply cells_spec.
  - intros [a b] _ Hne. simpl.
    by rewrite (grid_set_other _ _ _ _ _ a b Hset Hne).
Qed.

(** Every cell of the board holds one of the three states. *)
Lemma countGrid_total g n :
  covers g n ->
  countGrid g n CellState.PLAYER + countGrid g n CellState.AI
    + countGrid g n CellState.NEUTRAL = Z.of_nat (length (cells n)).
Proof.
  intros Hc. unfold countGrid.
  pose proof (cells_inBounds n) as Hb.
  induction (cells n) as [|[a b] l IH]; [done |].
  apply Forall_cons in Hb as [Hab Hb]. specialize (IH Hb).
  destruct (grid_get_covers g n a b Hc Hab) as [c Hget].
  simpl in *. rewrite Hget.
  destruct c; repeat case_bool_decide; simplify_eq; simpl; lia.
Qed.

Lemma length_cells n : 0 <= n -> Z.of_nat (length (cells n)) = n * n.
Proof.
  intros Hn. unfold cells.
  assert (Hgen : forall l : list Z,
            Z.of_nat (length (l ≫= fun x => seqZ 0 n ≫= fun y => [(x, y)]))
            = Z.of_nat (length l) * n).
  { induction l as [|a l IH]; [done |].
    rewrite bind_cons, length_app, Nat2Z.inj_add, IH.
    assert (Hrow : forall m : list Z,
              length (m ≫= fun y => [(a, y)]) = length m).
    { induction m as [|b m IHm]; [done |].
      rewrite bind_cons. simpl. by rewrite IHm. }
    rewrite Hrow, length_seqZ. simpl length. lia. }
  rewrite Hgen, length_seqZ. lia.
Qed.

(** Replaces the win check in the goal by the write of some result. *)
Ltac win_check_away :=
  match goal with
  | |- context [checkWinCondition ?x] =>
      let res := fresh "res" in
      let Hres := fresh "Hres" in
      destruct (checkWinCondition_fields x) as [res Hres];
      rewrite Hres in *; clear Hres
  end.

Section Rest.
Context {R : Type} {RS : RandomSource R}.
Implicit Types (s : State R) (inp : Input).

Lemma countCells_countGrid s c : countCells s c = countGrid (grid s) (gridSize s) c.
Proof. reflexivity. Qed.

(** ** The capture loops *)

Lemma flipCells_spec to dp da cs s :
  covers (grid s) (gridSize s) ->
  Forall (fun p => inBounds (gridSize s) p.1 p.2 = true) cs ->
  exists g',
    flipCells to dp da cs s =
      Some (set_playerCells (playerCells s + dp * Z.of_nat (length cs))
             (set_aiCells (aiCells s + da * Z.of_nat (length cs))
               (set_grid g' s))) /\
    covers g' (gridSize s) /\
    (forall m, square (grid s) m -> square g' m) /\
    (forall x y, grid_get g' x y =
       if decide ((x, y) ∈ cs) then Some to else grid_get (grid s) x y) /\
    (forall from,
       NoDup cs ->
       Forall (fun p => grid_get (grid s) p.1 p.2 = Some from) cs ->
       forall c, countGrid g' (gridSize s) c =
         countGrid (grid s) (gridSize s) c
         + Z.of_nat (length cs) * (indicator c to - indicator c from)).
Proof.
  revert s. induction cs as [|[x y] cs IH]; intros s Hc Hb.
  - exists (grid s). split; [simpl; destruct s; unfold_state; do 2 f_equal; lia |].
    split; [done |]. split; [done |]. split.
    + intros a b. rewrite decide_False; [done | apply not_elem_of_nil].
    + intros from _ _ c. simpl. lia.
  - apply Forall_cons in Hb as [Hxy Hb]. simpl in Hxy.
    destruct (grid_set_covers _ _ x y to Hc Hxy) as [g1 Hg1].
    pose proof (grid_set_keeps_covers _ _ _ _ _ _ Hg1 Hc) as Hc1.
    set (s1 := set_playerCells (playerCells s + dp)
                 (set_aiCells (aiCells s + da) (set_grid g1 s))).
    destruct (IH s1 Hc1 Hb) as (g' & Hrun & Hc' & Hsq & Hgrid & Hcount).
    exists g'. split; [| split; [done | split; [| split]]].
    + simpl. unfold writeCell. rewrite Hg1. simpl. fold s1. rewrite Hrun.
      subst s1. destruct s. unfold_state. do 2 f_equal; lia.
    + intros m Hm. apply Hsq. simpl. by eapply grid_set_keeps_square.
    + intros a b. rewrite Hgrid. simpl.
      destruct (decide ((a, b) = (x, y))) as [[= -> ->]|Hne].
      * rewrite (decide_True (P := (x, y) ∈ (x, y) :: cs)) by left.
        case_decide; [done | by eapply grid_set_same].
      * rewrite (grid_set_other _ _ _ _ _ a b Hg1 Hne).
        repeat case_decide; try done.
        -- exfalso. by apply H0; right.
        -- apply elem_of_cons in H0 as [?|?]; done.
    + intros from [Hnin Hnd]%NoDup_cons [Hfx Hfrom]%Forall_cons c.
      simpl in Hfx.
      rewrite (Hcount from Hnd); simpl.
      * rewrite (countGrid_set _ _ _ _ _ _ _ c Hg1 Hxy Hfx). lia.
      * apply Forall_forall. intros [a b] Hin.
        rewrite Forall_forall in Hfrom. specialize (Hfrom _ Hin).
        simpl in *. rewrite (grid_set_other _ _ _ _ _ a b Hg1); [done |].
        intros [= -> ->]. done.
Qed.

Lemma attackFlip_flipCells cs s :
  attackFlip cs s = flipCells CellState.PLAYER 1 (-1) cs s.
Proof.
  revert s. induction cs as [|[x y] cs IH]; intros s; [done |].
  simpl. destruct (writeCell x y CellState.PLAYER s) as [s1|]; [| done].
  simpl. apply IH.
Qed.

Lemma speedFlip_flipCells cs s :
  speedFlip cs s = flipCells CellState.PLAYER 1 0 cs s.
Proof.
  revert s. induction cs as [|[x y] cs IH]; intros s; [done |].
  simpl. destruct (writeCell x y CellState.PLAYER s) as [s1|]; [| done].
  simpl. rewrite IH. f_equal. destruct s1. unfold_state. f_equal; lia.
Qed.

Lemma aiAttackFlip_flipCells cs s n :
  Forall (fun p => inBounds n p.1 p.2 = true) cs ->
  aiAttackFlip cs s = flipCells CellState.AI (-1) 1 cs s.
Proof.
  revert s. induction cs as [|[x y] cs IH]; intros s Hb; [done |].
  apply Forall_cons in Hb as [[Hx _]%inBounds_spec Hb]. simpl in *.
  rewrite decide_True by lia.
  destruct (writeCell x y CellState.AI s) as [s1|]; [| done].
  simpl. rewrite IH by done. f_equal.
Qed.

Lemma aiSpeedFlip_flipCells cs s n :
  Forall (fun p => inBounds n p.1 p.2 = true) cs ->
  aiSpeedFlip cs s = flipCells CellState.AI 0 1 cs s.
Proof.
  revert s. induction cs as [|[x y] cs IH]; intros s Hb; [done |].
  apply Forall_cons in Hb as [[Hx _]%inBounds_spec Hb]. simpl in *.
  rewrite decide_True by lia.
  destruct (writeCell x y CellState.AI s) as [s1|]; [| done].
  simpl. rewrite IH by done. f_equal. destruct s1. unfold_state. f_equal; lia.
Qed.

(** ** The AI's impulse moves *)

Lemma take_shuffle k (all : list (Z * Z)) (r : R) :
  NoDup all ->
  NoDup (take k (shuffle all r).1) /\
  (forall p, p ∈ take k (shuffle all r).1 -> p ∈ all) /\
  length (take k (shuffle all r).1) = (k `min` length all)%nat /\
  ((length (take k (shuffle all r).1) < k)%nat ->
     forall p, p ∈ all -> p ∈ take k (shuffle all r).1).
Proof.
  intros Hnd. pose proof (shuffle_perm all r) as Hp.
  set (l := (shuffle all r).1) in *.
  assert (Hndl : NoDup l) by (by rewrite Hp).
  split; [eapply sublist_NoDup; [exact Hndl | apply sublist_take] |].
  split.
  { intros p Hin. rewrite <- Hp. eapply elem_of_sublist; [exact Hin |].
    apply sublist_take. }
  split; [by rewrite length_take, (Permutation_length Hp) |].
  intros Hlt p Hin. rewrite length_take in Hlt.
  rewrite take_ge by lia. by rewrite Hp.
Qed.

Lemma set_rng_same s : set_rng (rng s) s = s.
Proof. by destruct s. Qed.

(** The targets [getAIAttackMove] returns: at most two, without
    repetition, each a PLAYER cell of the board next to an AI cell; all
    such cells when there are fewer than two.  The generator is only
    consumed when there is a target. *)
Lemma getAIAttackMove_spec s :
  covers (grid s) (gridSize s) ->
  exists cs r,
    getAIAttackMove s = Some (cs, set_rng r s) /\
    NoDup cs /\ (length cs <= 2)%nat /\
    (forall x y, (x, y) ∈ cs ->
       borderCell (grid s) (gridSize s) CellState.PLAYER CellState.AI x y) /\
    ((length cs < 2)%nat ->
       forall x y,
         borderCell (grid s) (gridSize s) CellState.PLAYER CellState.AI x y ->
         (x, y) ∈ cs) /\
    (cs = [] -> r = rng s).
Proof.
  intros Hc. unfold getAIAttackMove.
  destruct (scanCells_spec (grid s) (gridSize s) CellState.PLAYER CellState.AI
              (cells (gridSize s)) Hc (cells_inBounds _))
    as (all & -> & Hin & Hnd).
  specialize (Hnd (cells_NoDup _)). simpl.
  assert (Hborder : forall x y, (x, y) ∈ all <->
            borderCell (grid s) (gridSize s) CellState.PLAYER CellState.AI x y).
  { intros x y. rewrite Hin, cells_spec. done. }
  destruct all as [|p0 all'].
  - exists [], (rng s). rewrite set_rng_same. split; [done |].
    split; [apply NoDup_nil_2 |]. split; [simpl; lia |].
    split; [intros x y Hxy; by apply elem_of_nil in Hxy |].
    split; [| done]. intros _ x y Hxy. by apply Hborder in Hxy.
  - set (all := p0 :: all') in *.
    destruct (take_shuffle 2 all (rng s) Hnd) as (Hnd2 & Hsub & Hlen & Hall).
    destruct (shuffle all (rng s)) as [l r] eqn:Hsh. cbn [fst snd] in *.
    exists (take 2 l), r. split; [done |]. split; [done |].
    split; [rewrite Hlen; apply Nat.le_min_l |].
    split; [intros x y Hxy; by apply Hborder, Hsub |].
    split; [intros Hlt x y Hxy; by apply Hall, Hborder |].
    intros Hnil. rewrite Hnil in Hlen. subst all. simpl in Hlen. lia.
Qed.

(** The targets [getAISpeedMove] returns: at most three, without
    repetition, each a legal AI capture; all legal captures when there
    are fewer than three. *)
Lemma getAISpeedMove_spec s :
  covers (grid s) (gridSize s) ->
  exists cs r,
    getAISpeedMove s = Some (cs, set_rng r s) /\
    NoDup cs /\ (length cs <= 3)%nat /\
    (forall x y, (x, y) ∈ cs -> legalTarget s CellState.AI x y) /\
    ((length cs < 3)%nat ->
       forall x y, legalTarget s CellState.AI x y -> (x, y) ∈ cs) /\
    (cs = [] -> r = rng s).
Proof.
  intros Hc. unfold getAISpeedMove.
  destruct (getAvailableMoves_spec s CellState.AI Hc) as (all & -> & Hnd & Hin).
  simpl. destruct all as [|p0 all'].
  - exists [], (rng s). rewrite set_rng_same. split; [done |].
    split; [apply NoDup_nil_2 |]. split; [simpl; lia |].
    split; [intros x y Hxy; by apply elem_of_nil in Hxy |].
    split; [| done]. intros _ x y Hxy. by apply Hin in Hxy.
  - set (all := p0 :: all') in *.
    destruct (take_shuffle 3 all (rng s) Hnd) as (Hnd2 & Hsub & Hlen & Hall).
    destruct (shuffle all (rng s)) as [l r] eqn:Hsh. cbn [fst snd] in *.
    exists (take 3 l), r. split; [done |]. split; [done |].
    split; [rewrite Hlen; apply Nat.le_min_l |].
    split; [intros x y Hxy; by apply Hin, Hsub |].
    split; [intros Hlt x y Hxy; by apply Hall, Hin |].
    intros Hnil. rewrite Hnil in Hlen. subst all. simpl in Hlen. lia.
Qed.

Lemma border_inBounds g n want owner (cs : list (Z * Z)) :
  (forall x y, (x, y) ∈ cs -> borderCell g n want owner x y) ->
  Forall (fun p => inBounds n p.1 p.2 = true) cs /\
  Forall (fun p => grid_get g p.1 p.2 = Some want) cs.
Proof.
  intros H. split; apply Forall_forall; intros [x y] Hin;
    destruct (H x y Hin) as (? & ? & _); done.
Qed.

Lemma payImpulse_shape cs s :
  payImpulse cs s =
    set_aiCharges (if decide (cs = []) then aiCharges s
                   else aiCharges s - impulseCost s) s.
Proof. destruct cs; simpl; [by destruct s | done]. Qed.

Lemma aiWants_shape mode s b s1 :
  aiWants mode s = (b, s1) ->
  s1 = set_rng (rng s1) s /\ (b = true -> impulseCost s <= aiCharges s).
Proof.
  unfold aiWants. destruct (Z.geb_spec (aiCharges s) (impulseCost s)).
  - rewrite decideAIImpulseMode_rng. intros [= <- <-]. split; [done | lia].
  - intros [= <- <-]. split; [by rewrite set_rng_same | done].
Qed.

(** The attack branch of [processAITurn], from [getAIAttackMove] to the
    debit of the charges. *)
Lemma aiAttackBranch_spec s :
  covers (grid s) (gridSize s) ->
  exists cs r g',
    ('(cs, s) ← getAIAttackMove s;
     s ← aiAttackFlip cs s; Some (payImpulse cs s)) =
      Some (payImpulse cs
             (set_playerCells (playerCells s - Z.of_nat (length cs))
               (set_aiCells (aiCells s + Z.of_nat (length cs))
                 (set_grid g' (set_rng r s))))) /\
    NoDup cs /\ (length cs <= 2)%nat /\
    (forall x y, (x, y) ∈ cs ->
       borderCell (grid s) (gridSize s) CellState.PLAYER CellState.AI x y) /\
    ((length cs < 2)%nat ->
       forall x y,
         borderCell (grid s) (gridSize s) CellState.PLAYER CellState.AI x y ->
         (x, y) ∈ cs) /\
    covers g' (gridSize s) /\
    (forall m, square (grid s) m -> square g' m) /\
    (forall x y, grid_get g' x y =
       if decide ((x, y) ∈ cs) then Some CellState.AI
       else grid_get (grid s) x y) /\
    (forall c, countGrid g' (gridSize s) c =
       countGrid (grid s) (gridSize s) c
       + Z.of_nat (length cs)
         * (indicator c CellState.AI - indicator c CellState.PLAYER)).
Proof.
  intros Hc.
  destruct (getAIAttackMove_spec s Hc)
    as (cs & r & -> & Hnd & Hlen & Hborder & Hall & _).
  destruct (border_inBounds _ _ _ _ _ Hborder) as [Hb Hfrom].
  simpl. rewrite (aiAttackFlip_flipCells cs _ (gridSize s) Hb).
  destruct (flipCells_spec CellState.AI (-1) 1 cs (set_rng r s) Hc Hb)
    as (g' & -> & Hc' & Hsq & Hgrid & Hcount).
  exists cs, r, g'. simpl.
  split; [do 2 f_equal; destruct s; unfold_state; f_equal; lia |].
  do 4 (split; [done |]). split; [done |]. split; [done |].
  split; [done |]. intros c. by apply Hcount.
Qed.

(** The speed branch of [processAITurn]. *)
Lemma aiSpeedBranch_spec s :
  covers (grid s) (gridSize s) ->
  exists cs r g',
    ('(cs, s) ← getAISpeedMove s;
     s ← aiSpeedFlip cs s; Some (payImpulse cs s)) =
      Some (payImpulse cs
             (set_aiCells (aiCells s + Z.of_nat (length cs))
               (set_grid g' (set_rng r s)))) /\
    NoDup cs /\ (length cs <= 3)%nat /\
    (forall x y, (x, y) ∈ cs -> legalTarget s CellState.AI x y) /\
    ((length cs < 3)%nat ->
       forall x y, legalTarget s CellState.AI x y -> (x, y) ∈ cs) /\
    covers g' (gridSize s) /\
    (forall m, square (grid s) m -> square g' m) /\
    (forall x y, grid_get g' x y =
       if decide ((x, y) ∈ cs) then Some CellState.AI
       else grid_get (grid s) x y) /\
    (forall c, countGrid g' (gridSize s) c =
       countGrid (grid s) (gridSize s) c
       + Z.of_nat (length cs)
         * (indicator c CellState.AI - indicator c CellState.NEUTRAL)).
Proof.
  intros Hc.
  destruct (getAISpeedMove_spec s Hc)
    as (cs & r & -> & Hnd & Hlen & Hlegal & Hall & _).
  destruct (border_inBounds _ _ _ _ _ Hlegal) as [Hb Hfrom].
  simpl. rewrite (aiSpeedFlip_flipCells cs _ (gridSize s) Hb).
  destruct (flipCells_spec CellState.AI 0 1 cs (set_rng r s) Hc Hb)
    as (g' & -> & Hc' & Hsq & Hgrid & Hcount).
  exists cs, r, g'. simpl.
  split; [do 2 f_equal; destruct s; unfold_state; f_equal; lia |].
  do 4 (split; [done |]). split; [done |]. split; [done |].
  split; [done |]. intros c. by apply Hcount.
Qed.

(** The ordinary branch of [processAITurn]. *)
Lemma aiOrdinaryMove_spec s :
  covers (grid s) (gridSize s) ->
  (aiOrdinaryMove s = Some s /\
   forall x y, ~ legalTarget s CellState.AI x y) \/
  (exists x y r g',
     legalTarget s CellState.AI x y /\
     grid_set (grid s) x y CellState.AI = Some g' /\
     aiOrdinaryMove s =
       Some (set_aiCharges (aiCharges s + 1)
              (set_aiCells (aiCells s + 1) (set_grid g' (set_rng r s))))).
Proof.
  intros Hc. unfold aiOrdinaryMove, getAIMove.
  destruct (getAvailableMoves_spec s CellState.AI Hc) as (moves & -> & _ & Hin).
  simpl. destruct moves as [|m0 moves'].
  - left. split; [done |]. intros x y Hl. apply Hin in Hl.
    by apply elem_of_nil in Hl.
  - right. set (moves := m0 :: moves') in *.
    assert (Hpos : 0 < Z.of_nat (length moves)) by (subst moves; simpl; lia).
    destruct (uniform_int 0 (Z.of_nat (length moves) - 1) (rng s))
      as [k r] eqn:Hk.
    assert (Hle : 0 <= Z.of_nat (length moves) - 1) by lia.
    pose proof (uniform_int_range 0 (Z.of_nat (length moves) - 1) (rng s) Hle)
      as Hrange.
    rewrite Hk in Hrange. cbn [fst] in Hrange.
    assert (Hlt : 0 <= k < Z.of_nat (length moves)) by lia.
    destruct (proj2 (vec_at_is_Some moves k) Hlt) as [[x y] Hat].
    pose proof Hat as Hat'. apply vec_at_Some in Hat' as [_ Hlook].
    assert (Hleg : legalTarget s CellState.AI x y).
    { apply Hin. by eapply list_elem_of_lookup_2. }
    pose proof Hleg as (Hb & _ & _).
    destruct (grid_set_covers _ _ x y CellState.AI Hc Hb) as [g' Hset].
    exists x, y, r, g'. split; [done |]. split; [done |].
    rewrite Hat. simpl. apply inBounds_spec in Hb.
    rewrite decide_True by lia. unfold writeCell. simpl. by rewrite Hset.
Qed.

(** ** The AI's turn as a whole *)

Lemma indicator_cases (c : CellState.t) :
  indicator CellState.PLAYER CellState.PLAYER = 1 /\
  indicator CellState.AI CellState.AI = 1 /\
  indicator CellState.PLAYER CellState.AI = 0 /\
  indicator CellState.AI CellState.PLAYER = 0 /\
  indicator CellState.PLAYER CellState.NEUTRAL = 0 /\
  indicator CellState.AI CellState.NEUTRAL = 0 /\
  indicator CellState.NEUTRAL CellState.NEUTRAL = 1 /\
  indicator CellState.NEUTRAL CellState.PLAYER = 0 /\
  indicator CellState.NEUTRAL CellState.AI = 0.
Proof. by repeat split. Qed.

(** Whatever branch a fired AI turn takes, its result has one shape: a
    new board, the two counts moved as the board's counts moved, the
    AI's charges moved by [+1], [0] or [- impulseCost], the generator
    advanced, the turn given back and the win check run. *)
Lemma processAITurn_result s dt :
  covers (grid s) (gridSize s) ->
  (aiTimer s + dt >=? AI_DELAY)%f32 = true ->
  exists g' dp da dc r,
    processAITurn dt s =
      Some (checkWinCondition (set_playerTurn true
             (set_aiCharges (aiCharges s + dc)
               (set_playerCells (playerCells s + dp)
                 (set_aiCells (aiCells s + da)
                   (set_grid g' (set_rng r
                     (set_aiTimer (aiTimer s + dt)%f32 s)))))))) /\
    covers g' (gridSize s) /\
    (forall m, square (grid s) m -> square g' m) /\
    countGrid g' (gridSize s) CellState.PLAYER
      = countGrid (grid s) (gridSize s) CellState.PLAYER + dp /\
    countGrid g' (gridSize s) CellState.AI
      = countGrid (grid s) (gridSize s) CellState.AI + da /\
    (dc = 1 \/ dc = 0 \/
     (dc = - impulseCost s /\ impulseCost s <= aiCharges s)).
Proof.
  intros Hc Hfire. unfold processAITurn. simpl. rewrite Hfire.
  set (s0 := set_aiTimer (aiTimer s + dt)%f32 s).
  destruct (indicator_cases CellState.NEUTRAL)
    as (Ipp & Iaa & Ipa & Iap & Ipn & Ian & Inn & Inp & Ina).
  destruct (aiWants ImpulseMode.ATTACK s0) as [b1 s1] eqn:H1.
  apply aiWants_shape in H1 as [Hs1 Hch1].
  set (r1 := rng s1) in Hs1. clearbody r1. subst s1.
  destruct b1.
  - destruct (aiAttackBranch_spec (set_rng r1 s0) Hc)
      as (cs & r & g' & -> & _ & _ & _ & _ & Hc' & Hsq & _ & Hcount).
    simpl in *. rewrite payImpulse_shape.
    exists g', (- Z.of_nat (length cs)), (Z.of_nat (length cs)),
      (if decide (cs = []) then 0 else - impulseCost s), r.
    split; [| split; [done | split; [done | split; [| split]]]].
    + simpl. do 2 f_equal. subst s0. destruct s. unfold_state.
      case_decide; f_equal; lia.
    + rewrite Hcount, Ipp, Ipa. lia.
    + rewrite Hcount, Iaa, Iap. lia.
    + case_decide; [by right; left |]. right; right. split; [done |].
      by apply Hch1.
  - destruct (aiWants ImpulseMode.SPEED (set_rng r1 s0)) as [b2 s2] eqn:H2.
    apply aiWants_shape in H2 as [Hs2 Hch2].
    set (r2 := rng s2) in Hs2. clearbody r2. subst s2.
    destruct b2.
    + destruct (aiSpeedBranch_spec (set_rng r2 (set_rng r1 s0)) Hc)
        as (cs & r & g' & -> & _ & _ & _ & _ & Hc' & Hsq & _ & Hcount).
      simpl in *. rewrite payImpulse_shape.
      exists g', 0, (Z.of_nat (length cs)),
        (if decide (cs = []) then 0 else - impulseCost s), r.
      split; [| split; [done | split; [done | split; [| split]]]].
      * simpl. do 2 f_equal. subst s0. destruct s. unfold_state.
        case_decide; f_equal; lia.
      * rewrite Hcount, Ipa, Ipn. lia.
      * rewrite Hcount, Iaa, Ian. lia.
      * case_decide; [by right; left |]. right; right. split; [done |].
        by apply Hch2.
    + destruct (aiOrdinaryMove_spec (set_rng r2 (set_rng r1 s0)) Hc)
        as [[-> _]|(x & y & r & g' & Hleg & Hset & ->)].
      * exists (grid s), 0, 0, 0, r2. simpl.
        split; [| split; [done | split; [done | split; [lia | split; [lia |]]]]].
        -- do 2 f_equal. subst s0. destruct s. unfold_state. f_equal; lia.
        -- by right; left.
      * destruct Hleg as (Hb & Hget & _). simpl in *.
        exists g', 0, 1, 1, r.
        split; [| split; [| split; [| split; [| split]]]].
        -- simpl. do 2 f_equal. subst s0. destruct s. unfold_state.
           f_equal; lia.
        -- by eapply grid_set_keeps_covers.
        -- intros m Hm. by eapply grid_set_keeps_square.
        -- rewrite (countGrid_set _ _ _ _ _ _ _ _ Hset Hb Hget), Ipa, Ipn. lia.
        -- rewrite (countGrid_set _ _ _ _ _ _ _ _ Hset Hb Hget), Iaa, Ian. lia.
        -- by left.
Qed.

(** ** The win check at the end of the AI's turn *)

Lemma checkWinCondition_cases s p a t :
  playerCells s = p -> aiCells s = a -> targetCells (gridSize s) = t ->
  checkWinCondition s =
    if decide (t <= p) then
      if decide (t <= a) then set_gameResult GameResult.DRAW s
      else set_gameResult GameResult.PLAYER_WIN s
    else if decide (t <= a) then set_gameResult GameResult.AI_WIN s else s.
Proof.
  intros <- <- <-. unfold checkWinCondition.
  destruct (Z.geb_spec (playerCells s) (targetCells (gridSize s)));
    destruct (Z.geb_spec (aiCells s) (targetCells (gridSize s)));
    repeat case_decide; simpl; done || lia.
Qed.

(** C4.  [target] is the ceiling of [gridSize^2 * 45 / 100] (the least
    integer whose hundredfold reaches [gridSize^2 * 45]).  The win check
    sets DRAW when both counts reach it, PLAYER_WIN when only the
    player's does, AI_WIN when only the AI's does, and otherwise leaves
    the state, hence [gameResult], as it was.  On the 10 x 10 board the
    target is 45, so (45, 44) is a player win, (45, 45) a draw and
    (44, 44) no result.  Every AI turn whose delay has elapsed, on a
    board that fits the storage, resolves, and it ends with this check:
    the turn returns a state whose result is DRAW, PLAYER_WIN or AI_WIN
    according to which of its two counts reach the target, and the
    result of the start of the turn when neither does. *)
Theorem win_condition s target :
  target = targetCells (gridSize s) ->
  (100 * (target - 1) < gridSize s * gridSize s * 45 <= 100 * target) /\
  (target <= playerCells s -> target <= aiCells s ->
     checkWinCondition s = set_gameResult GameResult.DRAW s) /\
  (target <= playerCells s -> aiCells s < target ->
     checkWinCondition s = set_gameResult GameResult.PLAYER_WIN s) /\
  (playerCells s < target -> target <= aiCells s ->
     checkWinCondition s = set_gameResult GameResult.AI_WIN s) /\
  (playerCells s < target -> aiCells s < target -> checkWinCondition s = s) /\
  (gridSize s = 10 ->
     target = 45 /\
     (playerCells s = 45 -> aiCells s = 44 ->
        gameResult (checkWinCondition s) = GameResult.PLAYER_WIN) /\
     (playerCells s = 45 -> aiCells s = 45 ->
        gameResult (checkWinCondition s) = GameResult.DRAW) /\
     (playerCells s = 44 -> aiCells s = 44 ->
        gameResult (checkWinCondition s) = gameResult s)) /\
  (forall dt,
     covers (grid s) (gridSize s) ->
     (aiTimer s + dt >=? AI_DELAY)%f32 = true ->
     exists s1 s',
       processAITurn dt s = Some s' /\
       s' = checkWinCondition s1 /\
       gridSize s1 = gridSize s /\ gameResult s1 = gameResult s /\
       playerTurn s1 = true /\
       gridSize s' = gridSize s /\ playerTurn s' = true /\
       playerCells s' = playerCells s1 /\ aiCells s' = aiCells s1 /\
       gameResult s' =
         if decide (target <= playerCells s') then
           if decide (target <= aiCells s') then GameResult.DRAW
           else GameResult.PLAYER_WIN
         else if decide (target <= aiCells s') then GameResult.AI_WIN
         else gameResult s).
Proof.
  intros ->. split; [apply targetCells_ceiling |].
  pose proof (checkWinCondition_cases s) as Hcase.
  refine (conj _ (conj _ (conj _ (conj _ (conj _ _))))).
  - intros. rewrite (Hcase _ _ _ eq_refl eq_refl eq_refl).
    by rewrite !decide_True.
  - intros. rewrite (Hcase _ _ _ eq_refl eq_refl eq_refl).
    rewrite decide_True by done. rewrite decide_False; [done | lia].
  - intros. rewrite (Hcase _ _ _ eq_refl eq_refl eq_refl).
    rewrite decide_False by lia. by rewrite decide_True.
  - intros. rewrite (Hcase _ _ _ eq_refl eq_refl eq_refl).
    rewrite decide_False by lia. rewrite decide_False; [done | lia].
  - intros Hn. refine (conj _ (conj _ (conj _ _))).
    + by rewrite Hn.
    + intros Hp Ha. rewrite (Hcase 45 44 45); [done | done | done |].
      by rewrite Hn.
    + intros Hp Ha. rewrite (Hcase 45 45 45); [done | done | done |].
      by rewrite Hn.
    + intros Hp Ha. rewrite (Hcase 44 44 45); [done | done | done |].
      by rewrite Hn.
  - intros dt Hc Hfire.
    destruct (processAITurn_result s dt Hc Hfire)
      as (g' & dp & da & dc & r & Hrun & _).
    set (s1 := set_playerTurn true _) in Hrun.
    assert (Hs1 : gridSize s1 = gridSize s /\ gameResult s1 = gameResult s /\
                  playerTurn s1 = true) by done.
    destruct Hs1 as (Hn1 & Hres1 & Hturn1).
    exists s1, (checkWinCondition s1).
    split; [exact Hrun |]. split; [done |].
    do 3 (split; [done |]).
    rewrite (checkWinCondition_cases s1 _ _ _ eq_refl eq_refl eq_refl).
    rewrite Hn1, <- Hres1.
    repeat case_decide; simpl; rewrite ?Hn1, ?Hturn1;
      repeat (split; [done |]);
      repeat case_decide; done || lia.
Qed.

(** X1.  On a board that fits the allocated storage, [processAITurn]
    never leaves the storage, whatever the timer, the charges and the
    generator, and it keeps the counters in step with the board: when
    [playerCells] and [aiCells] are the numbers of PLAYER and AI cells
    before the turn, they are after it; the board size is unchanged. *)
Theorem ai_turn_keeps_counts s dt :
  covers (grid s) (gridSize s) ->
  counted s ->
  exists s',
    processAITurn dt s = Some s' /\
    counted s' /\
    gridSize s' = gridSize s /\
    covers (grid s') (gridSize s').
Proof.
  intros Hc [Hp Ha].
  destruct ((aiTimer s + dt >=? AI_DELAY)%f32) eqn:Hfire.
  - destruct (processAITurn_result s dt Hc Hfire)
      as (g' & dp & da & dc & r & -> & Hc' & _ & Hcp & Hca & _).
    eexists. split; [done |]. win_check_away.
    unfold counted. rewrite !countCells_countGrid in *. simpl.
    rewrite Hcp, Hca. split; [split; lia | done].
  - exists (set_aiTimer (aiTimer s + dt)%f32 s).
    split; [unfold processAITurn; simpl; by rewrite Hfire |].
    by split.
Qed.

(** X2.  The AI's attack impulse (enough charges and the first flip
    showing ATTACK).  It takes at most two cells, without repetition, each
    a PLAYER cell next to an AI cell, and all such cells when there are
    fewer than two.  Exactly these cells become AI; [playerCells] drops
    and [aiCells] grows by their number.  The full [impulseCost] is paid
    as soon as one cell is taken, and nothing when none is: in that case
    the turn is spent without any move, the AI does not fall back to an
    ordinary capture.  The player's charges are untouched and the turn
    returns to the player. *)
Theorem ai_attack_impulse s dt s1 :
  covers (grid s) (gridSize s) ->
  (aiTimer s + dt >=? AI_DELAY)%f32 = true ->
  aiWants ImpulseMode.ATTACK (set_aiTimer (aiTimer s + dt)%f32 s) = (true, s1) ->
  exists cs s',
    processAITurn dt s = Some s' /\
    NoDup cs /\ (length cs <= 2)%nat /\
    (forall x y, (x, y) ∈ cs ->
       borderCell (grid s) (gridSize s) CellState.PLAYER CellState.AI x y) /\
    ((length cs < 2)%nat ->
       forall x y,
         borderCell (grid s) (gridSize s) CellState.PLAYER CellState.AI x y ->
         (x, y) ∈ cs) /\
    (forall x y, grid_get (grid s') x y =
       if decide ((x, y) ∈ cs) then Some CellState.AI
       else grid_get (grid s) x y) /\
    playerCells s' = playerCells s - Z.of_nat (length cs) /\
    aiCells s' = aiCells s + Z.of_nat (length cs) /\
    impulseCost s <= aiCharges s /\
    aiCharges s' = (if decide (cs = []) then aiCharges s
                    else aiCharges s - impulseCost s) /\
    playerCharges s' = playerCharges s /\
    playerTurn s' = true.
Proof.
  intros Hc Hfire H1. unfold processAITurn. simpl. rewrite Hfire, H1.
  apply aiWants_shape in H1 as [Hs1 Hch1].
  set (r1 := rng s1) in Hs1. clearbody r1. subst s1.
  destruct (aiAttackBranch_spec
              (set_rng r1 (set_aiTimer (aiTimer s + dt)%f32 s)) Hc)
    as (cs & r & g' & -> & Hnd & Hlen & Hborder & Hall & _ & _ & Hgrid & _).
  simpl in *. exists cs. eexists. split; [done |].
  rewrite payImpulse_shape. win_check_away.
  simpl. do 4 (split; [done |]). split; [done |].
  split; [done |]. split; [done |]. split; [by apply Hch1 |]. done.
Qed.

(** X3.  The AI's speed impulse (enough charges, the first flip not
    ATTACK and the second flip SPEED).  It takes at most three cells,
    without repetition, each a legal AI capture, and all legal captures
    when there are fewer than three.  Exactly these cells become AI and
    [aiCells] grows by their number; [playerCells] is unchanged.  The
    full [impulseCost] is paid as soon as one cell is taken, nothing when
    none is, and no charge is gained. *)
Theorem ai_speed_impulse s dt s1 s2 :
  covers (grid s) (gridSize s) ->
  (aiTimer s + dt >=? AI_DELAY)%f32 = true ->
  aiWants ImpulseMode.ATTACK (set_aiTimer (aiTimer s + dt)%f32 s) = (false, s1) ->
  aiWants ImpulseMode.SPEED s1 = (true, s2) ->
  exists cs s',
    processAITurn dt s = Some s' /\
    NoDup cs /\ (length cs <= 3)%nat /\
    (forall x y, (x, y) ∈ cs -> legalTarget s CellState.AI x y) /\
    ((length cs < 3)%nat ->
       forall x y, legalTarget s CellState.AI x y -> (x, y) ∈ cs) /\
    (forall x y, grid_get (grid s') x y =
       if decide ((x, y) ∈ cs) then Some CellState.AI
       else grid_get (grid s) x y) /\
    playerCells s' = playerCells s /\
    aiCells s' = aiCells s + Z.of_nat (length cs) /\
    impulseCost s <= aiCharges s /\
    aiCharges s' = (if decide (cs = []) then aiCharges s
                    else aiCharges s - impulseCost s) /\
    playerCharges s' = playerCharges s /\
    playerTurn s' = true.
Proof.
  intros Hc Hfire H1 H2. unfold processAITurn. simpl. rewrite Hfire, H1, H2.
  apply aiWants_shape in H1 as [Hs1 _].
  set (r1 := rng s1) in Hs1. clearbody r1. subst s1.
  apply aiWants_shape in H2 as [Hs2 Hch2].
  set (r2 := rng s2) in Hs2. clearbody r2. subst s2.
  destruct (aiSpeedBranch_spec
              (set_rng r2 (set_rng r1 (set_aiTimer (aiTimer s + dt)%f32 s))) Hc)
    as (cs & r & g' & -> & Hnd & Hlen & Hlegal & Hall & _ & _ & Hgrid & _).
  simpl in *. exists cs. eexists. split; [done |].
  rewrite payImpulse_shape. win_check_away.
  simpl. do 4 (split; [done |]). split; [done |].
  split; [done |]. split; [done |]. split; [by apply Hch2 |]. done.
Qed.

(** ** The player's input *)

Lemma handleInput_blocks inp s :
  handleInput inp s =
    match currentState s with
    | GameState.PLAYING => s1 ← ordinaryInput inp s; impulseInput inp s1
    | _ => Some s
    end.
Proof. reflexivity. Qed.

(** An ordinary capture, written out. *)
Lemma playerCapture_spec s x y :
  covers (grid s) (gridSize s) ->
  legalTarget s CellState.PLAYER x y ->
  exists g',
    grid_set (grid s) x y CellState.PLAYER = Some g' /\
    playerCapture x y s =
      Some (set_aiTimer Float32.zero (set_playerTurn false
             (set_playerCharges (playerCharges s + 1)
               (set_playerCells (playerCells s + 1) (set_grid g' s))))) /\
    covers g' (gridSize s) /\
    (forall m, square (grid s) m -> square g' m) /\
    countGrid g' (gridSize s) CellState.PLAYER
      = countGrid (grid s) (gridSize s) CellState.PLAYER + 1 /\
    countGrid g' (gridSize s) CellState.AI
      = countGrid (grid s) (gridSize s) CellState.AI.
Proof.
  intros Hc (Hb & Hget & _).
  destruct (grid_set_covers _ _ x y CellState.PLAYER Hc Hb) as [g' Hset].
  exists g'. split; [done |].
  split; [unfold playerCapture, writeCell; by rewrite Hset |].
  split; [by eapply grid_set_keeps_covers |].
  split; [intros m Hm; by eapply grid_set_keeps_square |].
  rewrite !(countGrid_set _ _ _ _ _ _ _ _ Hset Hb Hget).
  destruct (indicator_cases CellState.NEUTRAL)
    as (Ipp & Iaa & Ipa & Iap & Ipn & Ian & _).
  rewrite Ipp, Ipn, Iap, Ian. lia.
Qed.

(** The click part of the first block: either nothing, or the capture of
    a legal target. *)
Lemma click_capture_spec inp s :
  covers (grid s) (gridSize s) ->
  exists s1,
    match click inp with
    | Some (gridX, gridY) =>
        if inBounds (gridSize s) gridX gridY then
          c ← grid_get (grid s) gridX gridY;
          if decide (c = CellState.NEUTRAL) then
            valid ← isValidMove s gridX gridY CellState.PLAYER;
            if valid : bool then playerCapture gridX gridY s
            else Some s
          else Some s
        else Some s
    | None => Some s
    end = Some s1 /\
    (s1 = s \/
     exists x y g',
       click inp = Some (x, y) /\
       legalTarget s CellState.PLAYER x y /\
       playerCapture x y s = Some s1 /\
       s1 = set_aiTimer Float32.zero (set_playerTurn false
              (set_playerCharges (playerCharges s + 1)
                (set_playerCells (playerCells s + 1) (set_grid g' s)))) /\
       covers g' (gridSize s) /\
       (forall m, square (grid s) m -> square g' m) /\
       countGrid g' (gridSize s) CellState.PLAYER
         = countGrid (grid s) (gridSize s) CellState.PLAYER + 1 /\
       countGrid g' (gridSize s) CellState.AI
         = countGrid (grid s) (gridSize s) CellState.AI).
Proof.
  intros Hc.
  destruct (click inp) as [[x y]|]; [| by exists s; split; [| left]].
  destruct (inBounds (gridSize s) x y) eqn:Hb; [| by exists s; split; [| left]].
  destruct (grid_get_covers _ _ x y Hc Hb) as [c Hget]. rewrite Hget. simpl.
  case_decide; [| by exists s; split; [| left]]. subst c.
  destruct (isValidMove_spec s x y CellState.PLAYER Hc) as (v & -> & Hiff).
  simpl. destruct v; [| by exists s; split; [| left]].
  assert (Hleg : legalTarget s CellState.PLAYER x y) by by apply Hiff.
  destruct (playerCapture_spec s x y Hc Hleg)
    as (g' & _ & Hcap & Hc' & Hsq & Hp & Ha).
  eexists. split; [exact Hcap |]. right. exists x, y, g'.
  by repeat (split; [done |]).
Qed.

(** The key part of the first block: nothing, or an impulse mode entered
    with an empty selection, which takes a key and enough charges. *)
Lemma key_part_spec inp s :
  let s2 := if playerCharges s >=? impulseCost s then
              if keyA inp then startImpulseMode ImpulseMode.ATTACK s
              else if keyS inp then startImpulseMode ImpulseMode.SPEED s
              else s
            else s in
  s2 = s \/
  (exists mode,
     mode <> ImpulseMode.NONE /\
     s2 = set_selectedCells []
            (set_currentImpulseMode mode (set_impulseModeActive true s)) /\
     impulseCost s <= playerCharges s /\
     (keyA inp = true \/ keyS inp = true)).
Proof.
  simpl. unfold startImpulseMode.
  destruct (Z.geb_spec (playerCharges s) (impulseCost s)); [| by left].
  destruct (keyA inp) eqn:HA.
  - right. exists ImpulseMode.ATTACK. by repeat split; auto.
  - destruct (keyS inp) eqn:HS; [| by left].
    right. exists ImpulseMode.SPEED. by repeat split; auto.
Qed.

(** What selecting a valid target does, for either impulse: [limit] is
    the size of a full selection, [dp] and [da] the moves of the two
    counters per captured cell. *)
Lemma select_core (limit dp da : Z) (from : CellState.t) s x y :
  covers (grid s) (gridSize s) ->
  Forall (fun p => inBounds (gridSize s) p.1 p.2 = true) (selectedCells s) ->
  NoDup (selectedCells s) ->
  inBounds (gridSize s) x y = true ->
  exists s',
    (let s1 := selectTarget limit x y s in
     if Z.of_nat (length (selectedCells s1)) >=? limit
     then s2 ← flipCells CellState.PLAYER dp da (selectedCells s1) s1;
          Some (impulseDone s2)
     else Some s1) = Some s' /\
    (currentState s' = currentState s /\ gameResult s' = gameResult s /\
     gridSize s' = gridSize s /\ impulseCost s' = impulseCost s /\
     aiCharges s' = aiCharges s /\
     selectedGridSize s' = selectedGridSize s) /\
    covers (grid s') (gridSize s) /\
    (forall m, square (grid s) m -> square (grid s') m) /\
    NoDup (selectedCells s') /\
    Forall (fun p => inBounds (gridSize s) p.1 p.2 = true) (selectedCells s') /\
    (s' = s \/
     (((x, y) ∉ selectedCells s) /\
      s' = set_selectedCells (selectedCells s ++ [(x, y)]) s /\
      Z.of_nat (length (selectedCells s)) + 1 < limit) \/
     (impulseModeActive s' = false /\
      currentImpulseMode s' = ImpulseMode.NONE /\
      selectedCells s' = [] /\ playerTurn s' = false /\
      playerCharges s' = playerCharges s - impulseCost s /\
      (grid_get (grid s) x y = Some from ->
       Forall (fun p => grid_get (grid s) p.1 p.2 = Some from)
              (selectedCells s) ->
       dp = indicator CellState.PLAYER CellState.PLAYER
            - indicator CellState.PLAYER from ->
       da = indicator CellState.AI CellState.PLAYER
            - indicator CellState.AI from ->
       counted s -> counted s'))).
Proof.
  intros Hc Hb Hnd Hxy.
  set (s1 := selectTarget limit x y s).
  assert (Hs1 : (s1 = s) \/
                (((x, y) ∉ selectedCells s) /\
                 Z.of_nat (length (selectedCells s)) < limit /\
                 s1 = set_selectedCells (selectedCells s ++ [(x, y)]) s)).
  { subst s1. unfold selectTarget.
    destruct (alreadySelected x y (selectedCells s)) eqn:Hsel; [by left |].
    apply alreadySelected_false in Hsel. simpl.
    destruct (Z.ltb_spec (Z.of_nat (length (selectedCells s))) limit);
      [by right | by left]. }
  assert (Hgrid1 : grid s1 = grid s /\ gridSize s1 = gridSize s).
  { by destruct Hs1 as [->|(_ & _ & ->)]. }
  destruct Hgrid1 as [Hg1 Hn1].
  assert (Hnd1 : NoDup (selectedCells s1)).
  { destruct Hs1 as [->|(Hnin & _ & ->)]; [done |]. simpl.
    apply NoDup_app. split; [done |]. split; [| apply NoDup_singleton].
    intros p Hp Hp'%list_elem_of_singleton. by subst. }
  assert (Hb1 : Forall (fun p => inBounds (gridSize s) p.1 p.2 = true)
                       (selectedCells s1)).
  { destruct Hs1 as [->|(_ & _ & ->)]; [done |]. simpl.
    apply Forall_app. split; [done |]. by apply Forall_singleton. }
  simpl. fold s1.
  destruct (Z.geb_spec (Z.of_nat (length (selectedCells s1))) limit) as [Hfull|Hless].
  - assert (Hc1 : covers (grid s1) (gridSize s1)) by (by rewrite Hg1, Hn1).
    assert (Hb1' : Forall (fun p => inBounds (gridSize s1) p.1 p.2 = true)
                          (selectedCells s1)) by (by rewrite Hn1).
    destruct (flipCells_spec CellState.PLAYER dp da (selectedCells s1) s1
                Hc1 Hb1') as (g' & -> & Hc' & Hsq & _ & Hcount).
    simpl. eexists. split; [done |].
    rewrite Hn1 in Hc'. rewrite Hg1 in Hsq.
    split; [simpl; rewrite Hn1;
            by destruct Hs1 as [->|(_ & _ & ->)] |].
    split; [done |]. split; [done |].
    split; [apply NoDup_nil_2 |]. split; [apply Forall_nil_2 |].
    right; right. simpl.
    split; [done |]. split; [done |]. split; [done |]. split; [done |].
    split; [by destruct Hs1 as [->|(_ & _ & ->)] |].
    intros Hfrom Hall -> -> [Hp Ha].
    assert (Hall1 : Forall (fun p => grid_get (grid s1) p.1 p.2 = Some from)
                           (selectedCells s1)).
    { rewrite Hg1. destruct Hs1 as [->|(_ & _ & ->)]; [done |]. simpl.
      apply Forall_app. split; [done |]. by apply Forall_singleton. }
    unfold counted. rewrite !countCells_countGrid in *.
    unfold impulseDone, finishImpulseMode. simpl.
    rewrite !(Hcount from Hnd1 Hall1), Hg1, Hn1.
    assert (playerCells s1 = playerCells s /\ aiCells s1 = aiCells s)
      as [-> ->] by (by destruct Hs1 as [->|(_ & _ & ->)]).
    split; lia.
  - exists s1. split; [done |].
    split; [by destruct Hs1 as [->|(_ & _ & ->)] |].
    split; [by rewrite Hg1 |]. split; [by rewrite Hg1 |].
    split; [done |]. split; [done |].
    destruct Hs1 as [->|(Hnin & Hlt & Heq)]; [by left |].
    right; left. split; [done |]. split; [done |].
    rewrite Heq in Hless. simpl in Hless. rewrite length_app in Hless.
    simpl in Hless. lia.
Qed.

(** What [handleImpulseCellSelection] does on a cell of the board:
    nothing, or one more target recorded, or the impulse completed. *)
Lemma select_spec s x y :
  covers (grid s) (gridSize s) ->
  Forall (fun p => inBounds (gridSize s) p.1 p.2 = true) (selectedCells s) ->
  NoDup (selectedCells s) ->
  inBounds (gridSize s) x y = true ->
  exists s',
    handleImpulseCellSelection x y s = Some s' /\
    (currentState s' = currentState s /\ gameResult s' = gameResult s /\
     gridSize s' = gridSize s /\ impulseCost s' = impulseCost s /\
     aiCharges s' = aiCharges s /\
     selectedGridSize s' = selectedGridSize s) /\
    covers (grid s') (gridSize s) /\
    (forall m, square (grid s) m -> square (grid s') m) /\
    NoDup (selectedCells s') /\
    Forall (fun p => inBounds (gridSize s) p.1 p.2 = true) (selectedCells s') /\
    (s' = s \/
     (((x, y) ∉ selectedCells s) /\
      s' = set_selectedCells (selectedCells s ++ [(x, y)]) s /\
      ((currentImpulseMode s = ImpulseMode.ATTACK /\
        grid_get (grid s) x y = Some CellState.AI /\
        (length (selectedCells s) + 1 < 2)%nat) \/
       (currentImpulseMode s = ImpulseMode.SPEED /\
        grid_get (grid s) x y = Some CellState.NEUTRAL /\
        (length (selectedCells s) + 1 < 3)%nat))) \/
     (currentImpulseMode s <> ImpulseMode.NONE /\
      impulseModeActive s' = false /\
      currentImpulseMode s' = ImpulseMode.NONE /\
      selectedCells s' = [] /\ playerTurn s' = false /\
      playerCharges s' = playerCharges s - impulseCost s /\
      (selectionValid s -> counted s -> counted s'))).
Proof.
  intros Hc Hb Hnd Hxy.
  unfold handleImpulseCellSelection.
  destruct (grid_get_covers _ _ x y Hc Hxy) as [c Hget].
  destruct (currentImpulseMode s) eqn:Hmode.
  - exists s. do 6 (split; [done |]). by left.
  - rewrite Hget. simpl. case_decide as Hai; [| exists s; do 6 (split; [done |]); by left]. subst c.
    destruct (anyOwned_adjacent (grid s) (gridSize s) x y CellState.PLAYER Hc)
      as (found & -> & _).
    simpl. destruct found; [| exists s; do 6 (split; [done |]); by left].
    rewrite attackFlip_flipCells.
    destruct (select_core 2 1 (-1) CellState.AI s x y Hc Hb Hnd Hxy)
      as (s' & Hrun & Hsame & Hc' & Hsq & Hnd' & Hb' & Hcase).
    cbv zeta in Hrun. exists s'. split; [exact Hrun |].
    do 5 (split; [done |]).
    destruct Hcase as [->|[(Hnin & -> & Hlt)|(Ha & Hm & Hs & Ht & Hch & Hcnt)]].
    + by left.
    + right; left. split; [done |]. split; [done |]. left.
      split; [done |]. split; [done |]. lia.
    + right; right. do 6 (split; [done |]).
      intros (_ & Hvalid & _) Hcounted.
      apply Hcnt; [done | by apply Hvalid | done | done | done].
  - rewrite Hget. simpl. case_decide as Hne; [| exists s; do 6 (split; [done |]); by left]. subst c.
    destruct (isValidMove_spec s x y CellState.PLAYER Hc) as (valid & -> & _).
    simpl. destruct valid; [| exists s; do 6 (split; [done |]); by left].
    rewrite speedFlip_flipCells.
    destruct (select_core 3 1 0 CellState.NEUTRAL s x y Hc Hb Hnd Hxy)
      as (s' & Hrun & Hsame & Hc' & Hsq & Hnd' & Hb' & Hcase).
    cbv zeta in Hrun. exists s'. split; [exact Hrun |].
    do 5 (split; [done |]).
    destruct Hcase as [->|[(Hnin & -> & Hlt)|(Ha & Hm & Hs & Ht & Hch & Hcnt)]].
    + by left.
    + right; left. split; [done |]. split; [done |]. right.
      split; [done |]. split; [done |]. lia.
    + right; right. do 6 (split; [done |]).
      intros (_ & _ & Hvalid) Hcounted.
      apply Hcnt; [done | by apply Hvalid | done | done | done].
Qed.

(** What the first block of [handleInput] does. *)
Lemma ordinaryInput_spec inp s :
  covers (grid s) (gridSize s) ->
  exists s1,
    ordinaryInput inp s = Some s1 /\
    (currentState s1 = currentState s /\ gameResult s1 = gameResult s /\
     gridSize s1 = gridSize s /\ impulseCost s1 = impulseCost s /\
     aiCharges s1 = aiCharges s /\
     selectedGridSize s1 = selectedGridSize s) /\
    covers (grid s1) (gridSize s) /\
    (forall m, square (grid s) m -> square (grid s1) m) /\
    (counted s -> counted s1) /\
    playerCharges s <= playerCharges s1 /\
    (playerTurn s && negb (impulseModeActive s) = false -> s1 = s) /\
    ((impulseModeActive s1 = impulseModeActive s /\
      selectedCells s1 = selectedCells s /\
      currentImpulseMode s1 = currentImpulseMode s) \/
     (impulseModeActive s1 = true /\ selectedCells s1 = [] /\
      currentImpulseMode s1 <> ImpulseMode.NONE /\
      impulseCost s <= playerCharges s1 /\
      (keyA inp = true \/ keyS inp = true))) /\
    (playerTurn s1 = playerTurn s \/
     (playerTurn s1 = false /\ click inp <> None)).
Proof.
  intros Hc. unfold ordinaryInput.
  destruct (playerTurn s && negb (impulseModeActive s)) eqn:Hguard.
  2:{ exists s. do 6 (split; [done |]). split; [done |].
      split; [by left | by left]. }
  destruct (click_capture_spec inp s Hc) as (s1 & -> & Hcase). simpl.
  eexists. split; [done |].
  assert (Hs1 :
    (currentState s1 = currentState s /\ gameResult s1 = gameResult s /\
     gridSize s1 = gridSize s /\ impulseCost s1 = impulseCost s /\
     aiCharges s1 = aiCharges s /\
     selectedGridSize s1 = selectedGridSize s) /\
    covers (grid s1) (gridSize s) /\
    (forall m, square (grid s) m -> square (grid s1) m) /\
    (counted s -> counted s1) /\
    playerCharges s <= playerCharges s1 /\
    impulseModeActive s1 = impulseModeActive s /\
    selectedCells s1 = selectedCells s /\
    currentImpulseMode s1 = currentImpulseMode s /\
    (playerTurn s1 = playerTurn s \/
     (playerTurn s1 = false /\ click inp <> None))).
  { destruct Hcase as [->|(x & y & g' & Hclick & _ & _ & -> & Hc' & Hsq & Hp & Ha)].
    - do 3 (split; [done |]). split; [done |]. split; [lia |].
      do 3 (split; [done |]). by left.
    - simpl. do 3 (split; [done |]).
      split.
      { intros [Hcp Hca]. unfold counted.
        rewrite !countCells_countGrid in *. simpl. rewrite Hp, Ha. lia. }
      split; [lia |]. do 3 (split; [done |]). right. split; [done |].
      by rewrite Hclick. }
  destruct Hs1 as (Hsame & Hc1 & Hsq1 & Hcnt & Hch & Hact & Hsel & Hmode & Hturn).
  destruct (key_part_spec inp s1) as [->|(mode & Hm & -> & Hcost & Hkey)].
  - do 5 (split; [done |]). split; [done |]. split; [| done]. by left.
  - simpl. do 5 (split; [done |]). split; [done |]. split; [| done].
    right. do 2 (split; [done |]). split; [done |].
    destruct Hsame as (_ & _ & _ & <- & _). by split.
Qed.

(** X4.  On a board that fits the allocated storage, with a pending
    selection that lies on the board, is free of repetition and whose
    cells still hold what the active mode selects, [handleInput] never
    leaves the storage and keeps the counters in step with the board,
    for every input of a frame: an ordinary capture, the entry into an
    impulse mode, the selection of a target and the completion of either
    impulse all preserve that [playerCells] and [aiCells] are the numbers
    of PLAYER and AI cells. *)
Theorem player_input_keeps_counts s inp :
  covers (grid s) (gridSize s) ->
  Forall (fun p => inBounds (gridSize s) p.1 p.2 = true) (selectedCells s) ->
  selectionValid s ->
  counted s ->
  exists s',
    handleInput inp s = Some s' /\
    counted s' /\
    gridSize s' = gridSize s /\
    covers (grid s') (gridSize s').
Proof.
  intros Hc Hb Hvalid Hcounted. rewrite handleInput_blocks.
  destruct (currentState s); [by exists s | | by exists s].
  destruct (ordinaryInput_spec inp s Hc)
    as (s1 & -> & (_ & _ & Hn & _) & Hc1 & _ & Hcnt & _ & Hskip & Hmode & _).
  simpl. unfold impulseInput.
  specialize (Hcnt Hcounted).
  destruct (impulseModeActive s1) eqn:Hact1;
    [| exists s1; by rewrite Hn].
  destruct (click inp) as [[x y]|]; [| exists s1; by rewrite Hn].
  destruct (inBounds (gridSize s1) x y) eqn:Hxy; [| exists s1; by rewrite Hn].
  assert (Hpre : Forall (fun p => inBounds (gridSize s1) p.1 p.2 = true)
                        (selectedCells s1) /\ selectionValid s1).
  { destruct Hmode as [(Ha & Hs & Hm)|(_ & Hs & _)].
    - symmetry in Ha.
      rewrite (Hskip ltac:(by rewrite Ha, andb_false_r)). done.
    - unfold selectionValid. rewrite Hs. split; [apply Forall_nil_2 |].
      split; [apply NoDup_nil_2 |]. split; intros; apply Forall_nil_2. }
  destruct Hpre as [Hb1 Hvalid1]. rewrite <- Hn in Hc1.
  destruct (select_spec s1 x y Hc1 Hb1 (proj1 Hvalid1) Hxy)
    as (s' & -> & (_ & _ & Hn' & _) & Hc' & _ & _ & _ & Hcase).
  exists s'. split; [done |].
  split; [| split; [congruence | by rewrite Hn']].
  destruct Hcase as [->|[(_ & -> & _)|(_ & _ & _ & _ & _ & _ & Hdone)]];
    [done | done | by apply Hdone].
Qed.

(** ** A new session *)

Lemma clearCells_flipCells cs s :
  clearCells cs s = flipCells CellState.NEUTRAL 0 0 cs s.
Proof.
  revert s. induction cs as [|[x y] cs IH]; intros s; [done |].
  simpl. destruct (writeCell x y CellState.NEUTRAL s) as [s1|]; [| done].
  simpl. rewrite IH. f_equal. destruct s1. unfold_state. f_equal; lia.
Qed.

Lemma countGrid_none g n c :
  (forall x y, inBounds n x y = true -> grid_get g x y <> Some c) ->
  countGrid g n c = 0.
Proof.
  intros H. unfold countGrid.
  pose proof (cells_inBounds n) as Hb.
  induction (cells n) as [|[a b] l IH]; [done |].
  apply Forall_cons in Hb as [Hab Hb]. simpl in *.
  rewrite bool_decide_eq_false_2 by by apply H. by apply IH.
Qed.

(** [resetGame] on a board of side at least 2, written out. *)
Lemma resetGame_board s :
  covers (grid s) (gridSize s) ->
  2 <= gridSize s ->
  exists g',
    resetGame s =
      Some (mkState GameState.PLAYING GameResult.NONE (gridSize s)
              (impulseCost s) true false ImpulseMode.NONE
              (selectedGridSize s) g' 1 1 0 0 (aiTimer s) (rng s) []) /\
    (forall x y, grid_get g' x y =
       if decide ((x, y) = (gridSize s - 1, gridSize s - 1))
       then Some CellState.AI
       else if decide ((x, y) = (0, 0)) then Some CellState.PLAYER
       else if inBounds (gridSize s) x y then Some CellState.NEUTRAL
       else grid_get (grid s) x y) /\
    countGrid g' (gridSize s) CellState.PLAYER = 1 /\
    countGrid g' (gridSize s) CellState.AI = 1 /\
    covers g' (gridSize s) /\
    (forall m, square (grid s) m -> square g' m).
Proof.
  intros Hc Hn. unfold resetGame. rewrite clearCells_flipCells.
  destruct (flipCells_spec CellState.NEUTRAL 0 0 (cells (gridSize s)) s Hc
              (cells_inBounds _)) as (g0 & -> & Hc0 & Hsq0 & Hg0 & _).
  simpl.
  assert (Hb00 : inBounds (gridSize s) 0 0 = true)
    by (apply inBounds_spec; lia).
  assert (Hbnn : inBounds (gridSize s) (gridSize s - 1) (gridSize s - 1) = true)
    by (apply inBounds_spec; lia).
  destruct (grid_set_covers _ _ 0 0 CellState.PLAYER Hc0 Hb00) as [g1 Hg1].
  pose proof (grid_set_keeps_covers _ _ _ _ _ _ Hg1 Hc0) as Hc1.
  destruct (grid_set_covers _ _ (gridSize s - 1) (gridSize s - 1)
              CellState.AI Hc1 Hbnn) as [g2 Hg2].
  pose proof (grid_set_keeps_covers _ _ _ _ _ _ Hg2 Hc1) as Hc2.
  unfold writeCell. simpl. rewrite Hg1. simpl. rewrite Hg2. simpl.
  exists g2. split; [by destruct s |].
  assert (Hcell0 : forall x y, grid_get g0 x y =
            if inBounds (gridSize s) x y then Some CellState.NEUTRAL
            else grid_get (grid s) x y).
  { intros x y. rewrite Hg0. destruct (inBounds (gridSize s) x y) eqn:Hxy.
    - rewrite decide_True; [done | by apply cells_spec].
    - rewrite decide_False; [done |]. rewrite cells_spec. by rewrite Hxy. }
  assert (Hget00 : grid_get g0 0 0 = Some CellState.NEUTRAL)
    by (by rewrite Hcell0, Hb00).
  assert (Hgetnn : grid_get g1 (gridSize s - 1) (gridSize s - 1)
                   = Some CellState.NEUTRAL).
  { rewrite (grid_set_other _ _ _ _ _ _ _ Hg1) by (intros [= ? ?]; lia).
    by rewrite Hcell0, Hbnn. }
  assert (Hzero : forall c, c <> CellState.NEUTRAL ->
            countGrid g0 (gridSize s) c = 0).
  { intros c Hne. apply countGrid_none. intros x y Hxy.
    rewrite Hcell0, Hxy. congruence. }
  destruct (indicator_cases CellState.NEUTRAL)
    as (Ipp & Iaa & Ipa & Iap & Ipn & Ian & _).
  split; [| split; [| split; [| split; [done |]]]].
  - intros x y. case_decide as Hnn.
    + injection Hnn as -> ->. by eapply grid_set_same.
    + rewrite (grid_set_other _ _ _ _ _ _ _ Hg2 Hnn). case_decide as H00.
      * injection H00 as -> ->. by eapply grid_set_same.
      * rewrite (grid_set_other _ _ _ _ _ _ _ Hg1 H00). apply Hcell0.
  - rewrite (countGrid_set _ _ _ _ _ _ _ _ Hg2 Hbnn Hgetnn).
    rewrite (countGrid_set _ _ _ _ _ _ _ _ Hg1 Hb00 Hget00).
    rewrite Hzero by done. rewrite Ipp, Ipa, Ipn. lia.
  - rewrite (countGrid_set _ _ _ _ _ _ _ _ Hg2 Hbnn Hgetnn).
    rewrite (countGrid_set _ _ _ _ _ _ _ _ Hg1 Hb00 Hget00).
    rewrite Hzero by done. rewrite Iaa, Iap, Ian. lia.
  - intros m Hm. eapply grid_set_keeps_square; [exact Hg2 |].
    eapply grid_set_keeps_square; [exact Hg1 |]. by apply Hsq0.
Qed.

(** ** Runs without a click and an impulse key in one frame *)

Lemma selectionValid_nil s : selectedCells s = [] -> selectionValid s.
Proof.
  intros H. unfold selectionValid. rewrite H.
  split; [apply NoDup_nil_2 |]. split; intros; apply Forall_nil_2.
Qed.

Lemma Good_handleInput inp s s' :
  Good s -> separate inp -> handleInput inp s = Some s' -> Good s'.
Proof.
  intros HG Hsep H. pose proof HG as (HI & Hcnt & Hvalid & Hturn & Hempty).
  pose proof (Inv_handleInput inp s s' HI H) as HI'.
  pose proof (Inv_covers s HI) as Hc.
  destruct HI as (_ & _ & Hb & _).
  rewrite handleInput_blocks in H.
  destruct (currentState s);
    [injection H as <-; exact HG | | injection H as <-; exact HG].
  destruct (ordinaryInput_spec inp s Hc)
    as (s1 & Hrun & (_ & _ & Hn & _) & Hc1 & _ & Hcnt1 & _ & Hskip & Hmode & Ht).
  rewrite Hrun in H. simpl in H. unfold impulseInput in H.
  specialize (Hcnt1 Hcnt).
  destruct (playerTurn s && negb (impulseModeActive s)) eqn:Hguard.
  - apply andb_true_iff in Hguard as [Hpt Hina].
    apply negb_true_iff in Hina. specialize (Hempty Hina).
    destruct Hmode as [(Ha & Hs & Hm)|(Ha & Hs & _ & _ & Hkey)].
    + rewrite Ha, Hina in H. injection H as <-.
      split; [done |]. split; [done |].
      split; [apply selectionValid_nil; congruence |].
      split; [rewrite Ha, Hina; done | intros _; congruence].
    + assert (Hnone : click inp = None).
      { destruct Hsep as [?|[HA HS]]; [done |].
        destruct Hkey; congruence. }
      rewrite Ha, Hnone in H. injection H as <-.
      split; [done |]. split; [done |].
      split; [by apply selectionValid_nil |].
      split; [| rewrite Ha; done].
      intros _. destruct Ht as [->|[_ ?]]; done.
  - rewrite (Hskip eq_refl) in H. clear s1 Hrun Hn Hc1 Hcnt1 Hskip Hmode Ht.
    destruct (impulseModeActive s) eqn:Hact;
      [| injection H as <-; exact HG].
    destruct (click inp) as [[x y]|]; [| injection H as <-; exact HG].
    destruct (inBounds (gridSize s) x y) eqn:Hxy;
      [| injection H as <-; exact HG].
    destruct (select_spec s x y Hc Hb (proj1 Hvalid) Hxy)
      as (s2 & Hsel & _ & _ & _ & Hnd2 & _ & Hcase).
    rewrite Hsel in H. injection H as <-.
    destruct Hcase as [->|[(Hnin & -> & Hkind)|(_ & Ha & Hm & Hs & _ & _ & Hdone)]].
    + exact HG.
    + split; [done |]. split; [done |].
      split; [| simpl; rewrite Hact; split; [intros _; by apply Hturn | done]].
      destruct Hvalid as (_ & Hva & Hvs). unfold selectionValid. simpl.
      split; [done |].
      destruct Hkind as [(Hmode & Hget & _)|(Hmode & Hget & _)].
      * split; [| intros; congruence]. intros _.
        apply Forall_app. split; [by apply Hva |]. by apply Forall_singleton.
      * split; [intros; congruence |]. intros _.
        apply Forall_app. split; [by apply Hvs |]. by apply Forall_singleton.
    + split; [done |]. split; [by apply Hdone |].
      split; [by apply selectionValid_nil |].
      split; [rewrite Ha; done | done].
Qed.

Lemma Good_reset s s' :
  covers (grid s) (gridSize s) -> 2 <= gridSize s ->
  resetGame s = Some s' ->
  counted s' /\ selectedCells s' = [] /\ impulseModeActive s' = false.
Proof.
  intros Hc Hn H.
  destruct (resetGame_board s Hc Hn) as (g' & Hrun & _ & Hp & Ha & _).
  rewrite Hrun in H. injection H as <-.
  unfold counted. rewrite !countCells_countGrid. simpl. by rewrite Hp, Ha.
Qed.

Lemma Good_startFromMenu s s' :
  Inv s -> startFromMenu s = Some s' -> Good s'.
Proof.
  intros HI H. pose proof (Inv_startFromMenu s s' HI H) as HI'.
  unfold startFromMenu in H. apply bind_Some in H as (s1 & Hreset & [= <-]).
  set (s0 := if decide (selectedGridSize s = 0) then _ else _) in *.
  assert (Hsq0 : square (grid s0) 10 /\
                 (gridSize s0 = 7 \/ gridSize s0 = 10 \/ gridSize s0 = 12)).
  { destruct HI as (Hsq & Hn & _).
    subst s0. repeat case_decide; simpl; split; try done; lia. }
  destruct Hsq0 as [Hsq0 Hn0].
  destruct (resetGame_Some _ _ Hreset Hsq0 ltac:(lia)) as (Hle & _).
  destruct (Good_reset s0 s1 (square_covers _ _ _ Hsq0 Hle) ltac:(lia) Hreset)
    as (Hcnt & Hsel & Hact).
  split; [done |]. split; [done |].
  split; [by apply selectionValid_nil |].
  split; [simpl; rewrite Hact; done | done].
Qed.

Lemma Good_updateGame inp s s' :
  Good s -> updateGame inp s = Some s' -> Good s'.
Proof.
  intros HG H. pose proof HG as (HI & Hcnt & Hvalid & Hturn & Hempty).
  pose proof (Inv_updateGame inp s s' HI H) as HI'.
  unfold updateGame in H. destruct (currentState s).
  - unfold updateMenu in H. apply bind_Some in H as (s1 & H1 & H2).
    set (s0 := match menuClick inp with
               | Some Button7 => set_selectedGridSize 0 s
               | Some Button10 => set_selectedGridSize 1 s
               | Some Button12 => set_selectedGridSize 2 s
               | _ => s
               end) in *.
    assert (HG0 : Good s0).
    { subst s0. destruct (menuClick inp) as [[]|]; exact HG. }
    assert (HG1 : Good s1).
    { case_decide; [| by injection H1 as <-].
      eapply Good_startFromMenu; [| exact H1]. by destruct HG0. }
    destruct (keySpace inp); [| by injection H2 as <-].
    eapply Good_startFromMenu; [| exact H2]. by destruct HG1.
  - case_decide; [injection H as <-; exact HG |].
    destruct (playerTurn s) eqn:Hpt; [injection H as <-; exact HG |].
    assert (Hina : impulseModeActive s = false).
    { destruct (impulseModeActive s); [| done]. by specialize (Hturn eq_refl). }
    specialize (Hempty Hina).
    destruct ((aiTimer s + deltaTime inp >=? AI_DELAY)%f32) eqn:Hfire.
    + destruct (processAITurn_result s (deltaTime inp) (Inv_covers s HI) Hfire)
        as (g' & dp & da & dc & r & Hrun & _ & _ & Hcp & Hca & _).
      rewrite Hrun in H. injection H as <-. win_check_away.
      split; [done |]. split.
      { destruct Hcnt as [Hp Ha]. unfold counted.
        rewrite !countCells_countGrid in *. simpl. rewrite Hcp, Hca. lia. }
      split; [by apply selectionValid_nil |].
      split; [simpl; rewrite Hina; done | done].
    + unfold processAITurn in H. simpl in H. rewrite Hfire in H.
      injection H as <-. split; [done |]. split; [done |].
      split; [by apply selectionValid_nil |].
      split; [simpl; rewrite Hina; done | done].
  - destruct (_ || _); injection H as <-; exact HG.
Qed.

Lemma Good_programStart r s : programStart r = Some s -> Good s.
Proof.
  intros H. pose proof (Inv_programStart r s H) as HI.
  vm_compute in H. injection H as <-.
  split; [done |]. split; [by split |].
  split; [by apply selectionValid_nil |]. by split.
Qed.

Lemma reachableSeparate_Good s : reachableSeparate s -> Good s.
Proof.
  induction 1 as [r s H | inp s s' _ IH Hsep H].
  - by eapply Good_programStart.
  - unfold frame in H. apply bind_Some in H as (s1 & H1 & H2).
    eapply Good_updateGame; [| exact H2]. by eapply Good_handleInput.
Qed.

(** X6.  Along every run in which no frame carries both a click and an
    impulse key, whatever the seed, the random outcomes and the other
    inputs: impulse selection is only ever active in the player's turn,
    [playerCells] and [aiCells] equal the numbers of PLAYER and AI cells
    of the board, and the two counts and the number of Neutral cells add
    up to [gridSize^2]. *)
Theorem separate_inputs_keep_counts s :
  reachableSeparate s ->
  (impulseModeActive s = true -> playerTurn s = true) /\
  playerCells s = countCells s CellState.PLAYER /\
  aiCells s = countCells s CellState.AI /\
  playerCells s + aiCells s + countCells s CellState.NEUTRAL
    = gridSize s * gridSize s.
Proof.
  intros (HI & [Hp Ha] & _ & Hturn & _)%reachableSeparate_Good.
  split; [done |]. split; [done |]. split; [done |].
  rewrite Hp, Ha, !countCells_countGrid.
  rewrite (countGrid_total _ _ (Inv_covers s HI)).
  apply length_cells. destruct HI as (_ & [-> | ->] & _); lia.
Qed.

(** ** Charges, impulse bookkeeping and defined behaviour *)

Lemma Book_handleInput inp s :
  Inv s -> Bookkeeping s ->
  exists s', handleInput inp s = Some s' /\ Bookkeeping s'.
Proof.
  intros HI HB. pose proof (Inv_covers s HI) as Hc.
  destruct HI as (_ & _ & Hb & _).
  pose proof HB as (Hcost & Hsize & Hpc & Hac & Hon & Hoff & Hnd).
  rewrite handleInput_blocks.
  destruct (currentState s); [by exists s | | by exists s].
  destruct (ordinaryInput_spec inp s Hc)
    as (s1 & -> & (_ & _ & Hn & Hcost1 & Hac1 & Hsz1) & Hc1 & _ & _ & Hch
        & Hskip & Hmode & _).
  simpl.
  assert (HB1 : Bookkeeping s1 /\
                Forall (fun p => inBounds (gridSize s1) p.1 p.2 = true)
                       (selectedCells s1)).
  { unfold Bookkeeping. rewrite Hcost1, Hac1, Hn, Hsz1.
    destruct Hmode as [(Ha & Hs & Hm)|(Ha & Hs & Hm & Hcst & _)].
    - rewrite Ha, Hs, Hm. split; [| done].
      split; [done |]. split; [done |].
      split; [lia |]. split; [done |]. split; [| done].
      intros Hact. destruct (Hon Hact). split; [lia | done].
    - rewrite Ha, Hs. split; [| apply Forall_nil_2].
      split; [done |]. split; [done |].
      split; [lia |]. split; [done |]. split; [done |].
      split; [done | apply NoDup_nil_2]. }
  destruct HB1 as [HB1 Hb1]. unfold impulseInput.
  destruct (impulseModeActive s1) eqn:Hact1; [| by exists s1].
  destruct (click inp) as [[x y]|]; [| by exists s1].
  destruct (inBounds (gridSize s1) x y) eqn:Hxy; [| by exists s1].
  pose proof HB1 as (Hcost' & Hsize' & Hpc' & Hac' & Hon' & Hoff' & Hnd').
  rewrite <- Hn in Hc1.
  destruct (select_spec s1 x y Hc1 Hb1 Hnd' Hxy)
    as (s' & -> & (_ & _ & _ & Hcs & Has & Hsz) & _ & _ & Hnd2 & _ & Hcase).
  exists s'. split; [done |].
  destruct Hcase as [->|[(_ & -> & _)|(_ & Ha & Hm & Hs & _ & Hch' & _)]].
  - done.
  - unfold Bookkeeping. simpl.
    do 5 (split; [done |]). split; [intros ?; congruence | done].
  - unfold Bookkeeping. rewrite Hcs, Has, Hsz, Ha, Hm, Hs, Hch'.
    split; [done |]. split; [done |].
    rewrite Hact1 in Hon'. destruct (Hon' eq_refl) as [Hle _].
    split; [lia |]. split; [done |]. split; [done |].
    split; [done | apply NoDup_nil_2].
Qed.

Lemma startFromMenu_spec s :
  Inv s -> Bookkeeping s ->
  (selectedGridSize s = 2 -> startFromMenu s = None) /\
  (selectedGridSize s <> 2 ->
   exists s',
     startFromMenu s = Some s' /\ Bookkeeping s' /\
     selectedGridSize s' = selectedGridSize s /\
     currentState s' = GameState.PLAYING /\
     gameResult s' = GameResult.NONE /\
     gridSize s' = (if decide (selectedGridSize s = 0) then 7 else 10)).
Proof.
  intros (Hsq & Hn & _) (Hcost & Hsize & _). unfold startFromMenu. split.
  - intros H2. rewrite H2. simpl.
    destruct (resetGame (set_gridSize 12 s)) as [s1|] eqn:Hreset; [| done].
    destruct (resetGame_Some _ _ Hreset Hsq ltac:(simpl; lia)) as (Hle & _).
    simpl in Hle. lia.
  - intros Hne.
    set (s0 := if decide (selectedGridSize s = 0) then _ else _).
    assert (Hs0 : s0 = set_gridSize
                    (if decide (selectedGridSize s = 0) then 7 else 10) s).
    { subst s0. repeat case_decide; try done; lia. }
    rewrite Hs0. clear s0 Hs0.
    set (n := if decide (selectedGridSize s = 0) then 7 else 10).
    assert (Hn' : n = 7 \/ n = 10) by (subst n; case_decide; auto).
    assert (Hc0 : covers (grid (set_gridSize n s)) (gridSize (set_gridSize n s))).
    { simpl. eapply square_covers; [exact Hsq | lia]. }
    destruct (resetGame_board (set_gridSize n s) Hc0 ltac:(simpl; lia))
      as (g' & -> & _).
    simpl. eexists. split; [done |]. simpl.
    split; [| done]. unfold Bookkeeping. simpl.
    do 4 (split; [done |]). split; [done |]. split; [done |].
    apply NoDup_nil_2.
Qed.

Lemma Book_select_size s v :
  Bookkeeping s -> v = 0 \/ v = 1 \/ v = 2 ->
  Bookkeeping (set_selectedGridSize v s).
Proof.
  intros (Hcost & _ & Hrest) Hv. unfold Bookkeeping. simpl. done.
Qed.

Lemma updateMenu_spec inp s :
  Inv s -> Bookkeeping s ->
  (menuStarts inp = true /\ menuChoice inp s = 2 -> updateMenu inp s = None) /\
  (~ (menuStarts inp = true /\ menuChoice inp s = 2) ->
   exists s', updateMenu inp s = Some s' /\ Bookkeeping s').
Proof.
  intros HI HB. unfold updateMenu, menuStarts, menuChoice.
  set (s0 := match menuClick inp with
             | Some Button7 => set_selectedGridSize 0 s
             | Some Button10 => set_selectedGridSize 1 s
             | Some Button12 => set_selectedGridSize 2 s
             | _ => s
             end).
  assert (H0 : Inv s0 /\ Bookkeeping s0 /\
               selectedGridSize s0 =
                 match menuClick inp with
                 | Some Button7 => 0
                 | Some Button10 => 1
                 | Some Button12 => 2
                 | _ => selectedGridSize s
                 end).
  { subst s0. destruct (menuClick inp) as [[]|];
      (split; [done |]); (split; [| done]);
      try done; apply Book_select_size; auto. }
  destruct H0 as (HI0 & HB0 & <-).
  destruct (startFromMenu_spec s0 HI0 HB0) as [Hnone Hsome].
  case_bool_decide as Hstart; simpl.
  - rewrite decide_True by done. split.
    + intros [_ H2]. by rewrite (Hnone H2).
    + intros Hnot.
      assert (Hne : selectedGridSize s0 <> 2) by (intros ?; by apply Hnot).
      destruct (Hsome Hne) as (s1 & Hrun & HB1 & Hsz & _).
      rewrite Hrun. simpl. destruct (keySpace inp); [| by exists s1].
      pose proof (Inv_startFromMenu _ _ HI0 Hrun) as HI1.
      destruct (startFromMenu_spec s1 HI1 HB1) as [_ Hsome1].
      destruct (Hsome1 ltac:(congruence)) as (s2 & -> & HB2 & _).
      by exists s2.
  - rewrite decide_False by done. simpl. destruct (keySpace inp).
    + split.
      * intros [_ H2]. exact (Hnone H2).
      * intros Hnot.
        assert (Hne : selectedGridSize s0 <> 2) by (intros ?; by apply Hnot).
        destruct (Hsome Hne) as (s1 & -> & HB1 & _). by exists s1.
    + split; [by intros [? _] |]. intros _. by exists s0.
Qed.

Lemma Book_updateGame inp s :
  Inv s -> Bookkeeping s ->
  (currentState s = GameState.MENU /\ menuStarts inp = true /\
   menuChoice inp s = 2 -> updateGame inp s = None) /\
  (~ (currentState s = GameState.MENU /\ menuStarts inp = true /\
      menuChoice inp s = 2) ->
   exists s', updateGame inp s = Some s' /\ Bookkeeping s').
Proof.
  intros HI HB. unfold updateGame.
  destruct (updateMenu_spec inp s HI HB) as [Hnone Hsome].
  destruct (currentState s) eqn:Hst.
  - split; [by intros (_ & ? & ?); apply Hnone |].
    intros Hnot. apply Hsome. intros [? ?]. by apply Hnot.
  - split; [by intros (? & _) |]. intros _.
    case_decide; [by eexists |].
    destruct (playerTurn s); [by exists s |].
    destruct ((aiTimer s + deltaTime inp >=? AI_DELAY)%f32) eqn:Hfire.
    + destruct (processAITurn_result s (deltaTime inp) (Inv_covers s HI) Hfire)
        as (g' & dp & da & dc & r & -> & _ & _ & _ & _ & Hdc).
      eexists. split; [done |]. win_check_away.
      destruct HB as (Hcost & Hsize & Hpc & Hac & Hrest).
      unfold Bookkeeping. simpl.
      do 3 (split; [done |]). split; [| done].
      destruct Hdc as [->|[->|[-> ?]]]; lia.
    + eexists. split; [unfold processAITurn; simpl; by rewrite Hfire |]. done.
  - split; [by intros (? & _) |]. intros _.
    destruct (_ || _); by eexists.
Qed.

Lemma Book_programStart r s : programStart r = Some s -> Bookkeeping s.
Proof.
  intros H. vm_compute in H. injection H as <-. unfold Bookkeeping. simpl.
  split; [done |]. split; [by right; left |]. split; [done |].
  split; [done |]. split; [done |]. split; [done | apply NoDup_nil_2].
Qed.

Lemma reachable_Book s : reachable s -> Bookkeeping s.
Proof.
  induction 1 as [r s H | inp s s' Hr IH H].
  - by eapply Book_programStart.
  - pose proof (reachable_Inv s Hr) as HI.
    unfold frame in H. apply bind_Some in H as (s1 & H1 & H2).
    destruct (Book_handleInput inp s HI IH) as (s1' & H1' & HB1).
    rewrite H1 in H1'. injection H1' as <-.
    pose proof (Inv_handleInput inp s s1 HI H1) as HI1.
    destruct (Book_updateGame inp s1 HI1 HB1) as [Hnone Hsome].
    destruct (Hsome ltac:(intros Hbad; by rewrite (Hnone Hbad) in H2))
      as (s2 & H2' & HB2).
    rewrite H2 in H2'. by injection H2' as <-.
Qed.

(** ** The session fields *)

Lemma sameSession_refl s : sameSession s s.
Proof. by unfold sameSession. Qed.

Lemma sameSession_trans s1 s2 s3 :
  sameSession s1 s2 -> sameSession s2 s3 -> sameSession s1 s3.
Proof.
  intros (A1 & A2 & A3 & A4 & A5) (B1 & B2 & B3 & B4 & B5).
  unfold sameSession. by rewrite B1, B2, B3, B4, B5.
Qed.

Lemma keeps_sameSession s s' : keeps s s' -> sameSession s s'.
Proof. intros (A1 & A2 & A3 & A4 & _ & _ & A5 & _). by unfold sameSession. Qed.

Lemma sameSession_startImpulseMode mode s :
  sameSession s (startImpulseMode mode s).
Proof. unfold startImpulseMode. by destruct (_ >=? _). Qed.

Lemma sameSession_selectTarget limit x y s :
  sameSession s (selectTarget limit x y s).
Proof. unfold selectTarget. by destruct (_ && _). Qed.

Lemma sameSession_select x y s s' :
  handleImpulseCellSelection x y s = Some s' -> sameSession s s'.
Proof.
  intros H. unfold handleImpulseCellSelection in H.
  destruct (currentImpulseMode s).
  - injection H as <-. apply sameSession_refl.
  - apply bind_Some in H as (c & _ & H).
    case_decide; [| injection H as <-; apply sameSession_refl].
    apply bind_Some in H as (found & _ & H).
    destruct found; [| injection H as <-; apply sameSession_refl].
    pose proof (sameSession_selectTarget 2 x y s) as K.
    set (s1 := selectTarget 2 x y s) in *.
    destruct (_ >=? _); [| by injection H as <-].
    apply bind_Some in H as (s2 & Hflip & [= <-]).
    apply keeps_attackFlip, keeps_sameSession in Hflip.
    eapply sameSession_trans; [exact K |].
    eapply sameSession_trans; [exact Hflip | done].
  - apply bind_Some in H as (c & _ & H).
    case_decide; [| injection H as <-; apply sameSession_refl].
    apply bind_Some in H as (valid & _ & H).
    destruct valid; [| injection H as <-; apply sameSession_refl].
    pose proof (sameSession_selectTarget 3 x y s) as K.
    set (s1 := selectTarget 3 x y s) in *.
    destruct (_ >=? _); [| by injection H as <-].
    apply bind_Some in H as (s2 & Hflip & [= <-]).
    apply keeps_speedFlip, keeps_sameSession in Hflip.
    eapply sameSession_trans; [exact K |].
    eapply sameSession_trans; [exact Hflip | done].
Qed.

Lemma sameSession_handleInput inp s s' :
  handleInput inp s = Some s' -> sameSession s s'.
Proof.
  intros H. unfold handleInput in H.
  destruct (currentState s) eqn:Hst;
    [injection H as <-; apply sameSession_refl | |
     injection H as <-; apply sameSession_refl].
  apply bind_Some in H as (s2 & H1 & H2).
  assert (K2 : sameSession s s2).
  { destruct (playerTurn s && negb (impulseModeActive s));
      [| injection H1 as <-; apply sameSession_refl].
    apply bind_Some in H1 as (s1 & Hc & [= <-]).
    assert (K1 : sameSession s s1).
    { destruct (click inp) as [[gx gy]|];
        [| injection Hc as <-; apply sameSession_refl].
      destruct (inBounds (gridSize s) gx gy);
        [| injection Hc as <-; apply sameSession_refl].
      apply bind_Some in Hc as (c & _ & Hc).
      case_decide; [| injection Hc as <-; apply sameSession_refl].
      apply bind_Some in Hc as (valid & _ & Hc).
      destruct valid; [| injection Hc as <-; apply sameSession_refl].
      by apply keeps_sameSession, (keeps_playerCapture gx gy). }
    destruct (_ >=? _); [| done].
    destruct (keyA inp);
      [eapply sameSession_trans; [exact K1 | apply sameSession_startImpulseMode] |].
    destruct (keyS inp);
      [eapply sameSession_trans; [exact K1 | apply sameSession_startImpulseMode] |].
    done. }
  destruct (impulseModeActive s2); [| by injection H2 as <-].
  destruct (click inp) as [[gx gy]|]; [| by injection H2 as <-].
  destruct (inBounds (gridSize s2) gx gy); [| by injection H2 as <-].
  eapply sameSession_trans; [exact K2 | by eapply sameSession_select].
Qed.

(** X7.  In every reachable state both charge counters are non-negative,
    and while impulse selection is active the player holds at least
    [impulseCost] charges, so completing the impulse never drives the
    charges below zero. *)
Theorem charges_never_negative s :
  reachable s ->
  0 <= playerCharges s /\ 0 <= aiCharges s /\
  (impulseModeActive s = true -> impulseCost s <= playerCharges s) /\
  0 <= playerCharges s - (if impulseModeActive s then impulseCost s else 0).
Proof.
  intros (Hcost & _ & Hpc & Hac & Hon & _)%reachable_Book.
  split; [done |]. split; [done |].
  split; [intros Hact; by destruct (Hon Hact) |].
  destruct (impulseModeActive s); [| lia].
  destruct (Hon eq_refl). lia.
Qed.

(** X8.  In every reachable state the impulse flag and the impulse mode
    agree (the flag is set exactly when the mode is ATTACK or SPEED);
    outside impulse mode the selection is empty; a pending selection
    has no repeated cell, lies on the board, and holds fewer cells than
    the mode needs (at most one for an attack, at most two for a speed
    impulse). *)
Theorem impulse_bookkeeping s :
  reachable s ->
  (impulseModeActive s = true <-> currentImpulseMode s <> ImpulseMode.NONE) /\
  (impulseModeActive s = false -> selectedCells s = []) /\
  NoDup (selectedCells s) /\
  Forall (fun p => inBounds (gridSize s) p.1 p.2 = true) (selectedCells s) /\
  (currentImpulseMode s = ImpulseMode.ATTACK ->
     (length (selectedCells s) <= 1)%nat) /\
  (currentImpulseMode s = ImpulseMode.SPEED ->
     (length (selectedCells s) <= 2)%nat).
Proof.
  intros Hr. pose proof (reachable_Book s Hr) as (_ & _ & _ & _ & Hon & Hoff & Hnd).
  pose proof (reachable_Inv s Hr) as (_ & _ & Hb & Ha & Hs).
  split.
  { split; [intros Hact; by destruct (Hon Hact) |].
    intros Hm. destruct (impulseModeActive s); [done |].
    by destruct (Hoff eq_refl). }
  split; [intros Hact; by destruct (Hoff Hact) |].
  split; [done |]. split; [done |].
  split; intros Hm; [specialize (Ha Hm) | specialize (Hs Hm)]; lia.
Qed.

(** X9.  In every reachable state the storage is the 10 x 10 grid
    allocated at program start, the board is 7 or 10 cells wide and thus
    fits it, the impulse cost is 3 and the menu selection is one of its
    three buttons: no run of the program reaches a 12 x 12 session. *)
Theorem storage_stays_10x10 s :
  reachable s ->
  square (grid s) 10 /\
  (gridSize s = 7 \/ gridSize s = 10) /\
  covers (grid s) (gridSize s) /\
  impulseCost s = 3 /\
  (selectedGridSize s = 0 \/ selectedGridSize s = 1 \/ selectedGridSize s = 2).
Proof.
  intros Hr. pose proof (reachable_Inv s Hr) as HI.
  pose proof (Inv_covers s HI) as Hc.
  destruct HI as (Hsq & Hn & _).
  destruct (reachable_Book s Hr) as (Hcost & Hsize & _).
  by repeat (split; [done |]).
Qed.

(** X10.  From every reachable state every frame of input is defined
    (no access leaves the storage) with a single exception: a frame in
    the menu that starts a session (start button or space key) while
    the 12 x 12 size is selected, by an earlier click or by the click of
    that very frame. *)
Theorem frame_defined s inp :
  reachable s ->
  (frame inp s = None <->
   currentState s = GameState.MENU /\ menuStarts inp = true /\
   menuChoice inp s = 2).
Proof.
  intros Hr. pose proof (reachable_Inv s Hr) as HI.
  pose proof (reachable_Book s Hr) as HB.
  destruct (Book_handleInput inp s HI HB) as (s1 & H1 & HB1).
  pose proof (Inv_handleInput inp s s1 HI H1) as HI1.
  unfold frame. rewrite H1. simpl.
  assert (Hsame : currentState s1 = currentState s /\
                  menuChoice inp s1 = menuChoice inp s).
  { destruct (sameSession_handleInput inp s s1 H1) as (K1 & _ & _ & _ & K5).
    unfold menuChoice. by rewrite K1, K5. }
  destruct Hsame as [Hst Hch].
  destruct (Book_updateGame inp s1 HI1 HB1) as [Hnone Hsome].
  rewrite Hst, Hch in Hnone, Hsome. split.
  - intros Hfail.
    destruct (currentState s) eqn:Hcs.
    + destruct (menuStarts inp) eqn:Hms.
      * destruct (decide (menuChoice inp s = 2)) as [|Hne]; [done |].
        destruct (Hsome ltac:(by intros (_ & _ & ?))) as (s2 & Hrun & _).
        congruence.
      * destruct (Hsome ltac:(by intros (_ & ? & _))) as (s2 & Hrun & _).
        congruence.
    + destruct (Hsome ltac:(by intros (? & _))) as (s2 & Hrun & _). congruence.
    + destruct (Hsome ltac:(by intros (? & _))) as (s2 & Hrun & _). congruence.
  - intros Hbad. by apply Hnone.
Qed.

Lemma startFromMenu_fields s s' :
  startFromMenu s = Some s' ->
  currentState s' = GameState.PLAYING /\ gameResult s' = GameResult.NONE /\
  playerTurn s' = true /\ impulseModeActive s' = false /\
  currentImpulseMode s' = ImpulseMode.NONE /\ selectedCells s' = [] /\
  playerCells s' = 1 /\ aiCells s' = 1 /\
  playerCharges s' = 0 /\ aiCharges s' = 0.
Proof.
  unfold startFromMenu, resetGame. intros H.
  apply bind_Some in H as (s1 & H & [= <-]).
  apply bind_Some in H as (s2 & _ & H).
  apply bind_Some in H as (s3 & _ & H).
  apply bind_Some in H as (s4 & _ & [= <-]).
  by repeat split.
Qed.

Lemma updateMenu_fields inp s s' :
  updateMenu inp s = Some s' ->
  if menuStarts inp
  then currentState s' = GameState.PLAYING /\
       gameResult s' = GameResult.NONE /\
       playerTurn s' = true /\ impulseModeActive s' = false /\
       playerCells s' = 1 /\ aiCells s' = 1 /\
       playerCharges s' = 0 /\ aiCharges s' = 0
  else s' = set_selectedGridSize (menuChoice inp s) s.
Proof.
  unfold updateMenu, menuStarts, menuChoice. intros H.
  apply bind_Some in H as (s1 & H1 & H2).
  destruct (keySpace inp) eqn:Hspace.
  - rewrite orb_true_r.
    apply startFromMenu_fields in H2
      as (A1 & A2 & A3 & A4 & _ & _ & A5 & A6 & A7 & A8).
    by repeat split.
  - rewrite orb_false_r. injection H2 as <-.
    case_bool_decide as Hstart.
    + rewrite decide_True in H1 by done.
      apply startFromMenu_fields in H1
        as (A1 & A2 & A3 & A4 & _ & _ & A5 & A6 & A7 & A8).
      by repeat split.
    + rewrite decide_False in H1 by done. injection H1 as <-.
      destruct (menuClick inp) as [[]|]; try done; by destruct s.
Qed.

Lemma processAITurn_waits dt s :
  (aiTimer s + dt >=? AI_DELAY)%f32 = false ->
  processAITurn dt s = Some (set_aiTimer (aiTimer s + dt)%f32 s).
Proof. unfold processAITurn. simpl. by intros ->. Qed.

(** X11.  The screens form a cycle.  A frame in the menu either starts
    a session (start button or space: PLAYING with no result, the
    player to move, one cell each and no charges) or only records the
    size button clicked.  A frame of a session keeps the board size and
    stays in PLAYING as long as no result was set before the frame; once
    a result is set the frame moves to GAME_OVER and keeps it.  On the
    game-over screen only R or Escape do anything: they lead back to
    the menu, every other field untouched. *)
Theorem session_state_machine inp s s' :
  frame inp s = Some s' ->
  match currentState s with
  | GameState.MENU =>
      if menuStarts inp
      then currentState s' = GameState.PLAYING /\
           gameResult s' = GameResult.NONE /\
           playerTurn s' = true /\ impulseModeActive s' = false /\
           playerCells s' = 1 /\ aiCells s' = 1 /\
           playerCharges s' = 0 /\ aiCharges s' = 0
      else s' = set_selectedGridSize (menuChoice inp s) s
  | GameState.PLAYING =>
      gridSize s' = gridSize s /\ impulseCost s' = impulseCost s /\
      selectedGridSize s' = selectedGridSize s /\
      (gameResult s = GameResult.NONE -> currentState s' = GameState.PLAYING) /\
      (gameResult s <> GameResult.NONE ->
       currentState s' = GameState.GAME_OVER /\ gameResult s' = gameResult s)
  | GameState.GAME_OVER =>
      s' = if keyR inp || keyEscape inp
           then set_currentState GameState.MENU s else s
  end.
Proof.
  unfold frame. intros H. apply bind_Some in H as (s1 & H1 & H2).
  destruct (currentState s) eqn:Hst.
  - unfold handleInput in H1. rewrite Hst in H1. injection H1 as <-.
    unfold updateGame in H2. rewrite Hst in H2.
    by apply updateMenu_fields.
  - destruct (sameSession_handleInput inp s s1 H1) as (K1 & K2 & K3 & K4 & K5).
    unfold updateGame in H2. rewrite K1, Hst, K2 in H2.
    case_decide as Hres.
    + injection H2 as <-. simpl. by repeat (split; [done |]).
    + destruct (playerTurn s1) eqn:Hturn.
      * injection H2 as <-. rewrite K1, Hst.
        by repeat (split; [done |]).
      * destruct ((aiTimer s1 + deltaTime inp >=? AI_DELAY)%f32) eqn:Hfire.
        -- destruct (processAITurn_fired _ _ _ H2 Hfire) as (s3 & K & ->).
           apply keeps_sameSession in K as (L1 & L2 & L3 & L4 & L5).
           win_check_away. simpl. rewrite L1, L3, L4, L5, K1, Hst.
           by repeat (split; [done |]).
        -- rewrite (processAITurn_waits _ _ Hfire) in H2. injection H2 as <-.
           simpl. rewrite K1, Hst. by repeat (split; [done |]).
  - unfold handleInput in H1. rewrite Hst in H1. injection H1 as <-.
    unfold updateGame in H2. rewrite Hst in H2.
    destruct (keyR inp || keyEscape inp); by injection H2 as <-.
Qed.

(** X12.  A result is only ever set at the end of an AI turn.  In a
    frame of a session whose result field changes, the input handling
    left the turn with the AI and the AI's delay elapsed in this frame;
    the frame ends with the player to move.  In particular a capture
    that lifts the player to the winning share is not declared before
    the AI has taken its next turn. *)
Theorem result_only_after_ai_turn inp s s' :
  frame inp s = Some s' ->
  currentState s = GameState.PLAYING ->
  gameResult s' <> gameResult s ->
  gameResult s = GameResult.NONE /\
  playerTurn s' = true /\
  exists s1,
    handleInput inp s = Some s1 /\ playerTurn s1 = false /\
    (aiTimer s1 + deltaTime inp >=? AI_DELAY)%f32 = true /\
    exists s2, keeps s1 s2 /\ s' = checkWinCondition (set_playerTurn true s2).
Proof.
  unfold frame. intros H Hst Hchange.
  apply bind_Some in H as (s1 & H1 & H2).
  destruct (sameSession_handleInput inp s s1 H1) as (K1 & K2 & _).
  unfold updateGame in H2. rewrite K1, Hst, K2 in H2.
  case_decide as Hres.
  { injection H2 as <-. simpl in Hchange. congruence. }
  destruct (playerTurn s1) eqn:Hturn.
  { injection H2 as <-. congruence. }
  destruct ((aiTimer s1 + deltaTime inp >=? AI_DELAY)%f32) eqn:Hfire.
  2:{ rewrite (processAITurn_waits _ _ Hfire) in H2. injection H2 as <-.
      simpl in Hchange. congruence. }
  destruct (processAITurn_fired _ _ _ H2 Hfire) as (s2 & K & Hs').
  split; [done |]. split.
  - rewrite Hs'. by win_check_away.
  - exists s1. do 3 (split; [done |]). by exists s2.
Qed.

(** ** An impulse that cannot be completed *)

Lemma set_selectedCells_same s : s = set_selectedCells (selectedCells s) s.
Proof. by destruct s. Qed.

Lemma targets_short (P : Z * Z -> Prop) (l ts : list (Z * Z)) :
  NoDup l -> Forall P l -> (forall p, P p -> p ∈ ts) ->
  (length l <= length ts)%nat.
Proof.
  intros Hnd Hall Hts. apply submseteq_length, NoDup_submseteq; [done |].
  intros p Hp. apply Hts. rewrite Forall_forall in Hall. by apply Hall.
Qed.

Lemma softLocked_select ts s x y :
  softLocked ts s -> inBounds (gridSize s) x y = true ->
  exists s',
    handleImpulseCellSelection x y s = Some s' /\
    softLocked ts s' /\ s' = set_selectedCells (selectedCells s') s.
Proof.
  intros HL Hb.
  pose proof HL as (Hc & Hst & Hres & Hturn & Hact & Hnd & Hsel & Hts & Hlen).
  assert (Hshort : forall l, NoDup l ->
            Forall (fun p => impulseTarget s p.1 p.2) l ->
            Z.of_nat (length l) < impulseSize (currentImpulseMode s)).
  { intros l Hl1 Hl2.
    pose proof (targets_short (fun p => impulseTarget s p.1 p.2) l ts Hl1 Hl2
                  ltac:(by intros [a b]; apply Hts)).
    lia. }
  assert (Hstay : exists s',
            Some s = Some s' /\ softLocked ts s' /\
            s' = set_selectedCells (selectedCells s') s).
  { exists s. split; [done |]. split; [done | apply set_selectedCells_same]. }
  assert (Hadd : (x, y) ∉ selectedCells s -> impulseTarget s x y ->
            softLocked ts (set_selectedCells (selectedCells s ++ [(x, y)]) s) /\
            Z.of_nat (length (selectedCells s ++ [(x, y)]))
              < impulseSize (currentImpulseMode s)).
  { intros Hnin Htarget.
    assert (Hnd' : NoDup (selectedCells s ++ [(x, y)])).
    { apply NoDup_app. split; [done |]. split; [| apply NoDup_singleton].
      intros p Hp ->%list_elem_of_singleton. done. }
    assert (Hsel' : Forall (fun p => impulseTarget s p.1 p.2)
                           (selectedCells s ++ [(x, y)])).
    { apply Forall_app. split; [done | by apply Forall_singleton]. }
    split; [| by apply Hshort].
    unfold softLocked. simpl. by repeat (split; [done |]). }
  unfold impulseTarget in Hadd.
  destruct (currentImpulseMode s) eqn:Hmode.
  - simpl in Hlen. lia.
  - destruct (borderCell_dec (grid s) (gridSize s) CellState.AI
                CellState.PLAYER x y Hc) as [Hyes|Hno].
    2:{ by rewrite (select_attack_invalid s x y Hc Hmode Hb Hno). }
    rewrite (select_attack_valid s x y Hc Hmode Hyes). simpl.
    destruct (decide ((x, y) ∈ selectedCells s)) as [Hin|Hnin].
    + rewrite (selectTarget_dup 2 x y s Hin).
      specialize (Hshort _ Hnd Hsel). simpl in Hshort.
      replace (_ >=? 2) with false by (symmetry; rewrite Z.geb_leb; apply Z.leb_gt; lia).
      done.
    + destruct (Hadd Hnin Hyes) as [HL' Hlen']. simpl in Hlen'.
      rewrite length_app in Hlen'. simpl in Hlen'.
      rewrite (selectTarget_new 2 x y s Hnin) by lia. simpl.
      rewrite length_app. simpl.
      replace (_ >=? 2) with false by (symmetry; rewrite Z.geb_leb; apply Z.leb_gt; lia).
      eexists. split; [done |]. split; [exact HL' | by destruct s].
  - destruct (borderCell_dec (grid s) (gridSize s) CellState.NEUTRAL
                CellState.PLAYER x y Hc) as [Hyes|Hno].
    2:{ by rewrite (select_speed_invalid s x y Hc Hmode Hb Hno). }
    rewrite (select_speed_valid s x y Hc Hmode Hyes). simpl.
    destruct (decide ((x, y) ∈ selectedCells s)) as [Hin|Hnin].
    + rewrite (selectTarget_dup 3 x y s Hin).
      specialize (Hshort _ Hnd Hsel). simpl in Hshort.
      replace (_ >=? 3) with false by (symmetry; rewrite Z.geb_leb; apply Z.leb_gt; lia).
      done.
    + destruct (Hadd Hnin Hyes) as [HL' Hlen']. simpl in Hlen'.
      rewrite length_app in Hlen'. simpl in Hlen'.
      rewrite (selectTarget_new 3 x y s Hnin) by lia. simpl.
      rewrite length_app. simpl.
      replace (_ >=? 3) with false by (symmetry; rewrite Z.geb_leb; apply Z.leb_gt; lia).
      eexists. split; [done |]. split; [exact HL' | by destruct s].
Qed.

Lemma softLocked_frame ts inp s :
  softLocked ts s ->
  exists s',
    frame inp s = Some s' /\
    softLocked ts s' /\ s' = set_selectedCells (selectedCells s') s.
Proof.
  intros HL.
  pose proof HL as (Hc & Hst & Hres & Hturn & Hact & _).
  assert (Hin : exists s1,
            handleInput inp s = Some s1 /\ softLocked ts s1 /\
            s1 = set_selectedCells (selectedCells s1) s).
  { assert (Hstay : exists s1,
              Some s = Some s1 /\ softLocked ts s1 /\
              s1 = set_selectedCells (selectedCells s1) s).
    { exists s. split; [done |]. split; [done | apply set_selectedCells_same]. }
    destruct (click inp) as [[x y]|] eqn:Hclick.
    - rewrite (handleInput_impulse s inp x y Hst Hact Hclick).
      destruct (inBounds (gridSize s) x y) eqn:Hb; [| done].
      by apply softLocked_select.
    - unfold handleInput. rewrite Hst, Hturn, Hact, Hclick. simpl.
      by rewrite Hact. }
  destruct Hin as (s1 & H1 & HL1 & Hs1).
  unfold frame. rewrite H1. simpl.
  pose proof HL1 as (Hc1 & Hst1 & Hres1 & Hturn1 & _).
  exists s1. split; [| by split].
  unfold updateGame. rewrite Hst1, Hres1, Hturn1.
  by rewrite decide_False by (intros Hne; by apply Hne).
Qed.

(** X13.  An impulse cannot be cancelled.  If the player is selecting
    targets for an impulse while the board offers fewer targets than the
    impulse needs (two AI cells next to the player for an attack, three
    legal captures for a speed impulse), then after any sequence of
    frames, whatever the input and however much time passes, the
    session is exactly where it was, the selection apart: same board,
    same counts and charges, still the player's turn and the same impulse
    mode, no result.  Neither the player nor the AI ever moves again. *)
Theorem impulse_soft_lock s ts inps :
  covers (grid s) (gridSize s) ->
  currentState s = GameState.PLAYING ->
  gameResult s = GameResult.NONE ->
  playerTurn s = true ->
  impulseModeActive s = true ->
  NoDup (selectedCells s) ->
  Forall (fun p => impulseTarget s p.1 p.2) (selectedCells s) ->
  (forall x y, impulseTarget s x y -> (x, y) ∈ ts) ->
  Z.of_nat (length ts) < impulseSize (currentImpulseMode s) ->
  exists s',
    run inps s = Some s' /\
    s' = set_selectedCells (selectedCells s') s /\
    Z.of_nat (length (selectedCells s')) < impulseSize (currentImpulseMode s).
Proof.
  intros Hc Hst Hres Hturn Hact Hnd Hsel Hts Hlen.
  assert (HL : softLocked ts s) by (by repeat (split; [done |])).
  clear Hc Hst Hres Hturn Hact Hnd Hsel Hts Hlen.
  assert (Hgen : exists s',
            run inps s = Some s' /\ softLocked ts s' /\
            s' = set_selectedCells (selectedCells s') s).
  { revert s HL. induction inps as [|inp inps IH]; intros s HL.
    - exists s. split; [done |]. split; [done | apply set_selectedCells_same].
    - destruct (softLocked_frame ts inp s HL) as (s1 & H1 & HL1 & Hs1).
      destruct (IH s1 HL1) as (s2 & H2 & HL2 & Hs2).
      exists s2. simpl. rewrite H1. simpl. split; [done |]. split; [done |].
      rewrite Hs2, Hs1. by destruct s. }
  destruct Hgen as (s' & Hrun & HL' & Hs').
  exists s'. split; [done |]. split; [done |].
  destruct HL' as (_ & _ & _ & _ & _ & Hnd' & Hsel' & Hts' & Hlen').
  pose proof (targets_short (fun p => impulseTarget s' p.1 p.2) _ ts Hnd' Hsel'
                ltac:(by intros [a b]; apply Hts')) as Hle.
  replace (currentImpulseMode s) with (currentImpulseMode s')
    by (rewrite Hs'; by destruct s).
  lia.
Qed.

(** ** Territory is never given back *)

Lemma noRelease_refl s : noRelease s s.
Proof. by intros x y H. Qed.

Lemma noRelease_trans s1 s2 s3 :
  noRelease s1 s2 -> noRelease s2 s3 -> noRelease s1 s3.
Proof. intros H12 H23 x y H. by apply H23, H12. Qed.

Lemma noRelease_grid s s' : grid s' = grid s -> noRelease s s'.
Proof. intros Hg x y H. by rewrite Hg. Qed.

Lemma noRelease_writeCell x y c s s' :
  c <> CellState.NEUTRAL -> writeCell x y c s = Some s' -> noRelease s s'.
Proof.
  intros Hc (g' & Hset & ->)%writeCell_Some a b Hab. simpl. unfold held.
  destruct (decide ((a, b) = (x, y))) as [[= -> ->]|Hne].
  - rewrite (grid_set_same _ _ _ _ _ Hset). destruct c; auto. done.
  - by rewrite (grid_set_other _ _ _ _ _ _ _ Hset Hne).
Qed.

Lemma noRelease_attackFlip cs s s' :
  attackFlip cs s = Some s' -> noRelease s s'.
Proof.
  revert s. induction cs as [|[x y] cs IH]; simpl; intros s H.
  - injection H as <-. apply noRelease_refl.
  - apply bind_Some in H as (s1 & Hw & H).
    eapply noRelease_trans; [by eapply (noRelease_writeCell x y CellState.PLAYER) |].
    eapply noRelease_trans; [| by apply IH]. by apply noRelease_grid.
Qed.

Lemma noRelease_speedFlip cs s s' :
  speedFlip cs s = Some s' -> noRelease s s'.
Proof.
  revert s. induction cs as [|[x y] cs IH]; simpl; intros s H.
  - injection H as <-. apply noRelease_refl.
  - apply bind_Some in H as (s1 & Hw & H).
    eapply noRelease_trans; [by eapply (noRelease_writeCell x y CellState.PLAYER) |].
    eapply noRelease_trans; [| by apply IH]. by apply noRelease_grid.
Qed.

Lemma noRelease_aiAttackFlip cs s s' :
  aiAttackFlip cs s = Some s' -> noRelease s s'.
Proof.
  revert s. induction cs as [|[x y] cs IH]; simpl; intros s H.
  - injection H as <-. apply noRelease_refl.
  - case_decide; [| by apply IH].
    apply bind_Some in H as (s1 & Hw & H).
    eapply noRelease_trans; [by eapply (noRelease_writeCell x y CellState.AI) |].
    eapply noRelease_trans; [| by apply IH]. by apply noRelease_grid.
Qed.

Lemma noRelease_aiSpeedFlip cs s s' :
  aiSpeedFlip cs s = Some s' -> noRelease s s'.
Proof.
  revert s. induction cs as [|[x y] cs IH]; simpl; intros s H.
  - injection H as <-. apply noRelease_refl.
  - case_decide; [| by apply IH].
    apply bind_Some in H as (s1 & Hw & H).
    eapply noRelease_trans; [by eapply (noRelease_writeCell x y CellState.AI) |].
    eapply noRelease_trans; [| by apply IH]. by apply noRelease_grid.
Qed.

Lemma noRelease_aiWants mode s : noRelease s (aiWants mode s).2.
Proof. destruct (aiWants_rng mode s) as [r ->]. by apply noRelease_grid. Qed.

Lemma noRelease_payImpulse cs s : noRelease s (payImpulse cs s).
Proof. apply noRelease_grid. by destruct cs. Qed.

Lemma noRelease_aiOrdinaryMove s s' :
  aiOrdinaryMove s = Some s' -> noRelease s s'.
Proof.
  unfold aiOrdinaryMove. intros H.
  apply bind_Some in H as ([m s1] & Hm & H).
  apply getAIMove_rng in Hm as [r ->].
  eapply noRelease_trans; [by apply (noRelease_grid s (set_rng r s)) |].
  case_decide; [| injection H as <-; apply noRelease_refl].
  apply bind_Some in H as (s2 & Hw & [= <-]).
  eapply noRelease_trans; [by eapply (noRelease_writeCell _ _ CellState.AI) |].
  by apply noRelease_grid.
Qed.

Lemma noRelease_processAITurn dt s s' :
  processAITurn dt s = Some s' -> noRelease s s'.
Proof.
  unfold processAITurn. simpl. intros H.
  destruct ((aiTimer s + dt >=? AI_DELAY)%f32);
    [| injection H as <-; by apply noRelease_grid].
  apply bind_Some in H as (s1 & H & [= <-]).
  apply (noRelease_trans _ s1);
    [| apply noRelease_grid; by win_check_away].
  eapply noRelease_trans;
    [by apply (noRelease_grid s (set_aiTimer (aiTimer s + dt)%f32 s)) |].
  set (s0 := set_aiTimer _ s) in *. clearbody s0.
  pose proof (noRelease_aiWants ImpulseMode.ATTACK s0) as K1.
  destruct (aiWants ImpulseMode.ATTACK s0) as [[] sA]; simpl in K1.
  - apply bind_Some in H as ([cs s2] & Hm & H).
    apply bind_Some in H as (s3 & Hf & [= <-]).
    apply getAIAttackMove_rng in Hm as [r ->].
    eapply noRelease_trans; [exact K1 |].
    eapply noRelease_trans; [by apply (noRelease_grid sA (set_rng r sA)) |].
    eapply noRelease_trans;
      [by eapply noRelease_aiAttackFlip | apply noRelease_payImpulse].
  - pose proof (noRelease_aiWants ImpulseMode.SPEED sA) as K2.
    destruct (aiWants ImpulseMode.SPEED sA) as [[] sS]; simpl in K2.
    + apply bind_Some in H as ([cs s2] & Hm & H).
      apply bind_Some in H as (s3 & Hf & [= <-]).
      apply getAISpeedMove_rng in Hm as [r ->].
      eapply noRelease_trans; [exact K1 |].
      eapply noRelease_trans; [exact K2 |].
      eapply noRelease_trans; [by apply (noRelease_grid sS (set_rng r sS)) |].
      eapply noRelease_trans;
        [by eapply noRelease_aiSpeedFlip | apply noRelease_payImpulse].
    + eapply noRelease_trans; [exact K1 |].
      eapply noRelease_trans; [exact K2 |].
      by apply noRelease_aiOrdinaryMove.
Qed.

Lemma noRelease_selectTarget limit x y s :
  noRelease s (selectTarget limit x y s).
Proof. apply noRelease_grid. unfold selectTarget. by destruct (_ && _). Qed.

Lemma noRelease_select x y s s' :
  handleImpulseCellSelection x y s = Some s' -> noRelease s s'.
Proof.
  intros H. unfold handleImpulseCellSelection in H.
  destruct (currentImpulseMode s).
  - injection H as <-. apply noRelease_refl.
  - apply bind_Some in H as (c & _ & H).
    case_decide; [| injection H as <-; apply noRelease_refl].
    apply bind_Some in H as (found & _ & H).
    destruct found; [| injection H as <-; apply noRelease_refl].
    pose proof (noRelease_selectTarget 2 x y s) as K.
    set (s1 := selectTarget 2 x y s) in *.
    destruct (_ >=? _); [| by injection H as <-].
    apply bind_Some in H as (s2 & Hflip & [= <-]).
    apply noRelease_attackFlip in Hflip.
    eapply noRelease_trans; [exact K |].
    eapply noRelease_trans; [exact Hflip | by apply noRelease_grid].
  - apply bind_Some in H as (c & _ & H).
    case_decide; [| injection H as <-; apply noRelease_refl].
    apply bind_Some in H as (valid & _ & H).
    destruct valid; [| injection H as <-; apply noRelease_refl].
    pose proof (noRelease_selectTarget 3 x y s) as K.
    set (s1 := selectTarget 3 x y s) in *.
    destruct (_ >=? _); [| by injection H as <-].
    apply bind_Some in H as (s2 & Hflip & [= <-]).
    apply noRelease_speedFlip in Hflip.
    eapply noRelease_trans; [exact K |].
    eapply noRelease_trans; [exact Hflip | by apply noRelease_grid].
Qed.

Lemma noRelease_playerCapture x y s s' :
  playerCapture x y s = Some s' -> noRelease s s'.
Proof.
  unfold playerCapture. intros H. apply bind_Some in H as (s1 & Hw & [= <-]).
  eapply noRelease_trans;
    [by eapply (noRelease_writeCell x y CellState.PLAYER) |].
  by apply noRelease_grid.
Qed.

Lemma noRelease_handleInput inp s s' :
  handleInput inp s = Some s' -> noRelease s s'.
Proof.
  intros H. unfold handleInput in H.
  destruct (currentState s);
    [injection H as <-; apply noRelease_refl | |
     injection H as <-; apply noRelease_refl].
  apply bind_Some in H as (s2 & H1 & H2).
  assert (K2 : noRelease s s2).
  { destruct (playerTurn s && negb (impulseModeActive s));
      [| injection H1 as <-; apply noRelease_refl].
    apply bind_Some in H1 as (s1 & Hc & [= <-]).
    assert (K1 : noRelease s s1).
    { destruct (click inp) as [[gx gy]|];
        [| injection Hc as <-; apply noRelease_refl].
      destruct (inBounds (gridSize s) gx gy);
        [| injection Hc as <-; apply noRelease_refl].
      apply bind_Some in Hc as (c & _ & Hc).
      case_decide; [| injection Hc as <-; apply noRelease_refl].
      apply bind_Some in Hc as (valid & _ & Hc).
      destruct valid; [| injection Hc as <-; apply noRelease_refl].
      by apply (noRelease_playerCapture gx gy). }
    eapply noRelease_trans; [exact K1 |]. apply noRelease_grid.
    unfold startImpulseMode.
    destruct (_ >=? _); [| done].
    destruct (keyA inp); [done |]. by destruct (keyS inp). }
  destruct (impulseModeActive s2); [| by injection H2 as <-].
  destruct (click inp) as [[gx gy]|]; [| by injection H2 as <-].
  destruct (inBounds (gridSize s2) gx gy); [| by injection H2 as <-].
  eapply noRelease_trans; [exact K2 | by eapply noRelease_select].
Qed.

(** X14.  Territory is never given back.  In a frame that does not
    start a session from the menu, a cell held by the player or by the
    AI is still held, by one of the two, after the frame: captures and
    impulses only ever write PLAYER or AI, and nothing but the start of
    a session writes Neutral. *)
Theorem territory_never_released inp s s' :
  frame inp s = Some s' ->
  currentState s <> GameState.MENU \/ menuStarts inp = false ->
  forall x y, held (grid s) x y -> held (grid s') x y.
Proof.
  unfold frame. intros H Hnostart. apply bind_Some in H as (s1 & H1 & H2).
  pose proof (noRelease_handleInput inp s s1 H1) as K1.
  destruct (sameSession_handleInput inp s s1 H1) as (Hst & _).
  assert (K2 : noRelease s1 s').
  { unfold updateGame in H2. rewrite Hst in H2.
    destruct (currentState s) eqn:Hcs.
    - destruct Hnostart as [Hne|Hno]; [done |].
      pose proof (updateMenu_fields inp s1 s' H2) as Hm.
      rewrite Hno in Hm. subst s'. by apply noRelease_grid.
    - case_decide; [injection H2 as <-; by apply noRelease_grid |].
      destruct (playerTurn s1); [injection H2 as <-; apply noRelease_refl |].
      by eapply noRelease_processAITurn.
    - destruct (keyR inp || keyEscape inp); injection H2 as <-;
        by apply noRelease_grid. }
  exact (noRelease_trans _ _ _ K1 K2).
Qed.

(** ** Session start, once more *)

(** X5.  [resetGame] on a board of side at least 2 that fits the
    storage: it succeeds, whatever the previous session left behind.
    Afterwards the board holds PLAYER at (0, 0), AI at the opposite
    corner and Neutral everywhere else; cells of the storage outside the
    board are untouched; both counts are 1 and equal the numbers of
    cells on the board, all other cells of the board being Neutral;
    charges are 0, it is the player's turn, no impulse is pending, no
    result is set and the screen is PLAYING.  The board size, the timer
    and the generator are not reset. *)
Theorem resetGame_fresh s :
  covers (grid s) (gridSize s) ->
  2 <= gridSize s ->
  exists s',
    resetGame s = Some s' /\
    (forall x y, grid_get (grid s') x y =
       if decide ((x, y) = (gridSize s - 1, gridSize s - 1))
       then Some CellState.AI
       else if decide ((x, y) = (0, 0)) then Some CellState.PLAYER
       else if inBounds (gridSize s) x y then Some CellState.NEUTRAL
       else grid_get (grid s) x y) /\
    playerCells s' = 1 /\ countCells s' CellState.PLAYER = 1 /\
    aiCells s' = 1 /\ countCells s' CellState.AI = 1 /\
    countCells s' CellState.NEUTRAL = gridSize s * gridSize s - 2 /\
    playerCharges s' = 0 /\ aiCharges s' = 0 /\
    playerTurn s' = true /\ impulseModeActive s' = false /\
    currentImpulseMode s' = ImpulseMode.NONE /\ selectedCells s' = [] /\
    gameResult s' = GameResult.NONE /\
    currentState s' = GameState.PLAYING /\
    gridSize s' = gridSize s /\ aiTimer s' = aiTimer s /\ rng s' = rng s.
Proof.
  intros Hc Hn.
  destruct (resetGame_board s Hc Hn) as (g' & Hrun & Hcell & Hp & Ha & Hc' & _).
  eexists. split; [exact Hrun |].
  rewrite !countCells_countGrid. simpl.
  pose proof (countGrid_total g' (gridSize s) Hc') as Htotal.
  rewrite length_cells in Htotal by lia.
  split; [exact Hcell |].
  do 4 (split; [done |]). split; [lia |]. by repeat split.
Qed.

(** ** The AI's delay *)

(** X15.  Along every run in which no frame carries both a click and
    an impulse key, the player's input is ignored while it is the AI's
    turn: whatever is clicked or pressed, the frame is the AI's turn on
    the unchanged state.  The clock is the single-precision sum of
    [aiTimer] and the frame time, rounded as it is stored: while that
    rounded sum is below [AI_DELAY] the frame only stores it; as soon
    as it reaches [AI_DELAY], be it by rounding of an exact sum still
    below one second, the AI's turn resolves and the player is to
    move. *)
Theorem ai_delay_ignores_input s inp :
  reachableSeparate s ->
  currentState s = GameState.PLAYING ->
  gameResult s = GameResult.NONE ->
  playerTurn s = false ->
  handleInput inp s = Some s /\
  frame inp s = processAITurn (deltaTime inp) s /\
  ((aiTimer s + deltaTime inp >=? AI_DELAY)%f32 = false ->
   frame inp s = Some (set_aiTimer (aiTimer s + deltaTime inp)%f32 s)) /\
  ((aiTimer s + deltaTime inp >=? AI_DELAY)%f32 = true ->
   exists s', frame inp s = Some s' /\ playerTurn s' = true /\
              aiTimer s' = (aiTimer s + deltaTime inp)%f32).
Proof.
  intros Hr Hst Hres Hturn.
  destruct (reachableSeparate_Good s Hr) as (HI & _ & _ & Hact & _).
  assert (Hoff : impulseModeActive s = false).
  { destruct (impulseModeActive s); [| done].
    specialize (Hact eq_refl). congruence. }
  assert (Hin : handleInput inp s = Some s).
  { unfold handleInput. rewrite Hst, Hturn. simpl. by rewrite Hoff. }
  assert (Hframe : frame inp s = processAITurn (deltaTime inp) s).
  { unfold frame. rewrite Hin. simpl. unfold updateGame.
    rewrite Hst, Hres, Hturn.
    by rewrite decide_False by (intros Hne; by apply Hne). }
  split; [done |]. split; [done |]. split.
  - intros Hwait. rewrite Hframe. by apply processAITurn_waits.
  - intros Hfire. rewrite Hframe.
    destruct (processAITurn_result s (deltaTime inp) (Inv_covers s HI) Hfire)
      as (g' & dp & da & dc & r & -> & _).
    eexists. split; [done |]. by win_check_away.
Qed.

(** ** Adjacency and legality *)

(** X16.  [getAdjacentCells] returns exactly the cells of the board
    that differ from [(x, y)] by one step in one coordinate, each once,
    so at most four and never the cell itself; between two cells of the
    board the relation is symmetric; a cell off the border has all four
    neighbours. *)
Theorem getAdjacentCells_neighbours n x y :
  (forall a b, (a, b) ∈ getAdjacentCells n x y <->
     inBounds n a b = true /\ Z.abs (a - x) + Z.abs (b - y) = 1) /\
  NoDup (getAdjacentCells n x y) /\
  (length (getAdjacentCells n x y) <= 4)%nat /\
  ((x, y) ∉ getAdjacentCells n x y) /\
  (forall a b, inBounds n x y = true ->
     (a, b) ∈ getAdjacentCells n x y -> (x, y) ∈ getAdjacentCells n a b) /\
  (0 < x < n - 1 -> 0 < y < n - 1 ->
   getAdjacentCells n x y = [(x - 1, y); (x + 1, y); (x, y - 1); (x, y + 1)]).
Proof.
  assert (Hmem : forall a b, (a, b) ∈ getAdjacentCells n x y <->
            inBounds n a b = true /\ Z.abs (a - x) + Z.abs (b - y) = 1).
  { intros a b. rewrite getAdjacentCells_spec. unfold adjacent4.
    split; intros [H1 H2]; (split; [done || lia | done || lia]). }
  split; [exact Hmem |]. split.
  { unfold getAdjacentCells.
    apply NoDup_ListNoDup, List.NoDup_filter, NoDup_ListNoDup.
    unfold offsets. simpl.
    repeat (apply NoDup_cons; split;
              [rewrite ?elem_of_cons, elem_of_nil; intros Hin;
               destruct_or?; try done; simplify_eq; lia |]).
    apply NoDup_nil_2. }
  split.
  { unfold getAdjacentCells, offsets. simpl.
    repeat (destruct (inBounds n _ _)); simpl; lia. }
  split.
  { intros Hin. apply Hmem in Hin as [_ Hd]. lia. }
  split.
  { intros a b Hxy Hin. apply Hmem in Hin as [Hab Hd].
    apply getAdjacentCells_spec. split; [| done]. unfold adjacent4. lia. }
  intros Hx Hy. unfold getAdjacentCells, offsets. simpl.
  rewrite !(proj2 (inBounds_spec n _ _)) by lia.
  repeat f_equal; lia.
Qed.

(** X17.  [isValidMove] never reads outside the storage when the board
    fits it, and for coordinates off the board it answers [false]
    without reading the grid at all.  It answers [true] exactly for a
    Neutral cell of the board with a neighbour held by [owner]; hence
    never for a cell that is already held, and never when [owner] holds
    no cell next to it. *)
Theorem isValidMove_decides s x y owner :
  (inBounds (gridSize s) x y = false ->
   isValidMove s x y owner = Some false) /\
  (covers (grid s) (gridSize s) ->
   exists b,
     isValidMove s x y owner = Some b /\
     (b = true <-> legalTarget s owner x y) /\
     (held (grid s) x y -> b = false) /\
     ((forall a c, (a, c) ∈ getAdjacentCells (gridSize s) x y ->
         grid_get (grid s) a c <> Some owner) -> b = false)).
Proof.
  split.
  - intros Hout. unfold isValidMove.
    apply inBounds_false in Hout.
    replace ((x <? 0) || (x >=? gridSize s) || (y <? 0) || (y >=? gridSize s))
      with true; [done |].
    symmetry. rewrite !orb_true_iff, !Z.ltb_lt, !Z.geb_le. lia.
  - intros Hc.
    destruct (isValidMove_spec s x y owner Hc) as (b & Hrun & Hiff).
    exists b. split; [done |]. split; [done |]. split.
    + intros Hheld. destruct b; [| done].
      destruct (proj1 Hiff eq_refl) as (_ & Hget & _).
      destruct Hheld as [Hh|Hh]; congruence.
    + intros Hnone. destruct b; [| done].
      destruct (proj1 Hiff eq_refl) as (_ & _ & (a & c & Hadj & Hb & Hget)).
      exfalso. apply (Hnone a c); [| done].
      by apply getAdjacentCells_spec.
Qed.

(** ** Program start *)

Lemma grid_get_replicate n c x y :
  grid_get (replicate (Z.to_nat n) (replicate (Z.to_nat n) c)) x y =
    if inBounds n x y then Some c else None.
Proof.
  unfold grid_get, vec_at.
  destruct (inBounds n x y) eqn:Hb.
  - apply inBounds_spec in Hb as [Hx Hy].
    rewrite decide_True by lia.
    rewrite lookup_replicate_2 by lia. simpl.
    rewrite decide_True by lia. apply lookup_replicate_2. lia.
  - apply inBounds_false in Hb.
    destruct (decide (0 <= x)) as [Hx|Hx]; [| reflexivity].
    destruct (replicate (Z.to_nat n) (replicate (Z.to_nat n) c) !! Z.to_nat x)
      as [row|] eqn:Hrow; [| reflexivity].
    apply lookup_replicate in Hrow as [-> Hlt]. simpl.
    destruct (decide (0 <= y)) as [Hy|Hy]; [| reflexivity].
    apply lookup_replicate_None. lia.
Qed.

Lemma square_replicate n (c : CellState.t) :
  0 <= n -> square (replicate (Z.to_nat n) (replicate (Z.to_nat n) c)) n.
Proof.
  intros Hn. split; [rewrite length_replicate; lia |].
  apply Forall_replicate. rewrite length_replicate. lia.
Qed.

(** The two corner writes on a board whose cells are all Neutral. *)
Lemma place_corners g0 n :
  covers g0 n -> 2 <= n ->
  (forall x y, inBounds n x y = true -> grid_get g0 x y = Some CellState.NEUTRAL) ->
  exists g1 g2,
    grid_set g0 0 0 CellState.PLAYER = Some g1 /\
    grid_set g1 (n - 1) (n - 1) CellState.AI = Some g2 /\
    (forall x y, grid_get g2 x y =
       if decide ((x, y) = (n - 1, n - 1)) then Some CellState.AI
       else if decide ((x, y) = (0, 0)) then Some CellState.PLAYER
       else grid_get g0 x y) /\
    countGrid g2 n CellState.PLAYER = 1 /\
    countGrid g2 n CellState.AI = 1 /\
    (forall m, square g0 m -> square g2 m).
Proof.
  intros Hc0 Hn Hneutral.
  assert (Hb00 : inBounds n 0 0 = true) by (apply inBounds_spec; lia).
  assert (Hbnn : inBounds n (n - 1) (n - 1) = true) by (apply inBounds_spec; lia).
  destruct (grid_set_covers _ _ 0 0 CellState.PLAYER Hc0 Hb00) as [g1 Hg1].
  pose proof (grid_set_keeps_covers _ _ _ _ _ _ Hg1 Hc0) as Hc1.
  destruct (grid_set_covers _ _ (n - 1) (n - 1) CellState.AI Hc1 Hbnn)
    as [g2 Hg2].
  exists g1, g2. split; [done |]. split; [done |].
  assert (Hgetnn : grid_get g1 (n - 1) (n - 1) = Some CellState.NEUTRAL).
  { rewrite (grid_set_other _ _ _ _ _ _ _ Hg1) by (intros [= ? ?]; lia).
    by apply Hneutral. }
  assert (Hzero : forall c, c <> CellState.NEUTRAL -> countGrid g0 n c = 0).
  { intros c Hne. apply countGrid_none. intros x y Hxy.
    rewrite (Hneutral x y Hxy). congruence. }
  destruct (indicator_cases CellState.NEUTRAL)
    as (Ipp & Iaa & Ipa & Iap & Ipn & Ian & _).
  split; [| split; [| split]].
  - intros x y. case_decide as Hnn.
    + injection Hnn as -> ->. by eapply grid_set_same.
    + rewrite (grid_set_other _ _ _ _ _ _ _ Hg2 Hnn). case_decide as H00.
      * injection H00 as -> ->. by eapply grid_set_same.
      * by rewrite (grid_set_other _ _ _ _ _ _ _ Hg1 H00).
  - rewrite (countGrid_set _ _ _ _ _ _ _ _ Hg2 Hbnn Hgetnn).
    rewrite (countGrid_set _ _ _ _ _ _ _ _ Hg1 Hb00 (Hneutral 0 0 Hb00)).
    rewrite Hzero by done. rewrite Ipp, Ipa, Ipn. lia.
  - rewrite (countGrid_set _ _ _ _ _ _ _ _ Hg2 Hbnn Hgetnn).
    rewrite (countGrid_set _ _ _ _ _ _ _ _ Hg1 Hb00 (Hneutral 0 0 Hb00)).
    rewrite Hzero by done. rewrite Iaa, Iap, Ian. lia.
  - intros m Hm. eapply grid_set_keeps_square; [exact Hg2 |].
    by eapply grid_set_keeps_square.
Qed.

(** X18.  [initializeGame] on the empty grid the program starts with,
    for any board size of at least 2: it allocates exactly
    [gridSize] x [gridSize] cells, all Neutral but PLAYER at (0, 0)
    and AI at the opposite corner, and every access outside that square
    is undefined; counts 1 and 1 agree with the board, charges are 0,
    it is the player's turn and no impulse is active.  Unlike
    [resetGame] it leaves the screen, the result and the selection as
    they were. *)
Theorem initializeGame_fresh s :
  grid s = [] ->
  2 <= gridSize s ->
  exists s',
    initializeGame s = Some s' /\
    square (grid s') (gridSize s) /\
    (forall x y, grid_get (grid s') x y =
       if decide ((x, y) = (gridSize s - 1, gridSize s - 1))
       then Some CellState.AI
       else if decide ((x, y) = (0, 0)) then Some CellState.PLAYER
       else if inBounds (gridSize s) x y then Some CellState.NEUTRAL
       else None) /\
    playerCells s' = 1 /\ countCells s' CellState.PLAYER = 1 /\
    aiCells s' = 1 /\ countCells s' CellState.AI = 1 /\
    playerCharges s' = 0 /\ aiCharges s' = 0 /\
    playerTurn s' = true /\ impulseModeActive s' = false /\
    currentImpulseMode s' = ImpulseMode.NONE /\
    gridSize s' = gridSize s /\
    currentState s' = currentState s /\ gameResult s' = gameResult s /\
    selectedCells s' = selectedCells s.
Proof.
  intros Hempty Hn. unfold initializeGame. rewrite Hempty.
  unfold vec_resize. rewrite take_nil. simpl length. rewrite Nat.sub_0_r.
  simpl app.
  set (n := gridSize s) in *.
  set (g0 := replicate (Z.to_nat n) (replicate (Z.to_nat n) CellState.NEUTRAL)).
  assert (Hsq0 : square g0 n) by (apply square_replicate; lia).
  assert (Hc0 : covers g0 n) by (eapply square_covers; [exact Hsq0 | lia]).
  assert (Hneutral : forall x y, inBounds n x y = true ->
            grid_get g0 x y = Some CellState.NEUTRAL).
  { intros x y Hxy. subst g0. by rewrite grid_get_replicate, Hxy. }
  destruct (place_corners g0 n Hc0 Hn Hneutral)
    as (g1 & g2 & Hg1 & Hg2 & Hcell & Hp & Ha & Hsq).
  unfold writeCell. simpl. rewrite Hg1. simpl. fold n. rewrite Hg2. simpl.
  eexists. split; [done |].
  rewrite !countCells_countGrid. simpl. fold n.
  split; [by apply Hsq |]. split.
  { intros x y. rewrite Hcell. repeat case_decide; try done.
    subst g0. apply grid_get_replicate. }
  by repeat split.
Qed.

End Rest.

(** ** The rest of the engine on concrete sessions *)

Lemma reachableSeparate_run inps (s s' : State Tape.t) :
  reachableSeparate s -> Forall separate inps -> run inps s = Some s' ->
  reachableSeparate s'.
Proof.
  revert s. induction inps as [|inp inps IH]; simpl; intros s Hr Hsep H.
  - by injection H as <-.
  - apply Forall_cons in Hsep as [Hinp Hsep].
    apply bind_Some in H as (s1 & H1 & H2).
    eapply IH; [| exact Hsep | exact H2].
    by eapply reachableSeparate_frame.
Qed.

Lemma reachableSeparate_after tape inps s :
  Forall separate inps -> Scenario.after tape inps = Some s ->
  reachableSeparate s.
Proof.
  unfold Scenario.after. intros Hsep H. apply bind_Some in H as (s0 & H0 & H).
  eapply reachableSeparate_run; [| exact Hsep | exact H].
  by eapply reachableSeparate_start.
Qed.

Ltac separate_by_evaluation :=
  repeat (apply Forall_cons; split;
            [first [left; reflexivity | right; split; reflexivity] |]);
  apply Forall_nil_2.

(** The AI's seventh turn on the walk: the counts still match the
    board afterwards. *)
Lemma ai_turn_keeps_counts_witness :
  exists s',
    processAITurn Float32.one Scenario.aiAttacks = Some s' /\
    playerCells s' = countCells s' CellState.PLAYER /\
    aiCells s' = countCells s' CellState.AI /\
    gridSize s' = 7.
Proof.
  assert (Hc : covers (grid Scenario.aiAttacks) (gridSize Scenario.aiAttacks))
    by covers_by_evaluation.
  assert (Hcnt : counted Scenario.aiAttacks)
    by (split; vm_compute; reflexivity).
  destruct (ai_turn_keeps_counts Scenario.aiAttacks Float32.one Hc Hcnt)
    as (s' & Hrun & [Hp Ha] & Hn & _).
  exists s'. split; [exact Hrun |]. split; [exact Hp |]. split; [exact Ha |].
  exact Hn.
Defined.

(** The AI's attack impulse takes the player's cells (5, 0) and (5, 1)
    and pays three of its six charges. *)
Lemma ai_attack_impulse_witness :
  exists cs s',
    processAITurn Float32.one Scenario.aiAttacks = Some s' /\
    (forall x y, (x, y) ∈ cs ->
       borderCell (grid Scenario.aiAttacks) 7 CellState.PLAYER CellState.AI x y) /\
    length cs = 2%nat /\
    playerCells s' = 6 /\ aiCells s' = 9 /\ aiCharges s' = 3 /\
    playerTurn s' = true.
Proof.
  assert (Hc : covers (grid Scenario.aiAttacks) (gridSize Scenario.aiAttacks))
    by covers_by_evaluation.
  destruct (ai_attack_impulse Scenario.aiAttacks Float32.one
              (aiWants ImpulseMode.ATTACK
                 (set_aiTimer (aiTimer Scenario.aiAttacks + Float32.one)%f32
                    Scenario.aiAttacks)).2
              Hc ltac:(vm_compute; reflexivity) ltac:(vm_compute; reflexivity))
    as (cs & s' & Hrun & _ & Hlen & Hborder & _ & _ & Hp & Ha & _ & Hch & _ & Ht).
  exists cs, s'. split; [exact Hrun |]. split; [exact Hborder |].
  pose proof Hrun as Hval. vm_compute in Hval. injection Hval as <-.
  simpl in Hp, Ha, Hch.
  assert (Hlen2 : length cs = 2%nat) by lia.
  split; [exact Hlen2 |]. split; [reflexivity |]. split; [reflexivity |].
  split; [reflexivity | reflexivity].
Defined.

(** The AI's speed impulse takes three Neutral cells and pays all three
    charges. *)
Lemma ai_speed_impulse_witness :
  exists cs s',
    processAITurn Float32.one Scenario.aiSpeeds = Some s' /\
    (forall x y, (x, y) ∈ cs -> legalTarget Scenario.aiSpeeds CellState.AI x y) /\
    length cs = 3%nat /\
    playerCells s' = 5 /\ aiCells s' = 7 /\ aiCharges s' = 0 /\
    playerTurn s' = true.
Proof.
  assert (Hc : covers (grid Scenario.aiSpeeds) (gridSize Scenario.aiSpeeds))
    by covers_by_evaluation.
  destruct (ai_speed_impulse Scenario.aiSpeeds Float32.one
              (aiWants ImpulseMode.ATTACK
                 (set_aiTimer (aiTimer Scenario.aiSpeeds + Float32.one)%f32
                    Scenario.aiSpeeds)).2
              (aiWants ImpulseMode.SPEED
                 (aiWants ImpulseMode.ATTACK
                    (set_aiTimer (aiTimer Scenario.aiSpeeds + Float32.one)%f32
                       Scenario.aiSpeeds)).2).2
              Hc ltac:(vm_compute; reflexivity) ltac:(vm_compute; reflexivity)
              ltac:(vm_compute; reflexivity))
    as (cs & s' & Hrun & _ & Hlen & Hlegal & _ & _ & Hp & Ha & _ & Hch & _ & Ht).
  exists cs, s'. split; [exact Hrun |]. split; [exact Hlegal |].
  pose proof Hrun as Hval. vm_compute in Hval. injection Hval as <-.
  simpl in Hp, Ha, Hch.
  assert (Hlen3 : length cs = 3%nat) by lia.
  split; [exact Hlen3 |]. split; [reflexivity |]. split; [reflexivity |].
  split; [reflexivity | reflexivity].
Defined.

(** The click that completes the player's attack impulse keeps the
    counts in step with the board. *)
Lemma player_input_keeps_counts_witness :
  exists s',
    handleInput (Scenario.clickAt 6 1) Scenario.attackOne = Some s' /\
    playerCells s' = countCells s' CellState.PLAYER /\
    aiCells s' = countCells s' CellState.AI.
Proof.
  assert (Hc : covers (grid Scenario.attackOne) (gridSize Scenario.attackOne))
    by covers_by_evaluation.
  assert (Hb : Forall (fun p => inBounds (gridSize Scenario.attackOne) p.1 p.2 = true)
                      (selectedCells Scenario.attackOne))
    by (repeat constructor).
  assert (Hvalid : selectionValid Scenario.attackOne).
  { split; [apply NoDup_singleton |].
    split; [intros _; by repeat constructor | intros Hm; discriminate Hm]. }
  assert (Hcnt : counted Scenario.attackOne)
    by (split; vm_compute; reflexivity).
  destruct (player_input_keeps_counts Scenario.attackOne (Scenario.clickAt 6 1)
              Hc Hb Hvalid Hcnt) as (s' & Hrun & [Hp Ha] & _).
  exists s'. split; [exact Hrun |]. split; [exact Hp | exact Ha].
Defined.

(** A new session started over the board of [Scenario.attackOne]. *)
Lemma resetGame_fresh_witness :
  exists s',
    resetGame Scenario.attackOne = Some s' /\
    grid_get (grid s') 5 1 = Some CellState.NEUTRAL /\
    grid_get (grid s') 0 0 = Some CellState.PLAYER /\
    grid_get (grid s') 6 6 = Some CellState.AI /\
    countCells s' CellState.NEUTRAL = 47 /\
    playerCharges s' = 0 /\ impulseModeActive s' = false.
Proof.
  assert (Hc : covers (grid Scenario.attackOne) (gridSize Scenario.attackOne))
    by covers_by_evaluation.
  destruct (resetGame_fresh Scenario.attackOne Hc ltac:(simpl; lia))
    as (s' & Hrun & Hcell & _ & _ & _ & _ & Hneutral & Hpc & _ & _ & Hact & _).
  exists s'. split; [exact Hrun |].
  split; [by rewrite Hcell |]. split; [by rewrite Hcell |].
  split; [by rewrite Hcell |]. split; [exact Hneutral |].
  split; [exact Hpc | exact Hact].
Defined.

(** Six rounds, key A and a first attack target, each in a frame of its
    own: the counts match the board. *)
Lemma separate_inputs_keep_counts_witness :
  impulseModeActive Scenario.attackOne = true /\
  playerTurn Scenario.attackOne = true /\
  playerCells Scenario.attackOne = countCells Scenario.attackOne CellState.PLAYER /\
  aiCells Scenario.attackOne = countCells Scenario.attackOne CellState.AI.
Proof.
  assert (Hr : reachableSeparate Scenario.attackOne).
  { apply (reachableSeparate_after Scenario.walkTape
             (Scenario.fiveRounds ++
                [Scenario.clickAt 5 1; Scenario.tick; Scenario.pressA;
                 Scenario.clickAt 6 0])).
    - unfold Scenario.fiveRounds. simpl app. separate_by_evaluation.
    - vm_compute. reflexivity. }
  destruct (separate_inputs_keep_counts Scenario.attackOne Hr)
    as (Hturn & Hp & Ha & _).
  split; [reflexivity |]. split; [by apply Hturn |]. by split.
Defined.

(** In [Scenario.attackOne] the player holds six charges while an
    attack is pending. *)
Lemma charges_never_negative_witness :
  0 <= playerCharges Scenario.attackOne - impulseCost Scenario.attackOne.
Proof.
  assert (Hr : reachable Scenario.attackOne).
  { apply (reachable_after Scenario.walkTape
             (Scenario.fiveRounds ++
                [Scenario.clickAt 5 1; Scenario.tick; Scenario.pressA;
                 Scenario.clickAt 6 0])).
    vm_compute. reflexivity. }
  destruct (charges_never_negative Scenario.attackOne Hr) as (_ & _ & _ & H).
  exact H.
Defined.

(** In [Scenario.speedTwo] two distinct cells of the board are
    selected. *)
Lemma impulse_bookkeeping_witness :
  NoDup (selectedCells Scenario.speedTwo) /\
  (length (selectedCells Scenario.speedTwo) <= 2)%nat.
Proof.
  assert (Hr : reachable Scenario.speedTwo).
  { apply (reachable_after Scenario.walkTape
             (Scenario.fiveRounds ++
                [Scenario.clickAt 5 1; Scenario.tick; Scenario.pressS;
                 Scenario.clickAt 0 1; Scenario.clickAt 1 1])).
    vm_compute. reflexivity. }
  destruct (impulse_bookkeeping Scenario.speedTwo Hr)
    as (_ & _ & Hnd & _ & _ & Hspeed).
  split; [exact Hnd | by apply Hspeed].
Defined.

(** The 7 x 7 session lives in the 10 x 10 storage. *)
Lemma storage_stays_10x10_witness :
  square (grid Scenario.fresh7) 10 /\ gridSize Scenario.fresh7 = 7.
Proof.
  assert (Hr : reachable Scenario.fresh7).
  { apply (reachable_after [] [Scenario.menu Button7; Scenario.menu ButtonStart]).
    vm_compute. reflexivity. }
  destruct (storage_stays_10x10 Scenario.fresh7 Hr) as (Hsq & _).
  split; [exact Hsq | reflexivity].
Defined.

(** With 12 x 12 selected the start button is undefined behaviour; a
    click on the 10 x 10 button in the same state is not. *)
Lemma frame_defined_witness :
  frame (Scenario.menu ButtonStart) Scenario.menu12 = None /\
  frame (Scenario.menu Button10) Scenario.menu12 <> None.
Proof.
  assert (Hr : reachable Scenario.menu12).
  { apply (reachable_after [] [Scenario.menu Button12]).
    vm_compute. reflexivity. }
  split.
  - apply (frame_defined Scenario.menu12 (Scenario.menu ButtonStart) Hr).
    split; [reflexivity |]. split; reflexivity.
  - intros Hnone.
    apply (frame_defined Scenario.menu12 (Scenario.menu Button10) Hr) in Hnone
      as (_ & Hstart & _).
    discriminate Hstart.
Defined.

(** The frame after the result was set moves to the game-over screen. *)
Lemma session_state_machine_witness :
  currentState (Scenario.get (frame Scenario.tick Scenario.playerWon))
    = GameState.GAME_OVER /\
  gameResult (Scenario.get (frame Scenario.tick Scenario.playerWon))
    = GameResult.PLAYER_WIN.
Proof.
  assert (Hf : frame Scenario.tick Scenario.playerWon
               = Some (Scenario.get (frame Scenario.tick Scenario.playerWon)))
    by (vm_compute; reflexivity).
  pose proof (session_state_machine Scenario.tick Scenario.playerWon
                (Scenario.get (frame Scenario.tick Scenario.playerWon)) Hf) as H.
  simpl in H. destruct H as (_ & _ & _ & _ & Hover).
  apply Hover. discriminate.
Defined.

(** The player's 23rd cell is captured in one frame; the result appears
    in the frame in which the AI's delay elapses. *)
Lemma result_only_after_ai_turn_witness :
  gameResult Scenario.playerAhead = GameResult.NONE /\
  playerCells Scenario.playerAhead = 23 /\
  playerTurn (Scenario.get (frame Scenario.tick Scenario.playerAhead)) = true.
Proof.
  assert (Hf : frame Scenario.tick Scenario.playerAhead
               = Some (Scenario.get (frame Scenario.tick Scenario.playerAhead)))
    by (vm_compute; reflexivity).
  assert (Hchange : gameResult (Scenario.get (frame Scenario.tick Scenario.playerAhead))
                    <> gameResult Scenario.playerAhead)
    by (vm_compute; discriminate).
  destruct (result_only_after_ai_turn Scenario.tick Scenario.playerAhead
              (Scenario.get (frame Scenario.tick Scenario.playerAhead))
              Hf eq_refl Hchange)
    as (Hnone & Hturn & _).
  split; [exact Hnone |]. split; [reflexivity | exact Hturn].
Defined.

(** Attack mode entered after three rounds, with no AI cell in reach:
    clicks, keys and time change nothing. *)
Lemma impulse_soft_lock_witness :
  exists s',
    run [Scenario.clickAt 3 6; Scenario.tick; Scenario.pressS;
         Scenario.clickAt 4 0; Scenario.tick] Scenario.lockedAttack = Some s' /\
    s' = set_selectedCells (selectedCells s') Scenario.lockedAttack /\
    (length (selectedCells s') < 2)%nat.
Proof.
  assert (Hc : covers (grid Scenario.lockedAttack) (gridSize Scenario.lockedAttack))
    by covers_by_evaluation.
  assert (Hnone : forall x y, impulseTarget Scenario.lockedAttack x y ->
                    (x, y) ∈ @nil (Z * Z)).
  { intros x y (Hb & Hget & Hn).
    destruct (scanCells_spec (grid Scenario.lockedAttack) 7 CellState.AI
                CellState.PLAYER (cells 7) Hc (cells_inBounds 7))
      as (l & Hl & Hin & _).
    vm_compute in Hl. injection Hl as <-.
    apply Hin. split; [by apply cells_spec | by split]. }
  destruct (impulse_soft_lock Scenario.lockedAttack []
              [Scenario.clickAt 3 6; Scenario.tick; Scenario.pressS;
               Scenario.clickAt 4 0; Scenario.tick]
              Hc eq_refl eq_refl eq_refl eq_refl (NoDup_nil_2)
              (Forall_nil_2 _) Hnone ltac:(simpl; lia))
    as (s' & Hrun & Hs' & Hlen).
  exists s'. split; [exact Hrun |]. split; [exact Hs' |].
  simpl in Hlen. lia.
Defined.

(** The player's cell (5, 1) is taken by the AI's attack: it changes
    hands but is not released. *)
Lemma territory_never_released_witness :
  grid_get (grid Scenario.aiAttacks) 5 1 = Some CellState.PLAYER /\
  held (grid (Scenario.get (frame Scenario.tick Scenario.aiAttacks))) 5 1.
Proof.
  split; [reflexivity |].
  assert (Hf : frame Scenario.tick Scenario.aiAttacks
               = Some (Scenario.get (frame Scenario.tick Scenario.aiAttacks)))
    by (vm_compute; reflexivity).
  assert (Hplay : currentState Scenario.aiAttacks <> GameState.MENU)
    by discriminate.
  apply (territory_never_released Scenario.tick Scenario.aiAttacks
           (Scenario.get (frame Scenario.tick Scenario.aiAttacks))
           Hf (or_introl Hplay)).
  left. reflexivity.
Defined.

(** A click while the AI's delay runs is ignored and half a second is
    stored.  In the next frame the exact sum of the timer and the frame
    time is [1 - 2^-25], which single precision rounds to [1.0f]: the
    AI moves. *)
Lemma ai_delay_ignores_input_witness :
  frame (Scenario.clickWait 2 0 Scenario.halfSecond) Scenario.aiFirst
    = Some Scenario.aiHalfWay /\
  aiTimer Scenario.aiHalfWay = Scenario.halfSecond /\
  (exists s',
     frame (Scenario.wait Scenario.justUnderHalf) Scenario.aiHalfWay = Some s' /\
     playerTurn s' = true /\ aiTimer s' = Float32.one /\
     aiCells s' = aiCells Scenario.aiHalfWay + 1).
Proof.
  assert (Hr : reachableSeparate Scenario.aiFirst).
  { apply (reachableSeparate_after []
             [Scenario.menu Button7; Scenario.menu ButtonStart;
              Scenario.clickAt 1 0]).
    - separate_by_evaluation.
    - vm_compute. reflexivity. }
  assert (Hr' : reachableSeparate Scenario.aiHalfWay).
  { apply (reachableSeparate_after []
             [Scenario.menu Button7; Scenario.menu ButtonStart;
              Scenario.clickAt 1 0;
              Scenario.clickWait 2 0 Scenario.halfSecond]).
    - separate_by_evaluation.
    - vm_compute. reflexivity. }
  destruct (ai_delay_ignores_input Scenario.aiFirst
              (Scenario.clickWait 2 0 Scenario.halfSecond)
              Hr eq_refl eq_refl eq_refl) as (_ & _ & Hwait & _).
  destruct (ai_delay_ignores_input Scenario.aiHalfWay
              (Scenario.wait Scenario.justUnderHalf)
              Hr' eq_refl eq_refl eq_refl) as (_ & _ & _ & Hfire).
  split; [rewrite Hwait; [vm_compute; reflexivity | reflexivity] |].
  split; [reflexivity |].
  destruct (Hfire eq_refl) as (s' & Hrun & Hturn & Htimer).
  exists s'. split; [exact Hrun |]. split; [exact Hturn |].
  split; [rewrite Htimer; vm_compute; reflexivity |].
  pose proof Hrun as Hval. vm_compute in Hval. injection Hval as <-.
  reflexivity.
Defined.

(** The corner (0, 0) of a 7 x 7 board has two neighbours, the cell
    (3, 3) four. *)
Lemma getAdjacentCells_neighbours_witness :
  getAdjacentCells 7 3 3 = [(2, 3); (4, 3); (3, 2); (3, 4)] /\
  (length (getAdjacentCells 7 0 0) <= 4)%nat /\
  (0, 0) ∈ getAdjacentCells 7 1 0.
Proof.
  destruct (getAdjacentCells_neighbours 7 3 3) as (_ & _ & _ & _ & _ & Hfour).
  destruct (getAdjacentCells_neighbours 7 0 0) as (_ & _ & Hlen & _ & Hsym & _).
  split; [apply Hfour; lia |]. split; [exact Hlen |].
  apply (Hsym 1 0); [reflexivity |].
  apply (proj1 (getAdjacentCells_neighbours 7 0 0)). split; [reflexivity | lia].
Defined.

(** On a fresh board (1, 0) is a legal capture for the player, the
    player's own corner and the cell (7, 0) off the board are not. *)
Lemma isValidMove_decides_witness :
  isValidMove Scenario.fresh7 7 0 CellState.PLAYER = Some false /\
  isValidMove Scenario.fresh7 0 0 CellState.PLAYER = Some false /\
  isValidMove Scenario.fresh7 1 0 CellState.PLAYER = Some true.
Proof.
  assert (Hc : covers (grid Scenario.fresh7) (gridSize Scenario.fresh7))
    by covers_by_evaluation.
  split; [| split].
  - apply (isValidMove_decides Scenario.fresh7 7 0 CellState.PLAYER).
    reflexivity.
  - destruct (proj2 (isValidMove_decides Scenario.fresh7 0 0 CellState.PLAYER) Hc)
      as (b & Hrun & _ & Hheld & _).
    rewrite Hrun, Hheld; [reflexivity | left; reflexivity].
  - destruct (proj2 (isValidMove_decides Scenario.fresh7 1 0 CellState.PLAYER) Hc)
      as (b & Hrun & Hiff & _).
    rewrite Hrun. f_equal. apply Hiff.
    split; [reflexivity |]. split; [reflexivity |].
    exists 0, 0. split; [left; lia |]. split; reflexivity.
Defined.

(** Program start: the 10 x 10 board is allocated from the empty grid. *)
Lemma initializeGame_fresh_witness :
  exists s',
    initializeGame (globals (@nil Z)) = Some s' /\
    square (grid s') 10 /\
    grid_get (grid s') 9 9 = Some CellState.AI /\
    grid_get (grid s') 10 0 = None /\
    currentState s' = GameState.MENU.
Proof.
  destruct (initializeGame_fresh (globals (@nil Z)) eq_refl
              ltac:(unfold globals, DEFAULT_GRID_SIZE; simpl; lia))
    as (s' & Hrun & Hsq & Hcell & Hrest).
  exists s'. split; [exact Hrun |]. split; [exact Hsq |].
  split; [by rewrite Hcell |]. split; [by rewrite Hcell |].
  destruct Hrest as (_ & _ & _ & _ & _ & _ & _ & _ & _ & _ & Hst & _).
  exact Hst.
Defined.

(** On the 7 x 7 board the target is 23.  The AI's turn that follows the
    player's 23rd capture resolves and ends with PLAYER_WIN; with both
    counts at 45 on the 10 x 10 board the check gives DRAW, with only
    the AI's there AI_WIN, and the state [main] starts with has no
    winner. *)
Lemma win_condition_witness :
  targetCells 7 = 23 /\
  (exists s',
     processAITurn Float32.one Scenario.playerAhead = Some s' /\
     playerCells s' = 23 /\ aiCells s' = 4 /\
     gameResult Scenario.playerAhead = GameResult.NONE /\
     gameResult s' = GameResult.PLAYER_WIN) /\
  targetCells 10 = 45 /\
  gameResult (checkWinCondition
                (set_aiCells 45 (set_playerCells 45 Scenario.started)))
    = GameResult.DRAW /\
  gameResult (checkWinCondition
                (set_aiCells 45 (set_playerCells 44 Scenario.started)))
    = GameResult.AI_WIN /\
  checkWinCondition Scenario.started = Scenario.started.
Proof.
  assert (Hc : covers (grid Scenario.playerAhead) (gridSize Scenario.playerAhead))
    by covers_by_evaluation.
  destruct (win_condition Scenario.playerAhead 23 eq_refl)
    as (_ & _ & _ & _ & _ & _ & Hturn).
  destruct (Hturn Float32.one Hc eq_refl)
    as (s1 & s' & Hrun & _ & _ & _ & _ & _ & _ & _ & _ & Hres).
  destruct (win_condition Scenario.started 45 eq_refl)
    as (_ & _ & _ & _ & Hnone & Hten & _).
  destruct (win_condition (set_aiCells 45 (set_playerCells 45 Scenario.started))
              45 eq_refl) as (_ & Hdraw & _).
  destruct (win_condition (set_aiCells 45 (set_playerCells 44 Scenario.started))
              45 eq_refl) as (_ & _ & _ & Hai & _).
  split; [reflexivity |]. split.
  - exists s'. split; [exact Hrun |].
    pose proof Hrun as Hval. vm_compute in Hval. injection Hval as <-.
    split; [reflexivity |]. split; [reflexivity |]. split; [reflexivity |].
    rewrite Hres. reflexivity.
  - split; [symmetry; exact (proj1 (Hten eq_refl)) |].
    split; [rewrite Hdraw; [reflexivity | simpl; lia | simpl; lia] |].
    split; [rewrite Hai; [reflexivity | simpl; lia | simpl; lia] |].
    apply Hnone; simpl; lia.
Defined.
